(** * xControl: a shallow embedding of the polling primitives, the template
      locator, the OCR image pipeline, the command runner and the
      process-wide registry, with the properties the specification states
      about them.

    Conventions of the embedding.

    - Python numbers that are only compared, added and subtracted (clock
      readings, timeouts, correlation scores) are rationals [Q].
    - An [isinstance] assertion on an argument is the type of that argument;
      an assertion on a value ([0 <= confidence <= 1], [img.ndim == 3]) is a
      test that raises [AssertionError].
    - A function that may raise returns an [outcome]: [Ret v] or [Raise e].
    - A [while] loop is a [Fixpoint] on a fuel argument; running out of fuel
      is [None], and every statement that the code returns is proved with
      enough fuel.
    - Calls into the outside world (the clock, [time.sleep], the screen, the
      file system, OpenCV, tesseract, [subprocess]) are answered by oracles
      that are section variables, and every such call is written to a trace
      so that "before", "exactly once" and "never again" can be stated. *)

From stdpp Require Import base option list gmap strings.
From Stdlib Require Import ZArith QArith Lia DecimalString.

Local Close Scope Q_scope.
Local Open Scope Z_scope.
Local Open Scope nat_scope.

(** ** Exceptions and outcomes *)

Inductive exn : Type :=
| AssertionError (msg : string)
| FileNotFoundError (path : string)
| TimeoutError (msg : string)
| ValueError (msg : string)
| UnicodeDecodeError
| IndexError (msg : string)
| OSError (msg : string)
| OverflowError (msg : string)
| cv2_error (msg : string).

Inductive outcome (A : Type) : Type :=
| Ret (a : A)
| Raise (e : exn).
Arguments Ret {A} a.
Arguments Raise {A} e.

(** [x > y] on Python numbers. *)
Definition Qgtb (x y : Q) : bool := negb (Qle_bool x y).

(** ** utils.py *)

(** What a polling loop does, in order: a reading of [time.time()], a call
    of the condition with what it returned, a [time.sleep]. *)
Inductive event (R : Type) : Type :=
| EvTime (t : Q)
| EvCall (r : outcome R)
| EvSleep (d : Q).
Arguments EvTime {R} t.
Arguments EvCall {R} r.
Arguments EvSleep {R} d.

(** The state a polling loop runs in: the state the condition reads and
    writes, how many times the clock has been read, and the trace. *)
Record pstate (S R : Type) : Type := mkPState {
  user : S;
  reads : nat;
  trace : list (event R)
}.
Arguments mkPState {S R} user reads trace.
Arguments user {S R} p.
Arguments reads {S R} p.
Arguments trace {S R} p.

Section Polling.
Context {S R : Type}.
(** [clock k] is what the [k]-th call of [time.time()] returns. *)
Variable clock : nat -> Q.
(** The callable handed to the loop: it may change its own state and may
    raise. *)
Variable condition : S -> outcome R * S.

Definition time_time (st : pstate S R) : Q * pstate S R :=
  let t := clock (reads st) in
  (t, mkPState (user st) (Datatypes.S (reads st)) (trace st ++ [EvTime t])).

(** [time.sleep(d)] raises [ValueError] on a negative argument. *)
Definition time_sleep (d : Q) (st : pstate S R) : outcome unit * pstate S R :=
  if Qgtb 0 d
  then (Raise (ValueError "sleep length must be non-negative"), st)
  else (Ret tt, mkPState (user st) (reads st) (trace st ++ [EvSleep d])).

Definition call (st : pstate S R) : outcome R * pstate S R :=
  let '(r, u) := condition (user st) in
  (r, mkPState u (reads st) (trace st ++ [EvCall r])).

End Polling.

Section WaitFor.
Context {S : Type}.
Variable clock : nat -> Q.
Variable condition : S -> outcome bool * S.

(** The [while not condition(): ...] loop of [wait_for]; [start] has been
    read already. *)
Fixpoint wait_for_loop (fuel : nat) (start timeout interval : Q)
    (st : pstate S bool) : option (outcome bool * pstate S bool) :=
  match fuel with
  | O => None
  | Datatypes.S fuel' =>
    match call condition st with
    | (Raise e, st1) => Some (Raise e, st1)
    | (Ret true, st1) => Some (Ret true, st1)
    | (Ret false, st1) =>
      let '(now, st2) := time_time clock st1 in
      if Qgtb (now - start) timeout then Some (Ret false, st2)
      else
        match time_sleep interval st2 with
        | (Raise e, st3) => Some (Raise e, st3)
        | (Ret _, st3) => wait_for_loop fuel' start timeout interval st3
        end
    end
  end.

Definition wait_for (fuel : nat) (timeout interval : Q)
    (st : pstate S bool) : option (outcome bool * pstate S bool) :=
  let '(start, st0) := time_time clock st in
  wait_for_loop fuel start timeout interval st0.

End WaitFor.

Section WaitToBeSet.
Context {S V : Type}.
Variable clock : nat -> Q.
Variable condition : S -> outcome (option V) * S.

(** The [while result is None: ...] loop of [wait_to_be_set]. *)
Fixpoint wait_to_be_set_loop (fuel : nat) (start timeout interval : Q)
    (result : option V) (st : pstate S (option V))
    : option (outcome (option V) * pstate S (option V)) :=
  match result with
  | Some v => Some (Ret (Some v), st)
  | None =>
    let '(now, st1) := time_time clock st in
    if Qgtb (now - start) timeout then Some (Ret None, st1)
    else
      match fuel with
      | O => None
      | Datatypes.S fuel' =>
        match time_sleep interval st1 with
        | (Raise e, st2) => Some (Raise e, st2)
        | (Ret _, st2) =>
          match call condition st2 with
          | (Raise e, st3) => Some (Raise e, st3)
          | (Ret r, st3) =>
            wait_to_be_set_loop fuel' start timeout interval r st3
          end
        end
      end
  end.

Definition wait_to_be_set (fuel : nat) (timeout interval : Q)
    (st : pstate S (option V))
    : option (outcome (option V) * pstate S (option V)) :=
  match call condition st with
  | (Raise e, st0) => Some (Raise e, st0)
  | (Ret result, st0) =>
    let '(start, st1) := time_time clock st0 in
    wait_to_be_set_loop fuel start timeout interval result st1
  end.

End WaitToBeSet.

(** The default [interval=0.1]. *)
Definition default_interval : Q := (1 # 10)%Q.

(** Number of evaluations of the condition in a trace. *)
Definition is_call {R : Type} (e : event R) : bool :=
  match e with EvCall _ => true | _ => false end.

Definition evaluations {R : Type} (evs : list (event R)) : nat :=
  length (List.filter is_call evs).

(** ** geometry.py *)

Record Point : Type := mkPoint { X : Z; Y : Z }.

(** [Point.__init__]: both coordinates must be non-negative. *)
Definition Point_init (x y : Z) : outcome Point :=
  if ((0 <=? x)%Z && (0 <=? y)%Z)%bool then Ret (mkPoint x y)
  else Raise (AssertionError "").

Record Frame : Type := mkFrame { corner : Point; width : Z; height : Z }.

(** ** numpy arrays

    An array of shape [(h, w)], an array of shape [(h, w, c)] (a list of
    rows, a row a list of pixels, a pixel a list of [c] channel values), or
    an array of any other rank of which only the shape matters here. *)
Inductive ndarray : Type :=
| Gray (h w : nat) (px : list (list Z))
| Color (h w c : nat) (px : list (list (list Z)))
| Other (shp : list nat).

Definition shape (a : ndarray) : list nat :=
  match a with
  | Gray h w _ => [h; w]
  | Color h w c _ => [h; w; c]
  | Other s => s
  end.

Definition ndim (a : ndarray) : nat := length (shape a).

(** ** screen.py *)

Inductive screen_event : Type :=
| EvScreenshot (frame : option Frame)
| EvImread (path : string)
| EvMatchTemplate.

(** The display as the locator sees it: how many captures have been asked
    for, and what has been asked of the outside world so far. *)
Record screen_state : Type := mkScreen {
  shots : nat;
  screen_log : list screen_event
}.

Definition record_event (e : screen_event) (st : screen_state) : screen_state :=
  mkScreen (shots st) (screen_log st ++ [e]).

Section Screen.
(** [capture k frame] is what the [k]-th call of [Display.screenshot]
    gives: a frame, or the exception of the X server or of the decoder of
    the raw data. *)
Variable capture : nat -> option Frame -> outcome ndarray.
(** [cv2.imread]: [None] when the path is not a readable image. *)
Variable imread : string -> option ndarray.
(** [cv2.matchTemplate(..., TM_CCOEFF_NORMED)] and the [max_val], [max_loc]
    components of [cv2.minMaxLoc]; [max_loc] is [(x, y)]. *)
Variable Corr : Type.
Variable matchTemplate : ndarray -> ndarray -> outcome Corr.
Variable minMaxLoc : Corr -> Q * (nat * nat).
(** How Python prints a number inside an f-string. *)
Variable str_of_num : Q -> string.

Definition screenshot (frame : option Frame) (st : screen_state)
    : outcome ndarray * screen_state :=
  (capture (shots st) frame,
   mkScreen (Datatypes.S (shots st)) (screen_log st ++ [EvScreenshot frame])).

(** [0 <= confidence <= 1] *)
Definition valid_confidence (confidence : Q) : bool :=
  Qle_bool 0 confidence && Qle_bool confidence 1.

(** [Screen.__locate_on_screen] *)
Definition locate_on_screen (imagePath : string) (frame : option Frame)
    (confidence : Q) (st : screen_state)
    : outcome (option Point) * screen_state :=
  if negb (valid_confidence confidence) then (Raise (AssertionError ""), st)
  else
    match screenshot frame st with
    | (Raise e, st1) => (Raise e, st1)
    | (Ret shot, st1) =>
      let st2 := record_event (EvImread imagePath) st1 in
      match imread imagePath with
      | None => (Raise (FileNotFoundError imagePath), st2)
      | Some template =>
        let st3 := record_event EvMatchTemplate st2 in
        match matchTemplate shot template with
        | Raise e => (Raise e, st3)
        | Ret result =>
          let '(max_val, max_loc) := minMaxLoc result in
          if Qgtb max_val confidence then
            (* h, w = template.shape[:-1] *)
            match removelast (shape template) with
            | [h; w] =>
              match Point_init (Z.of_nat (fst max_loc) + Z.of_nat w / 2)
                               (Z.of_nat (snd max_loc) + Z.of_nat h / 2) with
              | Ret p => (Ret (Some p), st3)
              | Raise e => (Raise e, st3)
              end
            | _ => (Raise (ValueError "unpack"), st3)
            end
          else (Ret None, st3)
        end
      end
    end.

(** [Screen.wait_for_image]; a [Point] is an object without [__bool__] or
    [__len__], so [if point:] only tests for [None]. *)
Definition wait_for_image (clock : nat -> Q) (fuel : nat)
    (imagePath : string) (frame : option Frame) (confidence timeout : Q)
    (st : pstate screen_state (option Point))
    : option (outcome Point * pstate screen_state (option Point)) :=
  match wait_to_be_set clock (locate_on_screen imagePath frame confidence)
          fuel 1 default_interval st with
  | None => None
  | Some (Raise e, st') => Some (Raise e, st')
  | Some (Ret (Some point), st') => Some (Ret point, st')
  | Some (Ret None, st') =>
    Some (Raise (TimeoutError
            ("Image " +:+ imagePath +:+ " not found in "
               +:+ str_of_num timeout +:+ " seconds")), st')
  end.

(** The [lambda: not self.__locate_on_screen(...)] of
    [wait_for_image_to_disappear]. *)
Definition not_located (imagePath : string) (frame : option Frame)
    (confidence : Q) (st : screen_state) : outcome bool * screen_state :=
  match locate_on_screen imagePath frame confidence st with
  | (Ret (Some _), st') => (Ret false, st')
  | (Ret None, st') => (Ret true, st')
  | (Raise e, st') => (Raise e, st')
  end.

(** [Screen.wait_for_image_to_disappear] *)
Definition wait_for_image_to_disappear (clock : nat -> Q) (fuel : nat)
    (imagePath : string) (frame : option Frame) (confidence timeout : Q)
    (st : pstate screen_state bool)
    : option (outcome unit * pstate screen_state bool) :=
  match wait_for clock (not_located imagePath frame confidence)
          fuel 1 default_interval st with
  | None => None
  | Some (Raise e, st') => Some (Raise e, st')
  | Some (Ret true, st') => Some (Ret tt, st')
  | Some (Ret false, st') =>
    Some (Raise (TimeoutError
            ("Image " +:+ imagePath +:+ " did not disappear in "
               +:+ str_of_num timeout +:+ " seconds")), st')
  end.

End Screen.

(** ** ocr.py *)

(** Page segmentation mode, with the tesseract flags it stands for. *)
Inductive PSM : Type := BLOCK_OF_TEXT | SINGLE_LINE | SINGLE_WORD | NUMBER.

Definition PSM_value (m : PSM) : string :=
  match m with
  | BLOCK_OF_TEXT => "--psm 6"
  | SINGLE_LINE => "--psm 7"
  | SINGLE_WORD => "--psm 8"
  | NUMBER => "--psm 7 -c tessedit_char_whitelist=0123456789"
  end.

Record OCR_SPEC : Type := mkSpec {
  type : PSM;
  lowerBound : list Z;
  upperBound : list Z
}.

(** [OCR_SPEC.__init__]: both bounds are lists of three components. *)
Definition OCR_SPEC_init (t : PSM) (lo hi : list Z) : outcome OCR_SPEC :=
  if ((length lo =? 3) && (length hi =? 3))%bool then Ret (mkSpec t lo hi)
  else Raise (AssertionError "").

(** [np.array(l, dtype=np.uint8)] on a list of Python integers: a value
    that does not fit a byte raises [OverflowError] (NumPy 2; NumPy 1
    wrapped it around, with a deprecation warning since 1.24). *)
Definition fits_uint8 (z : Z) : bool := ((0 <=? z) && (z <? 256))%Z.

Definition as_uint8 (l : list Z) : outcome (list Z) :=
  if forallb fits_uint8 l then Ret l
  else Raise (OverflowError "Python integer out of bounds for uint8").

(** A pixel is inside the range when every channel lies between the two
    bounds, both included. *)
Fixpoint in_range (p lo hi : list Z) : bool :=
  match p, lo, hi with
  | [], [], [] => true
  | x :: p', l :: lo', u :: hi' =>
    ((l <=? x)%Z && (x <=? u)%Z && in_range p' lo' hi')%bool
  | _, _, _ => false
  end.

(** An array without elements, which OpenCV refuses as an input. *)
Definition empty_image (h w : nat) : bool := ((h =? 0) || (w =? 0))%bool.

(** [cv2.inRange(img, lowerb, upperb)]: 255 where the pixel is inside the
    range and 0 elsewhere; the image must not be empty and the bounds must
    have one component per channel. *)
Definition cv2_inRange (img : ndarray) (lowerb upperb : list Z)
    : outcome ndarray :=
  match img with
  | Color h w c px =>
    if empty_image h w then Raise (cv2_error "inRange")
    else if ((length lowerb =? c) && (length upperb =? c))%bool
    then Ret (Gray h w
                (map (map (fun p => if in_range p lowerb upperb
                                    then 255%Z else 0%Z)) px))
    else Raise (cv2_error "inRange")
  | _ => Raise (cv2_error "inRange")
  end.

(** [a == v] and [~m] on arrays, and the assignment [a[m] = v] through a
    boolean mask of the shape of [a]. *)
Definition eq_scalar (a : list (list Z)) (v : Z) : list (list bool) :=
  map (map (fun x => (x =? v)%Z)) a.

Definition mask_not (m : list (list bool)) : list (list bool) :=
  map (map negb) m.

Definition mask_assign (a : list (list Z)) (m : list (list bool)) (v : Z)
    : list (list Z) :=
  zip_with (zip_with (fun x (b : bool) => if b then v else x)) a m.

Section Binarize.
(** The grey level [cv2.cvtColor(..., COLOR_BGR2GRAY)] gives a pixel. *)
Variable gray_of : list Z -> Z.

Definition cv2_cvtColor_BGR2GRAY (img : ndarray) : outcome ndarray :=
  match img with
  | Color h w c px =>
    if empty_image h w then Raise (cv2_error "cvtColor")
    else if ((c =? 3) || (c =? 4))%bool
    then Ret (Gray h w (map (map gray_of) px))
    else Raise (cv2_error "cvtColor")
  | _ => Raise (cv2_error "cvtColor")
  end.

(** [OCR.__convert_to_bw] *)
Definition convert_to_bw (img : ndarray) (spec : OCR_SPEC) : outcome ndarray :=
  if negb (ndim img =? 3) then Raise (AssertionError "Image must be BGR")
  else
    match as_uint8 (lowerBound spec) with
    | Raise e => Raise e
    | Ret lowerColor =>
      match as_uint8 (upperBound spec) with
      | Raise e => Raise e
      | Ret upperColor =>
        match cv2_inRange img lowerColor upperColor with
        | Raise e => Raise e
        | Ret (Gray _ _ mask) =>
          let bgMask := eq_scalar mask 0 in
          match cv2_cvtColor_BGR2GRAY img with
          | Ret (Gray h w g) =>
            let g1 := mask_assign g bgMask 255 in
            let g2 := mask_assign g1 (mask_not bgMask) 0 in
            Ret (Gray h w g2)
          | Ret _ => Raise (cv2_error "cvtColor")
          | Raise e => Raise e
          end
        | Ret _ => Raise (cv2_error "inRange")
        end
      end
    end.

End Binarize.

(** [np.all(img == 255, axis=1)]: one answer per row. *)
Definition all_white_rows (px : list (list Z)) : list bool :=
  map (forallb (fun x => (x =? 255)%Z)) px.

(** [np.all(img == 255, axis=0)]: one answer per column. *)
Definition all_white_cols (w : nat) (px : list (list Z)) : list bool :=
  map (fun j => forallb (fun row => match row !! j with
                                    | Some x => (x =? 255)%Z
                                    | None => true
                                    end) px)
      (seq 0 w).

(** [np.where(m == False)[0]]: the indices at which [m] is false, in
    increasing order. *)
Definition where_false (m : list bool) : list nat :=
  List.filter (fun i => match m !! i with Some false => true | _ => false end)
              (seq 0 (length m)).

(** [img[a:b, :]] and [img[:, a:b]] for in-range [a <= b]. *)
Definition slice_rows (a b : nat) (img : ndarray) : ndarray :=
  match img with
  | Gray h w px => Gray (b - a) w (take (b - a) (drop a px))
  | _ => img
  end.

Definition slice_cols (a b : nat) (img : ndarray) : ndarray :=
  match img with
  | Gray h w px => Gray h (b - a) (map (fun row => take (b - a) (drop a row)) px)
  | _ => img
  end.

(** [np.pad(img, n, mode="constant", constant_values=v)] *)
Definition np_pad (n : nat) (v : Z) (img : ndarray) : ndarray :=
  match img with
  | Gray h w px =>
    let blank := replicate n (replicate (n + w + n) v) in
    Gray (n + h + n) (n + w + n)
         (blank ++ map (fun row => replicate n v ++ row ++ replicate n v) px
                ++ blank)
  | _ => img
  end.

Inductive interpolation : Type := INTER_NEAREST | INTER_LINEAR | INTER_CUBIC.

(** The cropping part of [OCR.__improve_resolution]; both index lists are
    computed on the image as it came in. *)
Definition crop_white_border (img : ndarray) : ndarray :=
  match img with
  | Gray h w px =>
    let empty_rows := where_false (all_white_rows px) in
    let empty_cols := where_false (all_white_cols w px) in
    let img1 :=
      match head empty_rows, last empty_rows with
      | Some r0, Some r1 => slice_rows r0 (r1 + 1) img
      | _, _ => img
      end in
    match head empty_cols, last empty_cols with
    | Some c0, Some c1 => slice_cols c0 (c1 + 1) img1
    | _, _ => img1
    end
  | _ => img
  end.

Definition padding : nat := 15.

(** [cvRound]: the nearest integer, a tie going to the even one. *)
Definition cvRound (q : Q) : Z :=
  let n := Qnum q in
  let d := Zpos (Qden q) in
  let f := (n / d)%Z in
  let r2 := (2 * (n mod d))%Z in
  if (r2 <? d)%Z then f
  else if (d <? r2)%Z then (f + 1)%Z
  else if Z.even f then f else (f + 1)%Z.

(** The size [cv2.resize] gives a side of [n] pixels scaled by [f]. *)
Definition resized (n : nat) (f : Q) : nat :=
  Z.to_nat (cvRound (inject_Z (Z.of_nat n) * f)).

Section Resize.
(** The pixels [cv2.resize(img, None, fx=.., fy=.., interpolation=..)]
    computes. *)
Variable resize_px : ndarray -> Q -> Q -> interpolation -> list (list Z).

(** [cv2.resize(img, None, fx=.., fy=.., interpolation=..)] on an array of
    shape [(h, w)], which is what the one call in the code passes: the
    result has [cvRound(h * fy)] rows and [cvRound(w * fx)] columns, and
    neither the input nor the result may be empty. *)
Definition cv2_resize (img : ndarray) (fx fy : Q) (interp : interpolation)
    : outcome ndarray :=
  match img with
  | Gray h w px =>
    let h' := resized h fy in
    let w' := resized w fx in
    if (empty_image h w || empty_image h' w')%bool
    then Raise (cv2_error "resize")
    else Ret (Gray h' w' (resize_px img fx fy interp))
  | _ => Raise (cv2_error "resize")
  end.

End Resize.

Section Pipeline.
Variable gray_of : list Z -> Z.
Variable resize_px : ndarray -> Q -> Q -> interpolation -> list (list Z).
(** [cv2.erode], [cv2.dilate] with a kernel and an iteration count, and
    [cv2.GaussianBlur] with a kernel size and a sigma. *)
Variable cv2_erode cv2_dilate : ndarray -> ndarray -> nat -> ndarray.
Variable cv2_GaussianBlur : ndarray -> nat * nat -> Q -> ndarray.
(** [pytesseract.image_to_string(img, config=..)] *)
Variable image_to_string : ndarray -> string -> string.
(** [re.sub(pattern, repl, text)] and [text.strip()] *)
Variable re_sub : string -> string -> string -> string.
Variable str_strip : string -> string.

(** [OCR.__improve_resolution] *)
Definition improve_resolution (img : ndarray) : outcome ndarray :=
  if negb (ndim img =? 2) then Raise (AssertionError "Image must be grayscale")
  else
    let img1 := crop_white_border img in
    let img2 := np_pad padding 255 img1 in
    cv2_resize resize_px img2 (5 # 2)%Q (5 # 2)%Q INTER_LINEAR.

Definition ones_3x3 : ndarray := Gray 3 3 (replicate 3 (replicate 3 1%Z)).

(** [OCR.__enhance] *)
Definition enhance (img : ndarray) : ndarray :=
  let img1 := cv2_erode img ones_3x3 1 in
  let img2 := cv2_dilate img1 ones_3x3 1 in
  cv2_GaussianBlur img2 (3, 3) 0%Q.

(** [OCR.__format]; the pattern is a run of tab characters. *)
Definition format (text : string) : string :=
  str_strip (re_sub "\t+" " " text).

(** What [extract_text] does besides computing: the steps it enters and the
    engine and window calls it makes. *)
Inductive ocr_event : Type :=
| EvPrepare
| EvConvert
| EvImprove
| EvEnhance
| EvTesseract (config : string)
| EvShow
| EvPrint (text : string).

(** [OCR.extract_text]; [prepare_image] is the optional callable. *)
Definition extract_text (img : ndarray) (spec : OCR_SPEC) (preview : bool)
    (prepare_image : option (ndarray -> outcome ndarray))
    : outcome string * list ocr_event :=
  if negb (ndim img =? 3) then (Raise (AssertionError "Image must be BGR"), [])
  else
    let prepared :=
      match prepare_image with
      | Some f => (f img, [EvPrepare])
      | None =>
        match convert_to_bw gray_of img spec with
        | Raise e => (Raise e, [EvConvert])
        | Ret bw =>
          match improve_resolution bw with
          | Raise e => (Raise e, [EvConvert; EvImprove])
          | Ret big => (Ret (enhance big), [EvConvert; EvImprove; EvEnhance])
          end
        end
      end in
    match prepared with
    | (Raise e, evs) => (Raise e, evs)
    | (Ret img', evs) =>
      let config := "-l eng " +:+ PSM_value (type spec) in
      let txt := format (image_to_string img' config) in
      if preview
      then (Ret txt, evs ++ [EvTesseract config; EvShow;
                             EvPrint ("OCR result is " +:+ txt)])
      else (Ret txt, evs ++ [EvTesseract config])
    end.

End Pipeline.

(** ** display.py *)

(** Bytes read from a pipe decode in strict UTF-8 or the decoder raises. A
    Python [str] is kept as its UTF-8 encoding, so decoding leaves a valid
    byte sequence as it is, and the text is empty exactly when the bytes
    are. *)
Definition is_cont (b : N) : bool := ((0x80 <=? b) && (b <=? 0xBF))%N.

Fixpoint utf8_ok (l : list N) : bool :=
  match l with
  | [] => true
  | b0 :: l1 =>
    if (b0 <? 0x80)%N then utf8_ok l1
    else if ((0xC2 <=? b0) && (b0 <=? 0xDF))%N then
      match l1 with
      | b1 :: l2 => is_cont b1 && utf8_ok l2
      | _ => false
      end
    else if ((0xE0 <=? b0) && (b0 <=? 0xEF))%N then
      match l1 with
      | b1 :: b2 :: l3 =>
        (if (b0 =? 0xE0)%N then ((0xA0 <=? b1) && (b1 <=? 0xBF))%N
         else if (b0 =? 0xED)%N then ((0x80 <=? b1) && (b1 <=? 0x9F))%N
         else is_cont b1)
        && is_cont b2 && utf8_ok l3
      | _ => false
      end
    else if ((0xF0 <=? b0) && (b0 <=? 0xF4))%N then
      match l1 with
      | b1 :: b2 :: b3 :: l4 =>
        (if (b0 =? 0xF0)%N then ((0x90 <=? b1) && (b1 <=? 0xBF))%N
         else if (b0 =? 0xF4)%N then ((0x80 <=? b1) && (b1 <=? 0x8F))%N
         else is_cont b1)
        && is_cont b2 && is_cont b3 && utf8_ok l4
      | _ => false
      end
    else false
  end.

Definition valid_utf8 (b : string) : bool :=
  utf8_ok (map Ascii.N_of_ascii (String.list_ascii_of_string b)).

(** [bytes.decode("utf-8")] *)
Definition decode_utf8 (b : string) : outcome string :=
  if valid_utf8 b then Ret b else Raise UnicodeDecodeError.

(** [str(rc)] for an integer. *)
Definition str_of_int (z : Z) : string :=
  DecimalString.NilZero.string_of_int (Z.to_int z).

(** A spawned process as [run_command] can observe it: what
    [proc.wait(timeout=5)] gives ([None] when it raises, as on a timeout)
    and what the two pipes hold. Reading a pipe drains it. *)
Record Process : Type := mkProcess {
  wait5 : option Z;
  stdout : string;
  stderr : string
}.

Definition read_stdout (p : Process) : string * Process :=
  (stdout p, mkProcess (wait5 p) "" (stderr p)).

Definition read_stderr (p : Process) : string * Process :=
  (stderr p, mkProcess (wait5 p) (stdout p) "").

(** A [log.debug] record. *)
Inductive log_record : Type := Debug (msg : string).

Section Display.
Variable shlex_split : string -> outcome (list string).
(** [Popen(argv, env=self.env, stdout=PIPE, stderr=PIPE)] *)
Variable Popen : list string -> outcome Process.

(** [Display.run_command]: the value returned or the exception raised, and
    the records logged. *)
Definition run_command (cmd : string) (waitFor : bool)
    : outcome string * list log_record :=
  let log0 := [Debug ("Run command: " +:+ cmd)] in
  match shlex_split cmd with
  | Raise e => (Raise e, log0)
  | Ret argv =>
    match Popen argv with
    | Raise e => (Raise e, log0)
    | Ret proc =>
      if waitFor then
        match wait5 proc with
        | None =>
          (Ret "", log0 ++ [Debug ("Failed to wait for " +:+ cmd
                                     +:+ "; continuing")])
        | Some rc =>
          if negb (rc =? 0)%Z then
            let '(raw_err, proc1) := read_stderr proc in
            match decode_utf8 raw_err with
            | Raise e => (Raise e, log0)
            | Ret err =>
              let after_err :=
                if (String.length err =? 0)
                then let '(raw_out, proc2) := read_stdout proc1 in
                     (decode_utf8 raw_out, proc2)
                else (Ret err, proc1) in
              match after_err with
              | (Raise e, _) => (Raise e, log0)
              | (Ret err', proc2) =>
                let log1 := log0 ++ [Debug (cmd +:+ " exited with "
                                              +:+ str_of_int rc
                                              +:+ ", err: " +:+ err')] in
                match decode_utf8 (fst (read_stdout proc2)) with
                | Raise e => (Raise e, log1)
                | Ret out => (Ret out, log1)
                end
              end
            end
          else
            match decode_utf8 (fst (read_stdout proc)) with
            | Raise e => (Raise e, log0)
            | Ret out => (Ret out, log0)
            end
        end
      else (Ret "", log0)
    end
  end.

End Display.

(** [Display.__init__]: what is kept of a display, and the checks on the
    arguments. [None] stands for an argument left at its default. *)
Record Display : Type := mkDisplay {
  displayId : string;
  display_width : Z;
  display_height : Z;
  title : string
}.

Definition Display_init (id : string) (w h : option Z) : outcome Display :=
  match w, h with
  | Some w', Some h' =>
    if (String.prefix ":" id && (0 <? w')%Z && (0 <? h')%Z)%bool
    then Ret (mkDisplay id w' h' ("Xephyr-Window-" +:+ id))
    else Raise (AssertionError "")
  | _, _ => Raise (AssertionError "")
  end.

(** ** __init__.py: the registry of automation handles *)

(** An [XControl] object; its screen and OCR parts hold no data of their
    own besides the display. *)
Record XControl : Type := mkXControl { display : Display }.

Definition XControl_init (id : string) (w h : option Z) : outcome XControl :=
  match Display_init id w h with
  | Ret d => Ret (mkXControl d)
  | Raise e => Raise e
  end.

(** The two class attributes [__instances] and [uniqueDisplay]. *)
Record registry : Type := mkRegistry {
  instances : gmap string XControl;
  uniqueDisplay : bool
}.

Definition initial_registry : registry := mkRegistry ∅ false.

(** [XControl.config] *)
Definition config (unique : bool) (r : registry) : outcome unit * registry :=
  if (unique && negb (size (instances r) <=? 1))%bool
  then (Raise (AssertionError "There are already multiple displays created."), r)
  else (Ret tt, mkRegistry (instances r) unique).

(** [XControl.get_instance] *)
Definition get_instance (id : option string) (w h : option Z) (r : registry)
    : outcome XControl * registry :=
  match id with
  | None =>
    if (uniqueDisplay r && (size (instances r) =? 1))%bool then
      match (map_to_list (instances r)).*2 with
      | x :: _ => (Ret x, r)
      | [] => (Raise (IndexError "list index out of range"), r)
      end
    else (Raise (AssertionError
                   "Display ID is required when multiple displays are allowed."), r)
  | Some i =>
    match instances r !! i with
    | Some x => (Ret x, r)
    | None =>
      if ((size (instances r) =? 0) || negb (uniqueDisplay r))%bool then
        match XControl_init i w h with
        | Ret x => (Ret x, mkRegistry (<[i := x]> (instances r)) (uniqueDisplay r))
        | Raise e => (Raise e, r)
        end
      else (Raise (AssertionError "There is already a display created."), r)
    end
  end.

(** One call on the registry, and a run of calls from a given registry. *)
Inductive registry_call : Type :=
| CallConfig (unique : bool)
| CallGetInstance (id : option string) (w h : option Z).

Definition run_call (c : registry_call) (r : registry) : registry :=
  match c with
  | CallConfig u => snd (config u r)
  | CallGetInstance id w h => snd (get_instance id w h r)
  end.

Definition run_calls (cs : list registry_call) (r : registry) : registry :=
  fold_left (fun r c => run_call c r) cs r.

(** * Vocabulary of the statements *)

(** ** Traces of the polling loops *)

(** One unsuccessful turn of the [wait_for] loop: the condition is false,
    the clock is read, the loop sleeps. *)
Definition wait_for_round (interval t : Q) : list (event bool) :=
  [EvCall (Ret false); EvTime t; EvSleep interval].

(** How a run of [wait_for] that started its clock at [start] ends. *)
Definition wait_for_end (start timeout interval : Q) (o : outcome bool)
    (tail : list (event bool)) : Prop :=
  match o with
  | Ret true => tail = [EvCall (Ret true)]
  | Ret false =>
    exists t, (timeout < t - start)%Q /\ tail = [EvCall (Ret false); EvTime t]
  | Raise e =>
    tail = [EvCall (Raise e)] \/
    (exists t, (t - start <= timeout)%Q /\ (interval < 0)%Q /\
               tail = [EvCall (Ret false); EvTime t])
  end.

(** One unsuccessful turn of the [wait_to_be_set] loop: the clock is read,
    the loop sleeps, the condition gives nothing. *)
Definition set_round {V : Type} (interval t : Q) : list (event (option V)) :=
  [EvTime t; EvSleep interval; EvCall (Ret None)].

(** How a run of [wait_to_be_set] ends when its first evaluation gave
    nothing and its clock started at [start]. *)
Definition wait_to_be_set_end {V : Type} (start timeout interval : Q)
    (o : outcome (option V)) (tail : list (event (option V))) : Prop :=
  match o with
  | Ret (Some v) =>
    exists t, (t - start <= timeout)%Q /\
              tail = [EvTime t; EvSleep interval; EvCall (Ret (Some v))]
  | Ret None => exists t, (timeout < t - start)%Q /\ tail = [EvTime t]
  | Raise e =>
    exists t, (t - start <= timeout)%Q /\
              (((interval < 0)%Q /\ tail = [EvTime t]) \/
               tail = [EvTime t; EvSleep interval; EvCall (Raise e)])
  end.

(** ** Concrete runs *)

(** A condition that answers its [n]-th call with the [n]-th entry of a
    script (and with [default] past its end); its state is the number of
    calls made. *)
Definition scripted {R : Type} (default : R) (script : list R) (n : nat)
    : outcome R * nat :=
  (Ret (nth n script default), Datatypes.S n).

(** A clock that advances by [step] between two readings. *)
Definition tick_clock (step : Q) (k : nat) : Q :=
  (inject_Z (Z.of_nat k) * step)%Q.

(** A clock whose first two readings coincide: the second [time.time()]
    falls into the same tick as the first. *)
Definition coarse_clock (k : nat) : Q := if k <? 2 then 0%Q else 1%Q.

Definition fresh {R : Type} : pstate nat R := mkPState 0 0 [].

(** "A zero-timeout call performs exactly one evaluation", for every
    condition, clock and interval. *)
Definition zero_timeout_evaluates_once : Prop :=
  forall (S V : Type) (clock : nat -> Q)
         (condition : S -> outcome (option V) * S) (fuel : nat) (interval : Q)
         (st st' : pstate S (option V)) (o : outcome (option V)),
    wait_to_be_set clock condition fuel 0 interval st = Some (o, st') ->
    evaluations (trace st') = evaluations (trace st) + 1.

(** ** Vocabulary for the locator *)

(** In a log, no frame is captured before a reference image has been
    loaded. *)
Fixpoint load_precedes_capture (log : list screen_event) : bool :=
  match log with
  | [] => true
  | EvImread _ :: _ => true
  | EvScreenshot _ :: _ => false
  | EvMatchTemplate :: log' => load_precedes_capture log'
  end.

Definition is_precondition_violation (e : exn) : bool :=
  match e with AssertionError _ => true | _ => false end.

(** Two results of a wait that differ at most in the text of the
    [TimeoutError] they raise. *)
Definition same_up_to_message {A St : Type}
    (r1 r2 : option (outcome A * St)) : Prop :=
  match r1, r2 with
  | None, None => True
  | Some (o1, s1), Some (o2, s2) =>
    s1 = s2 /\
    (o1 = o2 \/
     exists m1 m2, o1 = Raise (TimeoutError m1) /\ o2 = Raise (TimeoutError m2))
  | _, _ => False
  end.

(** A screen on which a 6 by 4 reference image, readable at [ref.png] and
    nowhere else, correlates best at [(10, 20)] with score 0.995. *)
Definition demo_capture (k : nat) (frame : option Frame) : outcome ndarray :=
  Ret (Color 100 200 3 []).

(** A screen whose server sends too few bytes for the frame. *)
Definition short_capture (k : nat) (frame : option Frame) : outcome ndarray :=
  Raise (ValueError "not enough image data").

Definition demo_imread (path : string) : option ndarray :=
  if String.eqb path "ref.png" then Some (Color 4 6 3 []) else None.

Definition demo_matchTemplate (shot template : ndarray)
    : outcome (Q * (nat * nat)) :=
  Ret ((995 # 1000)%Q, (10, 20)).

Definition demo_minMaxLoc (m : Q * (nat * nat)) : Q * (nat * nat) := m.

(** A printer for whole numbers of seconds. *)
Definition demo_str_of_num (q : Q) : string := str_of_int (Qnum q / Zpos (Qden q)).

Definition blank_screen : screen_state := mkScreen 0 [].

(** ** Vocabulary for the image pipeline *)



(** The grey level OpenCV gives an 8-bit BGR pixel. *)
Definition demo_gray_of (p : list Z) : Z :=
  match p with
  | [b; g; r] => ((b * 1868 + g * 9617 + r * 4899 + 8192) / 16384)%Z
  | _ => 0%Z
  end.


Definition any_color_spec : OCR_SPEC :=
  mkSpec SINGLE_LINE [0; 0; 0]%Z [255; 255; 255]%Z.

(** A one-pixel image with four channels (BGRA): an array of three
    dimensions that is not a BGR image. *)
Definition one_pixel_bgra : ndarray := Color 1 1 4 [[[10; 20; 30; 255]%Z]].

(** A custom preparation step that thresholds the first channel. *)
Definition first_channel_bw (img : ndarray) : outcome ndarray :=
  match img with
  | Color h w _ px =>
    Ret (Gray h w (map (map (fun p => if (hd 0%Z p <? 128)%Z
                                      then 0%Z else 255%Z)) px))
  | _ => Raise (ValueError "not a colour image")
  end.

(** ** Vocabulary and instances for the command runner and the registry *)

(** The two debug records of a blocking run that exits with [rc]. *)
Definition run_record (cmd : string) : log_record :=
  Debug ("Run command: " +:+ cmd).

Definition exit_record (cmd : string) (rc : Z) (captured : string) : log_record :=
  Debug (cmd +:+ " exited with " +:+ str_of_int rc +:+ ", err: " +:+ captured).

Definition demo_split (cmd : string) : outcome (list string) := Ret [cmd].

(** A tool that prints to both streams and exits with status 1. *)
Definition demo_Popen (argv : list string) : outcome Process :=
  Ret (mkProcess (Some 1%Z) "partial" "boom").

(** A tool that prints to its standard output only and exits with status 2. *)
Definition quiet_Popen (argv : list string) : outcome Process :=
  Ret (mkProcess (Some 2%Z) "usage" "").

(** In unique-display mode the registry holds at most one handle. *)
Definition unique_display_inv (r : registry) : Prop :=
  uniqueDisplay r = true -> size (instances r) <= 1.

(** ** Vocabulary for the resolution step *)

(** The rows of an array of shape [(h, w)]. *)
Definition wf_gray (h w : nat) (px : list (list Z)) : Prop :=
  length px = h /\ Forall (fun row => length row = w) px.

(** The pixel in row [i] and column [j]. *)
Definition pixel (px : list (list Z)) (i j : nat) : option Z :=
  match px !! i with
  | Some row => row !! j
  | None => None
  end.

Definition nonwhite (px : list (list Z)) (i j : nat) : Prop :=
  exists x, pixel px i j = Some x /\ x <> 255%Z.

(** Rows [r0..r1] and columns [c0..c1] are the bounding box of the pixels
    that are not white: every such pixel lies inside, and each of the four
    border lines of the box holds one. *)
Definition bounding_box (px : list (list Z)) (r0 r1 c0 c1 : nat) : Prop :=
  (forall i j, nonwhite px i j -> r0 <= i <= r1 /\ c0 <= j <= c1) /\
  (exists j, nonwhite px r0 j) /\ (exists j, nonwhite px r1 j) /\
  (exists i, nonwhite px i c0) /\ (exists i, nonwhite px i c1).

(** The test [np.where(m == False)] applies at index [i]. *)
Definition is_false_at (m : list bool) (i : nat) : bool :=
  match m !! i with Some false => true | _ => false end.

(** A 3 by 4 image whose only pixels that are not white are two in the
    middle row. *)
Definition framed_px : list (list Z) :=
  [[255; 255; 255; 255]; [255; 0; 7; 255]; [255; 255; 255; 255]]%Z.

(** A stand-in for the interpolation of [cv2.resize]: every pixel of the
    result is white. *)
Definition demo_resize (img : ndarray) (fx fy : Q) (i : interpolation)
    : list (list Z) :=
  match img with
  | Gray h w _ => replicate (resized h fy) (replicate (resized w fx) 255%Z)
  | _ => []
  end.

(** "Scaled by exactly 2.5": twice the new size is five times the old. *)
Definition scaled_exactly (old new : nat) : Prop := 2 * new = 5 * old.

(** "The resolution step scales both dimensions of the padded image by
    exactly 2.5", for every interpolation and every image. *)
Definition resize_scales_exactly : Prop :=
  forall (resize_px : ndarray -> Q -> Q -> interpolation -> list (list Z))
         (h w : nat) (px : list (list Z)) (out : ndarray),
    wf_gray h w px ->
    improve_resolution resize_px (Gray h w px) = Ret out ->
    exists h' w' cropped H W,
      crop_white_border (Gray h w px) = Gray h' w' cropped /\
      shape out = [H; W] /\
      scaled_exactly (padding + h' + padding) H /\
      scaled_exactly (padding + w' + padding) W.

(** A single black pixel. *)
Definition black_pixel : list (list Z) := [[0%Z]].

(** Unique-display mode is set, a display is registered, and a second
    display is asked for. *)
Definition demo_calls : list registry_call :=
  [CallConfig true;
   CallGetInstance (Some ":1") (Some 800%Z) (Some 600%Z);
   CallGetInstance (Some ":2") (Some 800%Z) (Some 600%Z)].

(** * The rest of the code *)

(** ** geometry.py: offsets, frames and relative frames *)

Record Offset : Type := mkOffset { offX : Z; offY : Z }.

(** A [Point] object as its constructor leaves it. *)
Definition valid_point (p : Point) : Prop := (0 <= X p)%Z /\ (0 <= Y p)%Z.

(** [Point.__add__] *)
Definition Point_add (p : Point) (offset : Offset) : outcome Point :=
  Point_init (X p + offX offset) (Y p + offY offset).

(** [Point.__eq__] *)
Definition Point_eq (p other : Point) : bool :=
  ((X p =? X other)%Z && (Y p =? Y other)%Z)%bool.

(** [Frame.get_top_left], [Frame.get_center], [Frame.get_bottom_right] *)
Definition get_top_left (f : Frame) : Point := corner f.

Definition get_center (f : Frame) : outcome Point :=
  Point_add (corner f) (mkOffset (width f / 2) (height f / 2)).

Definition get_bottom_right (f : Frame) : outcome Point :=
  Point_add (corner f) (mkOffset (width f) (height f)).

Record RelativeFrame : Type := mkRelativeFrame {
  offset : Offset;
  rel_width : Z;
  rel_height : Z
}.

(** [RelativeFrame.to_frame] *)
Definition to_frame (rf : RelativeFrame) (reference : Point) : outcome Frame :=
  match Point_add reference (offset rf) with
  | Ret p => Ret (mkFrame p (rel_width rf) (rel_height rf))
  | Raise e => Raise e
  end.

(** The offset that undoes [o]. *)
Definition opposite (o : Offset) : Offset := mkOffset (- offX o) (- offY o).

(** ** ocr.py: building a specification *)

Definition PSM_name (m : PSM) : string :=
  match m with
  | BLOCK_OF_TEXT => "BLOCK_OF_TEXT"
  | SINGLE_LINE => "SINGLE_LINE"
  | SINGLE_WORD => "SINGLE_WORD"
  | NUMBER => "NUMBER"
  end.

Definition PSM_members : list PSM :=
  [BLOCK_OF_TEXT; SINGLE_LINE; SINGLE_WORD; NUMBER].

(** [PSM._member_names_] *)
Definition PSM_member_names : list string := map PSM_name PSM_members.

(** [PSM[name]] for a name among the member names. *)
Definition PSM_getitem (name : string) : option PSM :=
  List.find (fun m => String.eqb (PSM_name m) name) PSM_members.

(** [PSM.from_string] *)
Definition PSM_from_string (type : string) : outcome PSM :=
  if bool_decide (type ∈ PSM_member_names) then
    match PSM_getitem type with
    | Some m => Ret m
    | None => Raise (ValueError ("Unknown type " +:+ type))
    end
  else Raise (ValueError ("Unknown type " +:+ type)).

(** The values a specification dictionary may hold. *)
Inductive pyval : Type :=
| PyStr (s : string)
| PyList (l : list Z)
| PyInt (z : Z)
| PyNone.

(** [str(v)] *)
Definition py_str (v : pyval) : string :=
  match v with
  | PyStr s => s
  | PyList l => "[" +:+ String.concat ", " (map str_of_int l) +:+ "]"
  | PyInt z => str_of_int z
  | PyNone => "None"
  end.

(** The three keys [from_dict] asks for. *)
Definition spec_keys : gset string := {["psm"; "lowerBound"; "upperBound"]}.

(** The check of [OCR_SPEC.__init__] on one bound handed over as a
    dictionary value. *)
Definition as_bound (v : pyval) : option (list Z) :=
  match v with
  | PyList l => if length l =? 3 then Some l else None
  | _ => None
  end.

(** [OCR_SPEC.from_dict]: the keys are compared first, then the mode is
    looked up, then the constructor checks the two bounds. *)
Definition OCR_SPEC_from_dict (d : gmap string pyval) : outcome OCR_SPEC :=
  if negb (bool_decide (dom d = spec_keys)) then Raise (AssertionError "")
  else
    match d !! "psm", d !! "lowerBound", d !! "upperBound" with
    | Some psm, Some lo, Some hi =>
      let mode :=
        match psm with
        | PyStr s => PSM_from_string s
        | _ => Raise (ValueError ("Unknown type " +:+ py_str psm))
        end in
      match mode with
      | Raise e => Raise e
      | Ret m =>
        match as_bound lo, as_bound hi with
        | Some l, Some u => OCR_SPEC_init m l u
        | _, _ => Raise (AssertionError "")
        end
      end
    | _, _, _ => Raise (AssertionError "")
    end.

(** The dictionary a specification is written as. *)
Definition spec_to_dict (s : OCR_SPEC) : gmap string pyval :=
  {[ "psm" := PyStr (PSM_name (type s));
     "lowerBound" := PyList (lowerBound s);
     "upperBound" := PyList (upperBound s) ]}.

(** ** utils.py: counting what a polling loop did *)

Definition is_sleep {R : Type} (e : event R) : bool :=
  match e with EvSleep _ => true | _ => false end.

Definition is_time {R : Type} (e : event R) : bool :=
  match e with EvTime _ => true | _ => false end.

(** Number of [time.sleep] calls and of [time.time()] readings in a trace. *)
Definition sleeps {R : Type} (evs : list (event R)) : nat :=
  length (List.filter is_sleep evs).

Definition clock_reads {R : Type} (evs : list (event R)) : nat :=
  length (List.filter is_time evs).

(** Every sleep of a trace lasts [interval]. *)
Definition sleeps_last {R : Type} (interval : Q) (evs : list (event R)) : Prop :=
  forall d, EvSleep d ∈ evs -> d = interval.

(** The evaluations and the sleeps of a trace, in order: the trace without
    its clock readings. *)
Definition without_clock {R : Type} (evs : list (event R)) : list (event R) :=
  List.filter (fun e => negb (is_time e)) evs.

(** Evaluations with the results [rs], with exactly one sleep of [d]
    between each two consecutive ones and no sleep before the first or
    after the last. *)
Fixpoint interleaved {R : Type} (d : Q) (rs : list (outcome R))
    : list (event R) :=
  match rs with
  | [] => []
  | r :: rs' =>
    match rs' with
    | [] => [EvCall r]
    | _ :: _ => EvCall r :: EvSleep d :: interleaved d rs'
    end
  end.

(** ** ocr.py: more vocabulary for the image steps *)

(** Rows [r0..r1] and columns [c0..c1] of an array. *)
Definition block (px : list (list Z)) (r0 r1 c0 c1 : nat) : list (list Z) :=
  map (fun row => take (c1 + 1 - c0) (drop c0 row))
      (take (r1 + 1 - r0) (drop r0 px)).

(** Every pixel is 0 or 255. *)
Definition binary_image (px : list (list Z)) : Prop :=
  forall row x, row ∈ px -> x ∈ row -> x = 0%Z \/ x = 255%Z.






(** ** __init__.py: more vocabulary for the registry *)

(** A handle is stored under the identifier of its own display, which
    starts with a colon, and its display has a positive size. *)
Definition handle_ok (i : string) (x : XControl) : Prop :=
  displayId (display x) = i /\ String.prefix ":" i = true /\
  (0 < display_width (display x))%Z /\ (0 < display_height (display x))%Z.

Definition handles_ok (r : registry) : Prop :=
  forall i x, instances r !! i = Some x -> handle_ok i x.

(** Two displays are registered and a third is asked for with a size that
    is not positive. *)
Definition two_displays : list registry_call :=
  [CallGetInstance (Some ":1") (Some 800%Z) (Some 600%Z);
   CallGetInstance (Some ":2") (Some 1024%Z) (Some 768%Z);
   CallConfig true;
   CallGetInstance (Some ":3") (Some 0%Z) (Some 600%Z)].

(** ** display.py: the display at run time *)

(** A [Display] object with the two attributes that the registry does not
    look at: the display of the host and the environment handed to the
    processes it spawns. *)
Record display_rt : Type := mkRt {
  rt_display : Display;
  main_display : string;
  env : gmap string string
}.

(** [Display.__init__], given [os.environ]. *)
Definition Display_start (environ : gmap string string) (id : string)
    (w h : option Z) : outcome display_rt :=
  match Display_init id w h with
  | Ret d => Ret (mkRt d (default ":0" (environ !! "DISPLAY"))
                       (<["DISPLAY" := id]> environ))
  | Raise e => Raise e
  end.

(** What a display asks of the operating system: a [run_command] call with
    the environment it passes and the records it logs, a [Popen] of its
    own (with an environment, or [None] for the inherited one), a pause. *)
Inductive display_event : Type :=
| EvRun (cmd : string) (waitFor : bool) (env : gmap string string)
        (log : list log_record)
| EvPopen (cmd : string) (env : option (gmap string string))
| EvPause (seconds : Q).

Record display_world : Type := mkWorld {
  spawned : nat;
  history : list display_event
}.

Section DisplayRuntime.
Variable shlex_split : string -> outcome (list string).
(** [spawn k env argv] is the process the [k]-th spawn request starts. *)
Variable spawn : nat -> option (gmap string string) -> list string
                 -> outcome Process.
(** [proc.wait()] without a timeout: [None] when the process never exits. *)
Variable wait_forever : Process -> option Z.

(** [Display.run_command] with the environment of the display. *)
Definition run_command_in (rt : display_rt) (cmd : string) (waitFor : bool)
    (wd : display_world) : outcome string * display_world :=
  let '(o, log) := run_command shlex_split
                     (spawn (spawned wd) (Some (env rt))) cmd waitFor in
  (o, mkWorld (Datatypes.S (spawned wd))
              (history wd ++ [EvRun cmd waitFor (env rt) log])).





End DisplayRuntime.

(** The environment of the display names the display itself. *)
Definition display_pinned (rt : display_rt) : Prop :=
  env rt !! "DISPLAY" = Some (displayId (rt_display rt)).




Definition missing_Popen (argv : list string) : outcome Process :=
  Raise (FileNotFoundError "xdotool").


(** A display [:1] started in an environment that names the host display,
    and a caller who asks for another display and a locale. *)
Definition demo_rt : display_rt :=
  mkRt (mkDisplay ":1" 800 600 "Xephyr-Window-:1") ":0"
       (<["DISPLAY" := ":1"]> {[ "HOME" := "/root" ]}).


Definition empty_world : display_world := mkWorld 0 [].

(** ** display.py: capturing the screen *)




Section Capture.
(** The [data] of [root.get_image(x, y, w, h, ZPixmap, 0xFFFFFFFF)]. *)
Variable get_image : Z -> Z -> Z -> Z -> outcome (list Z).
(** [datetime.now().strftime("%H-%M-%S-%f")], [os.path.join],
    [cv2.imwrite] and the text of a frame in a log message. *)
Variable timestamp : string.
Variable path_join : string -> string -> string.
Variable imwrite : string -> ndarray -> bool.
Variable repr_frame : Frame -> string.


End Capture.






(** ** __init__.py: text from a frame of the screen *)

Section Facade.
Variable get_image : Z -> Z -> Z -> Z -> outcome (list Z).
Variable timestamp : string.
Variable path_join : string -> string -> string.
Variable imwrite : string -> ndarray -> bool.
Variable repr_frame : Frame -> string.
Variable gray_of : list Z -> Z.
Variable resize_px : ndarray -> Q -> Q -> interpolation -> list (list Z).
Variable cv2_erode cv2_dilate : ndarray -> ndarray -> nat -> ndarray.
Variable cv2_GaussianBlur : ndarray -> nat * nat -> Q -> ndarray.
Variable image_to_string : ndarray -> string -> string.
Variable re_sub : string -> string -> string -> string.
Variable str_strip : string -> string.


End Facade.

(** ** screen.py: the mouse *)

(** [s.split(sep)] for a separator of one character: the pieces between
    the occurrences of [sep], empty pieces included; never an empty list. *)
Fixpoint py_split (sep : Ascii.ascii) (s : string) : list string :=
  match s with
  | EmptyString => [EmptyString]
  | String c s' =>
    if Ascii.eqb c sep then EmptyString :: py_split sep s'
    else match py_split sep s' with
         | piece :: pieces => String c piece :: pieces
         | [] => [String c EmptyString]
         end
  end.

Definition space : Ascii.ascii := Ascii.ascii_of_nat 32.
Definition colon : Ascii.ascii := Ascii.ascii_of_nat 58.

(** [out.split(" ")[k].split(":")[1]] *)
Definition location_field (k : nat) (out : string) : outcome string :=
  match py_split space out !! k with
  | None => Raise (IndexError "list index out of range")
  | Some token =>
    match py_split colon token !! 1 with
    | None => Raise (IndexError "list index out of range")
    | Some value => Ret value
    end
  end.

(** The characters of a string. *)
Definition chars (s : string) : list Ascii.ascii := String.list_ascii_of_string s.

(** A piece of text without a space and without a colon. *)
Definition plain (s : string) : Prop :=
  (space ∉ chars s) /\ (colon ∉ chars s).

Inductive Click : Type := LEFT | MIDDLE | RIGHT | SCROLL_UP | SCROLL_DOWN.

Definition Click_value (c : Click) : Z :=
  match c with
  | LEFT => 1 | MIDDLE => 2 | RIGHT => 3 | SCROLL_UP => 4 | SCROLL_DOWN => 5
  end%Z.

(** [Point.__repr__] *)
Definition Point_repr (p : Point) : string :=
  "Point(" +:+ str_of_int (X p) +:+ ", " +:+ str_of_int (Y p) +:+ ")".

Section Mouse.
Variable shlex_split : string -> outcome (list string).
Variable spawn : nat -> option (gmap string string) -> list string
                 -> outcome Process.
(** [int(s)] *)
Variable py_int : string -> outcome Z.
Variable clock : nat -> Q.

(** The parsing part of [Screen.get_mouse_position]: [x] is read and
    converted before [y] is looked at. *)
Definition parse_location (out : string) : outcome Point :=
  match location_field 0 out with
  | Raise e => Raise e
  | Ret xs =>
    match py_int xs with
    | Raise e => Raise e
    | Ret x =>
      match location_field 1 out with
      | Raise e => Raise e
      | Ret ys =>
        match py_int ys with
        | Raise e => Raise e
        | Ret y => Point_init x y
        end
      end
    end
  end.

(** [Screen.get_mouse_position] *)
Definition get_mouse_position (rt : display_rt) (wd : display_world)
    : outcome Point * display_world :=
  match run_command_in shlex_split spawn rt "xdotool getmouselocation" true wd with
  | (Raise e, wd1) => (Raise e, wd1)
  | (Ret out, wd1) => (parse_location out, wd1)
  end.

(** [Display.activate_window] *)
Definition activate_window (rt : display_rt) (wd : display_world)
    : outcome string * display_world :=
  run_command_in shlex_split spawn rt
    ("xdotool search --name " +:+ title (rt_display rt) +:+ " windowactivate")
    true wd.

(** The [lambda: self.get_mouse_position() == point] of the mouse
    functions. *)
Definition mouse_at (rt : display_rt) (point : Point) (wd : display_world)
    : outcome bool * display_world :=
  match get_mouse_position rt wd with
  | (Ret p, wd1) => (Ret (Point_eq p point), wd1)
  | (Raise e, wd1) => (Raise e, wd1)
  end.

(** A command sent through the activated window, then the wait for the
    mouse to be at [point]: the pattern of [mouse_move] and of each half of
    [mouse_drag]. *)
Definition send_and_wait (rt : display_rt) (cmd : string) (point : Point)
    (fuel : nat) (ps : pstate display_world bool)
    : option (outcome unit * pstate display_world bool) :=
  match activate_window rt (user ps) with
  | (Raise e, wd1) => Some (Raise e, mkPState wd1 (reads ps) (trace ps))
  | (Ret _, wd1) =>
    match run_command_in shlex_split spawn rt cmd true wd1 with
    | (Raise e, wd2) => Some (Raise e, mkPState wd2 (reads ps) (trace ps))
    | (Ret _, wd2) =>
      match wait_for clock (mouse_at rt point) fuel 1 default_interval
              (mkPState wd2 (reads ps) (trace ps)) with
      | None => None
      | Some (Raise e, ps') => Some (Raise e, ps')
      | Some (Ret true, ps') => Some (Ret tt, ps')
      | Some (Ret false, ps') =>
        Some (Raise (TimeoutError ("Mouse did not move to " +:+ Point_repr point
                                     +:+ " in 1 second")), ps')
      end
    end
  end.

(** [Screen.mouse_move] *)
Definition mouse_move (rt : display_rt) (point : Point) (click : option Click)
    (fuel : nat) (ps : pstate display_world bool)
    : option (outcome unit * pstate display_world bool) :=
  let cmd := "xdotool mousemove " +:+ str_of_int (X point) +:+ " "
               +:+ str_of_int (Y point) +:+ " " in
  let cmd :=
    match click with
    | Some c => cmd +:+ "click --delay 50 " +:+ str_of_int (Click_value c) +:+ " "
    | None => cmd
    end in
  send_and_wait rt cmd point fuel ps.

(** [Screen.mouse_drag] *)
Definition mouse_drag (rt : display_rt) (start end_ : Point) (click : Click)
    (fuel : nat) (ps : pstate display_world bool)
    : option (outcome unit * pstate display_world bool) :=
  let down := "xdotool mousedown " +:+ str_of_int (X start) +:+ " "
                +:+ str_of_int (Y start) +:+ " "
                +:+ str_of_int (Click_value click) +:+ " " in
  let up := "xdotool mouseup " +:+ str_of_int (X end_) +:+ " "
              +:+ str_of_int (Y end_) +:+ " "
              +:+ str_of_int (Click_value click) +:+ " " in
  match send_and_wait rt down start fuel ps with
  | None => None
  | Some (Raise e, ps1) => Some (Raise e, ps1)
  | Some (Ret _, ps1) => send_and_wait rt up end_ fuel ps1
  end.

End Mouse.

(** The commands that went through [run_command], oldest first. *)
Definition commands (evs : list display_event) : list string :=
  omap (fun e => match e with EvRun cmd _ _ _ => Some cmd | _ => None end) evs.

(** An [int] for the witnesses: decimal numerals, with [ValueError] for
    anything else. *)
Definition demo_int (s : string) : outcome Z :=
  match DecimalString.NilZero.int_of_string s with
  | Some d => Ret (Z.of_int d)
  | None => Raise (ValueError "invalid literal for int()")
  end.

(** A display on which every command succeeds and xdotool reports the
    mouse at (12, 34), and one on which xdotool prints nothing. *)
Definition mouse_spawn (k : nat) (e : option (gmap string string))
    (argv : list string) : outcome Process :=
  Ret (mkProcess (Some 0%Z) "x:12 y:34 screen:0 window:99" "").

Definition silent_spawn (k : nat) (e : option (gmap string string))
    (argv : list string) : outcome Process :=
  Ret (mkProcess (Some 1%Z) "" "").

Definition start_state : pstate display_world bool :=
  mkPState empty_world 0 [].
(** * Properties *)

(** ** The embedding on small inputs *)

Example wait_for_first_try :
  wait_for (tick_clock (1 # 10)) (scripted true []) 3 0 (1 # 10) fresh
  = Some (Ret true,
          mkPState 1 1 [EvTime (tick_clock (1 # 10) 0); EvCall (Ret true)]).
Proof. reflexivity. Qed.

Example wait_for_gives_up :
  match wait_for (tick_clock (1 # 2)) (scripted false []) 9 1 (1 # 10) fresh with
  | Some (Ret false, st) => evaluations (trace st) = 3
  | _ => False
  end.
Proof. vm_compute. reflexivity. Qed.

Example wait_to_be_set_third_try :
  match wait_to_be_set (tick_clock (1 # 10))
          (scripted None [None; None; Some 7%Z; Some 8%Z]) 9 1 (1 # 10) fresh with
  | Some (Ret (Some v), st) => v = 7%Z /\ evaluations (trace st) = 3
  | _ => False
  end.
Proof. vm_compute. split; reflexivity. Qed.

Example locate_hit :
  fst (locate_on_screen demo_capture demo_imread _ demo_matchTemplate
         demo_minMaxLoc "ref.png" None (7 # 10)%Q blank_screen)
  = Ret (Some (mkPoint 13 22)).
Proof. reflexivity. Qed.

Example binarize_two_pixels :
  convert_to_bw demo_gray_of
    (Color 1 2 3 [[[0; 0; 0]; [200; 200; 200]]]%Z)
    (mkSpec SINGLE_WORD [0; 0; 0]%Z [50; 50; 50]%Z)
  = Ret (Gray 1 2 [[0; 255]]%Z).
Proof. reflexivity. Qed.

Example binarize_grayscale_refused :
  convert_to_bw demo_gray_of (Gray 1 1 [[0%Z]]) any_color_spec
  = Raise (AssertionError "Image must be BGR").
Proof. reflexivity. Qed.

Example crop_framed :
  crop_white_border (Gray 3 4 framed_px) = Gray 1 2 [[0; 7]]%Z.
Proof. reflexivity. Qed.

Example improve_framed_shape :
  match improve_resolution demo_resize (Gray 3 4 framed_px) with
  | Ret img => shape img = [78; 80]
  | Raise _ => False
  end.
Proof. reflexivity. Qed.

Example run_command_no_wait :
  run_command demo_split demo_Popen "tool" false
  = (Ret "", [run_record "tool"]).
Proof. reflexivity. Qed.

Example decode_rejects_stray_byte :
  valid_utf8 "abc" = true /\
  utf8_ok [0xE2; 0x82; 0xAC]%N = true /\ utf8_ok [0xC0; 0x80]%N = false.
Proof. repeat split. Qed.

Example registry_second_display_refused :
  size (instances (run_calls demo_calls initial_registry)) = 1.
Proof. vm_compute. reflexivity. Qed.

(** ** Comparisons *)

Lemma Qgtb_true (x y : Q) : Qgtb x y = true <-> (y < x)%Q.
Proof.
  unfold Qgtb. rewrite negb_true_iff. split.
  - intros H. apply Qnot_le_lt. intros Hle.
    apply Qle_bool_iff in Hle. congruence.
  - intros H. destruct (Qle_bool x y) eqn:E; [|reflexivity].
    apply Qle_bool_iff in E. exfalso. exact (Qlt_not_le _ _ H E).
Qed.

Lemma Qgtb_false (x y : Q) : Qgtb x y = false <-> (x <= y)%Q.
Proof.
  unfold Qgtb. rewrite negb_false_iff. apply Qle_bool_iff.
Qed.

(** ** utils.py: [wait_for] *)

Section WaitForFacts.
Context {S : Type}.
Variable clock : nat -> Q.
Variable condition : S -> outcome bool * S.

Lemma wait_for_loop_trace fuel start timeout interval :
  forall (st st' : pstate S bool) o,
    wait_for_loop clock condition fuel start timeout interval st = Some (o, st') ->
    exists ts tail,
      Forall (fun t => (t - start <= timeout)%Q) ts /\
      trace st' = trace st ++ flat_map (wait_for_round interval) ts ++ tail /\
      wait_for_end start timeout interval o tail.
Proof.
  induction fuel as [|fuel IH]; intros st st' o H; [discriminate|].
  cbn [wait_for_loop] in H. unfold call in H.
  destruct (condition (user st)) as [[[|]|e] u] eqn:Ec.
  - inversion H; subst; clear H. exists [], [EvCall (Ret true)].
    split; [constructor|]. split; [reflexivity|]. reflexivity.
  - cbn [time_time reads user trace] in H.
    destruct (Qgtb (clock (reads st) - start) timeout) eqn:Eg.
    + inversion H; subst; clear H.
      exists [], [EvCall (Ret false); EvTime (clock (reads st))].
      split; [constructor|]. cbn [trace flat_map app].
      split; [by rewrite <- app_assoc|].
      eexists. split; [by apply Qgtb_true|reflexivity].
    + unfold time_sleep in H. destruct (Qgtb 0 interval) eqn:Ei.
      * inversion H; subst; clear H.
        exists [], [EvCall (Ret false); EvTime (clock (reads st))].
        split; [constructor|]. cbn [trace flat_map app].
        split; [by rewrite <- app_assoc|].
        right. eexists. split; [by apply Qgtb_false|].
        split; [by apply Qgtb_true|reflexivity].
      * apply IH in H as (ts & tail & Hts & Htr & Hend).
        exists (clock (reads st) :: ts), tail.
        split; [constructor; [by apply Qgtb_false|assumption]|].
        split; [|assumption].
        rewrite Htr. cbn [trace flat_map wait_for_round app].
        by rewrite <- !app_assoc.
  - inversion H; subst; clear H. exists [], [EvCall (Raise e)].
    split; [constructor|]. split; [reflexivity|]. by left.
Qed.

Lemma wait_for_loop_total fuel start timeout interval :
  forall k (st : pstate S bool),
    k < fuel ->
    Qgtb (clock (reads st + k) - start) timeout = true ->
    wait_for_loop clock condition fuel start timeout interval st <> None.
Proof.
  induction fuel as [|fuel IH]; intros k st Hk Hex; [lia|].
  cbn [wait_for_loop]. unfold call.
  destruct (condition (user st)) as [[[|]|e] u] eqn:Ec; try discriminate.
  cbn [time_time reads user trace].
  destruct (Qgtb (clock (reads st) - start) timeout) eqn:Eg; [discriminate|].
  unfold time_sleep. destruct (Qgtb 0 interval); [discriminate|].
  destruct k as [|k].
  - rewrite Nat.add_0_r in Hex. congruence.
  - apply (IH k); [lia|]. cbn [reads].
    by replace (Datatypes.S (reads st) + k) with (reads st + Datatypes.S k) by lia.
Qed.

Lemma wait_for_trace fuel timeout interval :
  forall (st st' : pstate S bool) o,
    wait_for clock condition fuel timeout interval st = Some (o, st') ->
    let start := clock (reads st) in
    exists ts tail,
      Forall (fun t => (t - start <= timeout)%Q) ts /\
      trace st' = trace st ++ EvTime start
                    :: flat_map (wait_for_round interval) ts ++ tail /\
      wait_for_end start timeout interval o tail.
Proof.
  intros st st' o H start. unfold wait_for in H. cbn [time_time] in H.
  apply wait_for_loop_trace in H as (ts & tail & Hts & Htr & Hend).
  exists ts, tail. split; [assumption|]. split; [|assumption].
  rewrite Htr. cbn [trace]. by rewrite <- app_assoc.
Qed.

End WaitForFacts.

(** ** utils.py: [wait_to_be_set] *)

Section WaitToBeSetFacts.
Context {S V : Type}.
Variable clock : nat -> Q.
Variable condition : S -> outcome (option V) * S.

Lemma wait_to_be_set_loop_Some fuel start timeout interval v
    (st : pstate S (option V)) :
  wait_to_be_set_loop clock condition fuel start timeout interval (Some v) st
  = Some (Ret (Some v), st).
Proof. destruct fuel; reflexivity. Qed.

Lemma wait_to_be_set_loop_trace fuel start timeout interval :
  forall (st st' : pstate S (option V)) o,
    wait_to_be_set_loop clock condition fuel start timeout interval None st
    = Some (o, st') ->
    exists ts tail,
      Forall (fun t => (t - start <= timeout)%Q) ts /\
      trace st' = trace st ++ flat_map (set_round interval) ts ++ tail /\
      wait_to_be_set_end start timeout interval o tail.
Proof.
  induction fuel as [|fuel IH]; intros st st' o H.
  - cbn [wait_to_be_set_loop time_time reads user trace] in H.
    destruct (Qgtb (clock (reads st) - start) timeout) eqn:Eg; [|discriminate].
    inversion H; subst; clear H. exists [], [EvTime (clock (reads st))].
    split; [constructor|]. split; [reflexivity|].
    eexists. split; [by apply Qgtb_true|reflexivity].
  - cbn [wait_to_be_set_loop time_time reads user trace] in H.
    destruct (Qgtb (clock (reads st) - start) timeout) eqn:Eg.
    { inversion H; subst; clear H. exists [], [EvTime (clock (reads st))].
      split; [constructor|]. split; [reflexivity|].
      eexists. split; [by apply Qgtb_true|reflexivity]. }
    apply Qgtb_false in Eg.
    unfold time_sleep in H. destruct (Qgtb 0 interval) eqn:Ei.
    { inversion H; subst; clear H. exists [], [EvTime (clock (reads st))].
      split; [constructor|]. split; [reflexivity|].
      eexists. split; [eassumption|]. left. split; [by apply Qgtb_true|reflexivity]. }
    unfold call in H. cbn [user reads trace] in H.
    destruct (condition (user st)) as [[[v|]|e] u] eqn:Ec.
    + rewrite wait_to_be_set_loop_Some in H. inversion H; subst; clear H.
      exists [], [EvTime (clock (reads st)); EvSleep interval; EvCall (Ret (Some v))].
      split; [constructor|]. cbn [trace flat_map app].
      split; [by rewrite <- !app_assoc|].
      eexists. split; [eassumption|reflexivity].
    + apply IH in H as (ts & tail & Hts & Htr & Hend).
      exists (clock (reads st) :: ts), tail.
      split; [by constructor|]. split; [|assumption].
      rewrite Htr. cbn [trace flat_map set_round app].
      by rewrite <- !app_assoc.
    + inversion H; subst; clear H.
      exists [], [EvTime (clock (reads st)); EvSleep interval; EvCall (Raise e)].
      split; [constructor|]. cbn [trace flat_map app].
      split; [by rewrite <- !app_assoc|].
      eexists. split; [eassumption|]. by right.
Qed.

Lemma wait_to_be_set_loop_total fuel start timeout interval :
  forall k result (st : pstate S (option V)),
    k <= fuel ->
    Qgtb (clock (reads st + k) - start) timeout = true ->
    wait_to_be_set_loop clock condition fuel start timeout interval result st
    <> None.
Proof.
  induction fuel as [|fuel IH]; intros k [v|] st Hk Hex;
    try (rewrite wait_to_be_set_loop_Some; discriminate).
  - assert (k = 0) as -> by lia. rewrite Nat.add_0_r in Hex.
    cbn [wait_to_be_set_loop time_time reads user trace]. by rewrite Hex.
  - cbn [wait_to_be_set_loop time_time reads user trace].
    destruct (Qgtb (clock (reads st) - start) timeout) eqn:Eg; [discriminate|].
    unfold time_sleep. destruct (Qgtb 0 interval); [discriminate|].
    unfold call. cbn [user reads trace].
    destruct (condition (user st)) as [[r|e] u]; [|discriminate].
    destruct k as [|k]; [rewrite Nat.add_0_r in Hex; congruence|].
    apply (IH k); [lia|]. cbn [reads].
    by replace (Datatypes.S (reads st) + k) with (reads st + Datatypes.S k) by lia.
Qed.

Lemma wait_to_be_set_trace fuel timeout interval :
  forall (st st' : pstate S (option V)) o,
    wait_to_be_set clock condition fuel timeout interval st = Some (o, st') ->
    let start := clock (reads st) in
    (exists e, o = Raise e /\ trace st' = trace st ++ [EvCall (Raise e)]) \/
    (exists v, o = Ret (Some v) /\
               trace st' = trace st ++ [EvCall (Ret (Some v)); EvTime start]) \/
    (exists ts tail,
        Forall (fun t => (t - start <= timeout)%Q) ts /\
        trace st' = trace st ++ EvCall (Ret None) :: EvTime start
                      :: flat_map (set_round interval) ts ++ tail /\
        wait_to_be_set_end start timeout interval o tail).
Proof.
  intros st st' o H start. unfold wait_to_be_set, call in H.
  destruct (condition (user st)) as [[[v|]|e] u] eqn:Ec;
    cbn [time_time reads user trace] in H.
  - rewrite wait_to_be_set_loop_Some in H. inversion H; subst; clear H.
    right; left. exists v. split; [reflexivity|].
    cbn [trace]. by rewrite <- app_assoc.
  - apply wait_to_be_set_loop_trace in H as (ts & tail & Hts & Htr & Hend).
    right; right. exists ts, tail. split; [assumption|]. split; [|assumption].
    rewrite Htr. cbn [trace]. by rewrite <- !app_assoc.
  - inversion H; subst; clear H. left. by exists e.
Qed.

End WaitToBeSetFacts.

Lemma evaluations_app {R : Type} (l l' : list (event R)) :
  evaluations (l ++ l') = evaluations l + evaluations l'.
Proof. unfold evaluations. by rewrite List.filter_app, length_app. Qed.

(** ** The polling primitives as the specification states them *)

(** C6. A run of [wait_for] reads the clock, then goes through turns in
    which the predicate is false and the elapsed time does not exceed the
    timeout; it returns true at the first evaluation that yields true,
    which is the last thing it does, and it returns false right after a
    clock reading that exceeds the timeout, with no evaluation after that
    reading and none that yielded true before. When the first evaluation
    yields true it returns true without sleeping, and it returns as soon as
    the clock passes the timeout. *)
Theorem wait_for_spec {S : Type} (clock : nat -> Q)
    (condition : S -> outcome bool * S) (timeout interval : Q)
    (st : pstate S bool) :
  let start := clock (reads st) in
  (forall fuel o st',
      wait_for clock condition fuel timeout interval st = Some (o, st') ->
      exists ts tail,
        Forall (fun t => (t - start <= timeout)%Q) ts /\
        trace st' = trace st ++ EvTime start
                      :: flat_map (wait_for_round interval) ts ++ tail /\
        wait_for_end start timeout interval o tail) /\
  (forall fuel u,
      0 < fuel -> condition (user st) = (Ret true, u) ->
      wait_for clock condition fuel timeout interval st
      = Some (Ret true,
              mkPState u (Datatypes.S (reads st))
                       (trace st ++ [EvTime start; EvCall (Ret true)]))) /\
  (forall k fuel,
      k < fuel ->
      (timeout < clock (Datatypes.S (reads st) + k)%nat - start)%Q ->
      exists r, wait_for clock condition fuel timeout interval st = Some r).
Proof.
  intros start. repeat split.
  - intros fuel o st' H. by apply wait_for_trace in H.
  - intros [|fuel] u Hf Hc; [lia|].
    unfold wait_for. cbn [time_time wait_for_loop]. unfold call.
    cbn [user reads trace]. rewrite Hc.
    by rewrite <- app_assoc.
  - intros k fuel Hk Hex. unfold wait_for. cbn [time_time].
    match goal with |- exists r, ?x = Some r =>
      destruct x as [r|] eqn:E; [by exists r|] end.
    exfalso. revert E. apply (wait_for_loop_total _ _ _ _ _ _ k); [assumption|].
    cbn [reads]. by apply Qgtb_true.
Qed.

Lemma wait_for_spec_witness :
  let clock := tick_clock (1 # 10) in
  (exists o st',
      wait_for clock (scripted false [false; false; true]) 5 1 (1 # 10) fresh
      = Some (o, st') /\
      exists ts tail,
        Forall (fun t => (t - clock 0%nat <= 1)%Q) ts /\
        trace st' = [] ++ EvTime (clock 0)
                      :: flat_map (wait_for_round (1 # 10)) ts ++ tail /\
        wait_for_end (clock 0) 1 (1 # 10) o tail) /\
  wait_for clock (scripted true []) 1 1 (1 # 10) fresh
  = Some (Ret true, mkPState 1 1 ([] ++ [EvTime (clock 0); EvCall (Ret true)])) /\
  (exists r, wait_for clock (scripted false []) 11 1 (1 # 10) fresh = Some r).
Proof.
  intros clock.
  pose proof (wait_for_spec clock (scripted false [false; false; true])
                1 (1 # 10) fresh) as (H1 & _ & _).
  pose proof (wait_for_spec clock (scripted true []) 1 (1 # 10) fresh)
    as (_ & H2 & _).
  pose proof (wait_for_spec clock (scripted false []) 1 (1 # 10) fresh)
    as (_ & _ & H3).
  split; [|split].
  - eexists; eexists. split; [vm_compute; reflexivity|].
    apply (H1 5). vm_compute. reflexivity.
  - apply (H2 1 1); [lia|reflexivity].
  - apply (H3 10 11); [lia|]. vm_compute. reflexivity.
Defined.

(** C5, as amended. A run of [wait_to_be_set] evaluates the producer once
    and only then reads the clock for the first time; it returns the first
    value that is not absent, whose evaluation is the last one made, and it
    returns absent right after a clock reading that exceeds the timeout,
    every evaluation made having yielded absent. The call makes exactly one
    evaluation when the first evaluation yields a value or the first check
    reads a clock that is already past the timeout, and it returns as soon
    as the clock passes the timeout. When the first evaluation yields
    absent and the first check does not find the timeout exceeded (with a
    zero timeout: it reads the instant the clock started at), the call
    sleeps one interval and evaluates the producer a second time, provided
    the interval is not negative; a negative interval makes the sleep raise
    [ValueError] after the one evaluation. *)
Theorem wait_to_be_set_spec {S V : Type} (clock : nat -> Q)
    (condition : S -> outcome (option V) * S) (timeout interval : Q)
    (st : pstate S (option V)) :
  let start := clock (reads st) in
  (forall fuel o st',
      wait_to_be_set clock condition fuel timeout interval st = Some (o, st') ->
      (exists e, o = Raise e /\ trace st' = trace st ++ [EvCall (Raise e)]) \/
      (exists v, o = Ret (Some v) /\
                 trace st' = trace st ++ [EvCall (Ret (Some v)); EvTime start]) \/
      (exists ts tail,
          Forall (fun t => (t - start <= timeout)%Q) ts /\
          trace st' = trace st ++ EvCall (Ret None) :: EvTime start
                        :: flat_map (set_round interval) ts ++ tail /\
          wait_to_be_set_end start timeout interval o tail)) /\
  (forall fuel r u,
      condition (user st) = (Ret r, u) ->
      r <> None \/ (timeout < clock (Datatypes.S (reads st)) - start)%Q ->
      exists st',
        wait_to_be_set clock condition fuel timeout interval st
        = Some (Ret r, st') /\
        evaluations (trace st') = evaluations (trace st) + 1) /\
  (forall k fuel,
      k <= fuel ->
      (timeout < clock (Datatypes.S (reads st) + k)%nat - start)%Q ->
      exists r, wait_to_be_set clock condition fuel timeout interval st = Some r) /\
  (forall fuel u r u',
      0 < fuel ->
      condition (user st) = (Ret None, u) ->
      (clock (Datatypes.S (reads st)) - start <= timeout)%Q ->
      (0 <= interval)%Q ->
      condition u = (r, u') ->
      (forall o st',
          wait_to_be_set clock condition fuel timeout interval st = Some (o, st') ->
          (exists rest,
              trace st' = trace st ++ [EvCall (Ret None); EvTime start;
                                       EvTime (clock (Datatypes.S (reads st)));
                                       EvSleep interval; EvCall r] ++ rest) /\
          evaluations (trace st) + 2 <= evaluations (trace st')) /\
      (forall v, r = Ret (Some v) ->
         exists st',
           wait_to_be_set clock condition fuel timeout interval st
           = Some (Ret (Some v), st') /\
           evaluations (trace st') = evaluations (trace st) + 2)) /\
  (forall fuel u,
      0 < fuel ->
      condition (user st) = (Ret None, u) ->
      (clock (Datatypes.S (reads st)) - start <= timeout)%Q ->
      (interval < 0)%Q ->
      exists st',
        wait_to_be_set clock condition fuel timeout interval st
        = Some (Raise (ValueError "sleep length must be non-negative"), st') /\
        evaluations (trace st') = evaluations (trace st) + 1).
Proof.
  intros start. split; [|split; [|split; [|split]]].
  - intros fuel o st' H. by apply wait_to_be_set_trace in H.
  - intros fuel r u Hc Hr. unfold wait_to_be_set, call. rewrite Hc.
    cbn [time_time reads user trace].
    destruct r as [v|].
    + rewrite wait_to_be_set_loop_Some. eexists. split; [reflexivity|].
      cbn [trace]. rewrite !evaluations_app. cbn. lia.
    + destruct Hr as [Hr|Hr]; [congruence|].
      apply Qgtb_true in Hr.
      destruct fuel; cbn [wait_to_be_set_loop time_time reads user trace];
        fold start; rewrite Hr; (eexists; split; [reflexivity|]);
        cbn [trace]; rewrite !evaluations_app; cbn; lia.
  - intros k fuel Hk Hex. unfold wait_to_be_set, call.
    destruct (condition (user st)) as [[r|e] u]; [|by eexists].
    cbn [time_time reads user trace].
    match goal with |- exists r, ?x = Some r =>
      destruct x as [r'|] eqn:E; [by exists r'|] end.
    exfalso. revert E.
    apply (wait_to_be_set_loop_total _ _ _ _ _ _ k); [assumption|].
    cbn [reads]. by apply Qgtb_true.
  - intros [|fuel] u r u' Hf Hc Hin Hi Hc2; [lia|].
    apply Qgtb_false in Hin.
    assert (Qgtb 0 interval = false) as Hi' by (by apply Qgtb_false).
    unfold wait_to_be_set, call. rewrite Hc.
    cbn [time_time reads user trace wait_to_be_set_loop]. fold start.
    rewrite Hin. unfold time_sleep. rewrite Hi'. unfold call.
    cbn [user reads trace]. rewrite Hc2.
    assert (forall l : list (event (option V)),
               ((trace st ++ [EvCall (Ret None)]) ++ [EvTime start])
                 ++ l
               = trace st ++ [EvCall (Ret None); EvTime start] ++ l) as Hassoc
      by (intros l; by rewrite <- !app_assoc).
    split.
    + intros o st' H. destruct r as [[v|]|e].
      * rewrite wait_to_be_set_loop_Some in H. inversion H; subst; clear H.
        cbn [trace]. split.
        -- exists []. by rewrite <- !app_assoc.
        -- rewrite !evaluations_app. cbn. lia.
      * apply wait_to_be_set_loop_trace in H as (ts & tail & _ & Htr & _).
        rewrite Htr. cbn [trace]. split.
        -- exists (flat_map (set_round interval) ts ++ tail).
           by rewrite <- !app_assoc.
        -- rewrite !evaluations_app. cbn. lia.
      * inversion H; subst; clear H. cbn [trace]. split.
        -- exists []. by rewrite <- !app_assoc.
        -- rewrite !evaluations_app. cbn. lia.
    + intros v ->. rewrite wait_to_be_set_loop_Some.
      eexists. split; [reflexivity|]. cbn [trace].
      rewrite !evaluations_app. cbn. lia.
  - intros [|fuel] u Hf Hc Hin Hi; [lia|].
    apply Qgtb_false in Hin. apply Qgtb_true in Hi.
    unfold wait_to_be_set, call. rewrite Hc.
    cbn [time_time reads user trace wait_to_be_set_loop]. fold start.
    rewrite Hin. unfold time_sleep. rewrite Hi.
    eexists. split; [reflexivity|]. cbn [trace].
    rewrite !evaluations_app. cbn. lia.
Qed.

Lemma wait_to_be_set_spec_witness :
  let clock := tick_clock (1 # 10) in
  (exists o st',
      wait_to_be_set clock (scripted None [None; None; Some 7%Z; Some 8%Z])
                     5 1 (1 # 10) fresh = Some (o, st') /\
      o = Ret (Some 7%Z) /\
      ((exists e, o = Raise e /\ trace st' = [] ++ [EvCall (Raise e)]) \/
       (exists v, o = Ret (Some v) /\
                  trace st' = [] ++ [EvCall (Ret (Some v)); EvTime (clock 0%nat)]) \/
       (exists ts tail,
           Forall (fun t => (t - clock 0%nat <= 1)%Q) ts /\
           trace st' = [] ++ EvCall (Ret None) :: EvTime (clock 0%nat)
                         :: flat_map (set_round (1 # 10)) ts ++ tail /\
           wait_to_be_set_end (clock 0%nat) 1 (1 # 10) o tail))) /\
  (exists st',
      wait_to_be_set clock (scripted (None : option Z) []) 0 0 (1 # 10) fresh
      = Some (Ret None, st') /\
      evaluations (trace st') = evaluations (@nil (event (option Z))) + 1) /\
  (exists r,
      wait_to_be_set clock (scripted (None : option Z) []) 10 1 (1 # 10) fresh
      = Some r) /\
  (exists st',
      wait_to_be_set coarse_clock (scripted None [None; Some 7%Z])
                     1 0 (1 # 10) fresh = Some (Ret (Some 7%Z), st') /\
      evaluations (trace st') = evaluations (@nil (event (option Z))) + 2) /\
  (exists st',
      wait_to_be_set coarse_clock (scripted (None : option Z) [])
                     1 0 (- (1 # 10)) fresh
      = Some (Raise (ValueError "sleep length must be non-negative"), st') /\
      evaluations (trace st') = evaluations (@nil (event (option Z))) + 1).
Proof.
  intros clock.
  pose proof (wait_to_be_set_spec clock
                (scripted None [None; None; Some 7%Z; Some 8%Z])
                1 (1 # 10) fresh) as (H1 & _ & _).
  pose proof (wait_to_be_set_spec clock (scripted (None : option Z) [])
                0 (1 # 10) fresh) as (_ & H2 & _).
  pose proof (wait_to_be_set_spec clock (scripted (None : option Z) [])
                1 (1 # 10) fresh) as (_ & _ & H3 & _).
  pose proof (wait_to_be_set_spec coarse_clock (scripted None [None; Some 7%Z])
                0 (1 # 10) fresh) as (_ & _ & _ & H4 & _).
  pose proof (wait_to_be_set_spec coarse_clock (scripted (None : option Z) [])
                0 (- (1 # 10)) fresh) as (_ & _ & _ & _ & H5).
  split; [|split; [|split; [|split]]].
  - eexists; eexists. split; [vm_compute; reflexivity|].
    split; [reflexivity|]. apply (H1 5). vm_compute. reflexivity.
  - apply (H2 0 None 1); [reflexivity|]. right. vm_compute. reflexivity.
  - apply (H3 10 10); [lia|]. vm_compute. reflexivity.
  - apply (H4 1 1 (Ret (Some 7%Z)) 2);
      [lia|reflexivity|vm_compute; congruence|vm_compute; congruence
       |reflexivity|reflexivity].
  - apply (H5 1 1); [lia|reflexivity|vm_compute; congruence|reflexivity].
Defined.

(** C5 as the specification words it fails: with a zero timeout, a producer
    that yields nothing and a clock whose first two readings coincide, the
    first check does not find the timeout exceeded, and the producer is
    evaluated a second time. *)
Lemma wait_to_be_set_zero_timeout_counterexample :
  (exists st',
      wait_to_be_set coarse_clock (scripted (None : option Z) [])
                     1 0 (1 # 10) fresh = Some (Ret None, st') /\
      evaluations (trace st') = 2) /\
  ~ zero_timeout_evaluates_once.
Proof.
  assert (exists st',
      wait_to_be_set coarse_clock (scripted (None : option Z) [])
                     1 0 (1 # 10) fresh = Some (Ret None, st') /\
      evaluations (trace st') = 2) as Hrun.
  { eexists. split; [vm_compute; reflexivity|]. reflexivity. }
  split; [exact Hrun|].
  intros Hclaim. destruct Hrun as (st' & Hrun & Hn).
  apply Hclaim in Hrun. rewrite Hn in Hrun. cbn in Hrun. lia.
Qed.

(** ** screen.py: the single-shot locator *)

Section LocateFacts.
Variable capture : nat -> option Frame -> outcome ndarray.
Variable imread : string -> option ndarray.
Variable Corr : Type.
Variable matchTemplate : ndarray -> ndarray -> outcome Corr.
Variable minMaxLoc : Corr -> Q * (nat * nat).

Lemma valid_confidence_iff (c : Q) :
  valid_confidence c = true <-> (0 <= c)%Q /\ (c <= 1)%Q.
Proof.
  unfold valid_confidence. rewrite andb_true_iff, !Qle_bool_iff. tauto.
Qed.

Lemma Point_init_nonneg (x y : Z) :
  (0 <= x)%Z -> (0 <= y)%Z -> Point_init x y = Ret (mkPoint x y).
Proof.
  intros Hx Hy. unfold Point_init.
  apply Z.leb_le in Hx, Hy. by rewrite Hx, Hy.
Qed.

(** C3. With a confidence in [0, 1], a captured frame, a readable
    reference image of width [w] and height [h] and a correlation map whose
    maximum [max_val] is at [max_loc], the locator returns the point
    [max_loc] shifted by [(w // 2, h // 2)] when [max_val > confidence] and
    reports absent, without raising, when [max_val <= confidence]. *)
Theorem locate_on_screen_spec (imagePath : string) (frame : option Frame)
    (confidence : Q) (st : screen_state) (shot template : ndarray)
    (h w c : nat) (m : Corr) (max_val : Q) (x y : nat) :
  (0 <= confidence)%Q -> (confidence <= 1)%Q ->
  capture (shots st) frame = Ret shot ->
  imread imagePath = Some template ->
  shape template = [h; w; c] ->
  matchTemplate shot template = Ret m ->
  minMaxLoc m = (max_val, (x, y)) ->
  let result :=
    fst (locate_on_screen capture imread Corr matchTemplate minMaxLoc
           imagePath frame confidence st) in
  ((confidence < max_val)%Q ->
   result = Ret (Some (mkPoint (Z.of_nat x + Z.of_nat w / 2)
                               (Z.of_nat y + Z.of_nat h / 2)))) /\
  ((max_val <= confidence)%Q -> result = Ret None) /\
  (forall p, result = Ret (Some p) -> (confidence < max_val)%Q).
Proof.
  intros H0 H1 Hshot Hread Hshape Hm Hmax result.
  assert (valid_confidence confidence = true) as Hv
    by (by apply valid_confidence_iff).
  assert (Hpt : Point_init (Z.of_nat x + Z.of_nat w / 2)
                           (Z.of_nat y + Z.of_nat h / 2)
                = Ret (mkPoint (Z.of_nat x + Z.of_nat w / 2)
                               (Z.of_nat y + Z.of_nat h / 2))).
  { apply Point_init_nonneg.
    - pose proof (Z.div_pos (Z.of_nat w) 2). lia.
    - pose proof (Z.div_pos (Z.of_nat h) 2). lia. }
  assert (Hres : result
                 = if Qgtb max_val confidence
                   then Ret (Some (mkPoint (Z.of_nat x + Z.of_nat w / 2)
                                           (Z.of_nat y + Z.of_nat h / 2)))
                   else Ret None).
  { subst result. unfold locate_on_screen, screenshot.
    rewrite Hv. cbn [negb]. rewrite Hshot, Hread, Hm, Hmax, Hshape.
    cbn [removelast fst snd]. rewrite Hpt.
    by destruct (Qgtb max_val confidence). }
  repeat split.
  - intros Hgt. apply Qgtb_true in Hgt. by rewrite Hres, Hgt.
  - intros Hle. apply Qgtb_false in Hle. by rewrite Hres, Hle.
  - intros p Hp. rewrite Hres in Hp.
    destruct (Qgtb max_val confidence) eqn:E; [by apply Qgtb_true|discriminate].
Qed.

(** C4, as amended. A confidence outside [0, 1] makes the locator raise an
    [AssertionError] with the screen untouched: nothing is captured and
    nothing is loaded. With a valid confidence the capture comes first.
    When the capture returns a frame and the reference image is unreadable,
    the locator raises [FileNotFoundError], which is not a precondition
    violation, after it has captured that one frame and then tried to load
    the image. When the capture itself raises, that exception comes out
    and the image is never loaded. *)
Theorem locate_on_screen_errors (imagePath : string) (frame : option Frame)
    (confidence : Q) (st : screen_state) :
  let run := locate_on_screen capture imread Corr matchTemplate minMaxLoc
               imagePath frame confidence st in
  (~ ((0 <= confidence)%Q /\ (confidence <= 1)%Q) ->
   exists msg, run = (Raise (AssertionError msg), st)) /\
  ((0 <= confidence)%Q /\ (confidence <= 1)%Q ->
   forall shot, capture (shots st) frame = Ret shot ->
   imread imagePath = None ->
   fst run = Raise (FileNotFoundError imagePath) /\
   is_precondition_violation (FileNotFoundError imagePath) = false /\
   shots (snd run) = Datatypes.S (shots st) /\
   screen_log (snd run)
   = screen_log st ++ [EvScreenshot frame; EvImread imagePath]) /\
  ((0 <= confidence)%Q /\ (confidence <= 1)%Q ->
   forall e, capture (shots st) frame = Raise e ->
   fst run = Raise e /\
   shots (snd run) = Datatypes.S (shots st) /\
   screen_log (snd run) = screen_log st ++ [EvScreenshot frame]).
Proof.
  intros run. subst run. split; [|split].
  - intros Hbad. unfold locate_on_screen.
    destruct (valid_confidence confidence) eqn:Ev.
    + apply valid_confidence_iff in Ev. contradiction.
    + cbn [negb]. by eexists.
  - intros Hok shot Hshot Hread. apply valid_confidence_iff in Hok.
    unfold locate_on_screen, screenshot, record_event.
    rewrite Hok, Hshot, Hread. cbn [negb fst snd shots screen_log].
    repeat split. by rewrite <- app_assoc.
  - intros Hok e He. apply valid_confidence_iff in Hok.
    unfold locate_on_screen, screenshot.
    rewrite Hok, He. cbn [negb fst snd shots screen_log].
    repeat split.
Qed.

End LocateFacts.

Lemma locate_on_screen_spec_witness :
  let locate := locate_on_screen demo_capture demo_imread _ demo_matchTemplate
                  demo_minMaxLoc "ref.png" None in
  fst (locate (99 # 100)%Q blank_screen) = Ret (Some (mkPoint (10 + 6 / 2) (20 + 4 / 2)))
  /\ fst (locate 1%Q blank_screen) = Ret None.
Proof.
  intros locate. split.
  - apply (locate_on_screen_spec demo_capture demo_imread _ demo_matchTemplate
             demo_minMaxLoc "ref.png" None (99 # 100)%Q blank_screen
             (Color 100 200 3 []) (Color 4 6 3 []) 4 6 3
             ((995 # 1000)%Q, (10, 20)) (995 # 1000)%Q 10 20);
      try reflexivity; vm_compute; congruence.
  - apply (locate_on_screen_spec demo_capture demo_imread _ demo_matchTemplate
             demo_minMaxLoc "ref.png" None 1%Q blank_screen
             (Color 100 200 3 []) (Color 4 6 3 []) 4 6 3
             ((995 # 1000)%Q, (10, 20)) (995 # 1000)%Q 10 20);
      try reflexivity; vm_compute; congruence.
Defined.

Lemma locate_on_screen_errors_witness :
  let locate := locate_on_screen demo_capture demo_imread _ demo_matchTemplate
                  demo_minMaxLoc in
  (exists msg, locate "ref.png" None (101 # 100)%Q blank_screen
               = (Raise (AssertionError msg), blank_screen)) /\
  (fst (locate "missing.png" None (7 # 10)%Q blank_screen)
   = Raise (FileNotFoundError "missing.png") /\
   is_precondition_violation (FileNotFoundError "missing.png") = false /\
   shots (snd (locate "missing.png" None (7 # 10)%Q blank_screen)) = 1 /\
   screen_log (snd (locate "missing.png" None (7 # 10)%Q blank_screen))
   = [] ++ [EvScreenshot None; EvImread "missing.png"]) /\
  (let short := locate_on_screen short_capture demo_imread _ demo_matchTemplate
                  demo_minMaxLoc "ref.png" None (7 # 10)%Q blank_screen in
   fst short = Raise (ValueError "not enough image data") /\
   shots (snd short) = 1 /\
   screen_log (snd short) = [] ++ [EvScreenshot None]).
Proof.
  intros locate. split; [|split].
  - apply (locate_on_screen_errors demo_capture demo_imread _ demo_matchTemplate
             demo_minMaxLoc "ref.png" None (101 # 100)%Q blank_screen).
    intros [_ H]. vm_compute in H. congruence.
  - apply (proj1 (proj2 (locate_on_screen_errors demo_capture demo_imread _
                           demo_matchTemplate demo_minMaxLoc "missing.png" None
                           (7 # 10)%Q blank_screen))
             ltac:(split; vm_compute; congruence) (Color 100 200 3 []));
      reflexivity.
  - apply (proj2 (proj2 (locate_on_screen_errors short_capture demo_imread _
                           demo_matchTemplate demo_minMaxLoc "ref.png" None
                           (7 # 10)%Q blank_screen))
             ltac:(split; vm_compute; congruence)).
    reflexivity.
Defined.

(** C4 as the specification words it fails: with an unreadable reference
    image the frame has already been captured when the load is tried. *)
Lemma locate_on_screen_load_order_counterexample :
  let run := locate_on_screen demo_capture demo_imread _ demo_matchTemplate
               demo_minMaxLoc "missing.png" None (7 # 10)%Q blank_screen in
  fst run = Raise (FileNotFoundError "missing.png") /\
  screen_log (snd run) = [EvScreenshot None; EvImread "missing.png"] /\
  load_precedes_capture (screen_log (snd run)) = false.
Proof. vm_compute. repeat split. Qed.

(** ** screen.py: waiting for an image *)

Section WaitImageFacts.
Variable capture : nat -> option Frame -> outcome ndarray.
Variable imread : string -> option ndarray.
Variable Corr : Type.
Variable matchTemplate : ndarray -> ndarray -> outcome Corr.
Variable minMaxLoc : Corr -> Q * (nat * nat).
Variable str_of_num : Q -> string.
Variable clock : nat -> Q.

Local Abbreviation appear :=
  (wait_for_image capture imread Corr matchTemplate minMaxLoc str_of_num clock).
Local Abbreviation disappear :=
  (wait_for_image_to_disappear capture imread Corr matchTemplate minMaxLoc
     str_of_num clock).

(** C10. Two calls of [wait_for_image], or of
    [wait_for_image_to_disappear], that differ only in their [timeout]
    argument leave the same state (the same evaluations, clock readings and
    sleeps) and have the same outcome, except that the [TimeoutError] they
    may raise carries a different text. Whatever [timeout] is, the loop is
    the polling loop with a budget of 1 and the default interval: a
    [TimeoutError] of the wait itself comes right after a clock reading
    more than 1 past the start. *)
Theorem wait_for_image_timeout_unused (fuel : nat) (imagePath : string)
    (frame : option Frame) (confidence t1 t2 : Q)
    (st : pstate screen_state (option Point)) (sb : pstate screen_state bool) :
  same_up_to_message (appear fuel imagePath frame confidence t1 st)
                     (appear fuel imagePath frame confidence t2 st) /\
  same_up_to_message (disappear fuel imagePath frame confidence t1 sb)
                     (disappear fuel imagePath frame confidence t2 sb) /\
  (forall o st',
      appear fuel imagePath frame confidence t1 st = Some (o, st') ->
      exists o',
        match o' with
        | Ret (Some p) => o = Ret p
        | Ret None =>
          o = Raise (TimeoutError ("Image " +:+ imagePath +:+ " not found in "
                                     +:+ str_of_num t1 +:+ " seconds"))
        | Raise e => o = Raise e
        end /\
        let start := clock (reads st) in
        ((exists e, o' = Raise e /\ trace st' = trace st ++ [EvCall (Raise e)]) \/
         (exists v, o' = Ret (Some v) /\
                    trace st' = trace st ++ [EvCall (Ret (Some v)); EvTime start]) \/
         (exists ts tail,
             Forall (fun t => (t - start <= 1)%Q) ts /\
             trace st' = trace st ++ EvCall (Ret None) :: EvTime start
                           :: flat_map (set_round default_interval) ts ++ tail /\
             wait_to_be_set_end start 1 default_interval o' tail))) /\
  (forall o sb',
      disappear fuel imagePath frame confidence t1 sb = Some (o, sb') ->
      exists o',
        match o' with
        | Ret true => o = Ret tt
        | Ret false =>
          o = Raise (TimeoutError ("Image " +:+ imagePath
                                     +:+ " did not disappear in "
                                     +:+ str_of_num t1 +:+ " seconds"))
        | Raise e => o = Raise e
        end /\
        let start := clock (reads sb) in
        exists ts tail,
          Forall (fun t => (t - start <= 1)%Q) ts /\
          trace sb' = trace sb ++ EvTime start
                        :: flat_map (wait_for_round default_interval) ts ++ tail /\
          wait_for_end start 1 default_interval o' tail).
Proof.
  repeat split.
  - unfold same_up_to_message, wait_for_image.
    destruct (wait_to_be_set _ _ _ _ _ _) as [[[[p|]|e] s']|]; eauto 8.
  - unfold same_up_to_message, wait_for_image_to_disappear.
    destruct (wait_for _ _ _ _ _ _) as [[[[|]|e] s']|]; eauto 8.
  - intros o st' H. unfold wait_for_image in H.
    destruct (wait_to_be_set _ _ _ _ _ _) as [[o' s']|] eqn:E; [|discriminate].
    pose proof (wait_to_be_set_trace _ _ _ _ _ _ _ _ E) as Htr.
    exists o'. destruct o' as [[p|]|e]; inversion H; subst; clear H;
      (split; [reflexivity|exact Htr]).
  - intros o sb' H. unfold wait_for_image_to_disappear in H.
    destruct (wait_for _ _ _ _ _ _) as [[o' s']|] eqn:E; [|discriminate].
    pose proof (wait_for_trace _ _ _ _ _ _ _ _ E) as Htr.
    exists o'. destruct o' as [[|]|e]; inversion H; subst; clear H;
      (split; [reflexivity|exact Htr]).
Qed.

End WaitImageFacts.

Lemma wait_for_image_timeout_unused_witness :
  let clock := tick_clock (1 # 2) in
  let appear := wait_for_image demo_capture demo_imread _ demo_matchTemplate
                  demo_minMaxLoc demo_str_of_num clock in
  let disappear := wait_for_image_to_disappear demo_capture demo_imread _
                     demo_matchTemplate demo_minMaxLoc demo_str_of_num clock in
  let st := mkPState blank_screen 0 [] in
  let sb := mkPState blank_screen 0 [] in
  same_up_to_message (appear 9 "ref.png" None 1%Q 5%Q st)
                     (appear 9 "ref.png" None 1%Q 30%Q st) /\
  same_up_to_message (disappear 9 "ref.png" None (99 # 100)%Q 5%Q sb)
                     (disappear 9 "ref.png" None (99 # 100)%Q 30%Q sb) /\
  (exists st',
      appear 9 "ref.png" None 1%Q 5%Q st
      = Some (Raise (TimeoutError "Image ref.png not found in 5 seconds"), st')
      /\ exists o' ts tail,
           Forall (fun t => (t - clock 0%nat <= 1)%Q) ts /\
           trace st' = [] ++ EvCall (Ret None) :: EvTime (clock 0%nat)
                         :: flat_map (set_round default_interval) ts ++ tail /\
           wait_to_be_set_end (clock 0%nat) 1 default_interval o' tail) /\
  (exists sb',
      disappear 9 "ref.png" None (99 # 100)%Q 5%Q sb
      = Some (Raise (TimeoutError "Image ref.png did not disappear in 5 seconds"),
              sb')
      /\ exists o' ts tail,
           Forall (fun t => (t - clock 0%nat <= 1)%Q) ts /\
           trace sb' = [] ++ EvTime (clock 0%nat)
                         :: flat_map (wait_for_round default_interval) ts ++ tail /\
           wait_for_end (clock 0%nat) 1 default_interval o' tail).
Proof.
  intros clock appear disappear st sb.
  pose proof (wait_for_image_timeout_unused demo_capture demo_imread _
                demo_matchTemplate demo_minMaxLoc demo_str_of_num clock
                9 "ref.png" None 1%Q 5%Q 30%Q st sb) as (H1 & _ & H3 & _).
  pose proof (wait_for_image_timeout_unused demo_capture demo_imread _
                demo_matchTemplate demo_minMaxLoc demo_str_of_num clock
                9 "ref.png" None (99 # 100)%Q 5%Q 30%Q st sb) as (_ & H2 & _ & H4).
  split; [exact H1|]. split; [exact H2|]. split.
  - eexists. split; [vm_compute; reflexivity|].
    edestruct H3 as (o' & _ & [(e & _ & Htr)|[(v & _ & Htr)|Htr]]);
      [vm_compute; reflexivity|discriminate Htr|discriminate Htr|].
    exists o'. exact Htr.
  - eexists. split; [vm_compute; reflexivity|].
    edestruct H4 as (o' & _ & Htr); [vm_compute; reflexivity|].
    exists o'. exact Htr.
Defined.

(** ** ocr.py: binarization *)


Lemma empty_image_false (h w : nat) : 0 < h -> 0 < w -> empty_image h w = false.
Proof.
  intros Hh Hw. unfold empty_image. apply orb_false_iff.
  split; apply Nat.eqb_neq; lia.
Qed.


Lemma binarize_masks {A : Type} (g : A -> Z) (r : A -> bool)
    (px : list (list A)) :
  let mask := map (map (fun p => if r p then 255%Z else 0%Z)) px in
  let bgMask := eq_scalar mask 0 in
  mask_assign (mask_assign (map (map g) px) bgMask 255) (mask_not bgMask) 0
  = map (map (fun p => if r p then 0%Z else 255%Z)) px.
Proof.
  unfold mask_assign, mask_not, eq_scalar.
  induction px as [|row px IH]; [reflexivity|].
  cbn [map zip_with]. f_equal; [|exact IH].
  clear IH. induction row as [|p row IH]; [reflexivity|].
  cbn [map zip_with]. f_equal; [|exact IH].
  by destruct (r p).
Qed.

Section BinarizeFacts.
Variable gray_of : list Z -> Z.





End BinarizeFacts.



(** ** ocr.py: the precondition of [extract_text] *)

Section ExtractTextFacts.
Variable gray_of : list Z -> Z.
Variable resize_px : ndarray -> Q -> Q -> interpolation -> list (list Z).
Variable cv2_erode cv2_dilate : ndarray -> ndarray -> nat -> ndarray.
Variable cv2_GaussianBlur : ndarray -> nat * nat -> Q -> ndarray.
Variable image_to_string : ndarray -> string -> string.
Variable re_sub : string -> string -> string -> string.
Variable str_strip : string -> string.

Local Abbreviation extract :=
  (extract_text gray_of resize_px cv2_erode cv2_dilate cv2_GaussianBlur
     image_to_string re_sub str_strip).

(** What the guard of [extract_text] tests is the number of dimensions of
    the array: any other rank is refused before any step, and every array
    of three dimensions gets past the guard, whatever its channel count. *)
Lemma extract_text_guard (img : ndarray) (spec : OCR_SPEC) (preview : bool)
    (prepare_image : option (ndarray -> outcome ndarray)) :
  (ndim img <> 3 ->
   extract img spec preview prepare_image
   = (Raise (AssertionError "Image must be BGR"), [])) /\
  (ndim img = 3 -> snd (extract img spec preview prepare_image) <> []).
Proof.
  unfold extract_text. split; intros H.
  - apply Nat.eqb_neq in H. by rewrite H.
  - apply Nat.eqb_eq in H. rewrite H. cbn [negb].
    destruct prepare_image as [f|].
    + destruct (f img); [destruct preview|]; cbn; congruence.
    + destruct (convert_to_bw gray_of img spec); [|cbn; congruence].
      destruct (improve_resolution resize_px a); [|cbn; congruence].
      destruct preview; cbn; congruence.
Qed.

(** C7 at a four-channel image. The array has three dimensions, so the
    guard lets it through although it is not a BGR image: with a custom
    preparation step the text of the engine is returned and no error is
    raised, and without one the binarization step is entered. *)
Theorem extract_text_four_channels (spec : OCR_SPEC) :
  ndim one_pixel_bgra = 3 /\
  shape one_pixel_bgra = [1; 1; 4] /\
  extract one_pixel_bgra spec false (Some first_channel_bw)
  = (Ret (format re_sub str_strip
            (image_to_string (Gray 1 1 [[0%Z]])
                             ("-l eng " +:+ PSM_value (type spec)))),
     [EvPrepare; EvTesseract ("-l eng " +:+ PSM_value (type spec))]) /\
  (exists rest, snd (extract one_pixel_bgra spec false None) = EvConvert :: rest).
Proof.
  do 3 (split; [reflexivity|]).
  unfold extract_text. cbn [one_pixel_bgra ndim shape length Nat.eqb negb].
  destruct (convert_to_bw gray_of _ spec) as [bw|e]; [|by eexists].
  destruct (improve_resolution resize_px bw); by eexists.
Qed.

End ExtractTextFacts.

(** ** display.py: a command that exits with a non-zero status *)

Section RunCommandFacts.
Variable shlex_split : string -> outcome (list string).
Variable Popen : list string -> outcome Process.

Lemma length_zero_empty (s : string) : (String.length s =? 0) = true <-> s = "".
Proof. destruct s; cbn; split; congruence. Qed.

(** C8, as amended. When the process of a blocking run exits with a
    non-zero status and what it wrote decodes as UTF-8, [run_command] does
    not raise and logs, at debug level, the command, the status and the
    captured error output, or the captured standard output when there is no
    error output. The caller receives what is left to read of the standard
    output: all of it when there was error output, and the empty string
    when there was none, the standard output having been read for the
    record. *)
Theorem run_command_nonzero_exit (cmd : string) (argv : list string)
    (rc : Z) (out err : string) :
  shlex_split cmd = Ret argv ->
  Popen argv = Ret (mkProcess (Some rc) out err) ->
  rc <> 0%Z ->
  valid_utf8 out = true -> valid_utf8 err = true ->
  (err <> "" ->
   run_command shlex_split Popen cmd true
   = (Ret out, [run_record cmd; exit_record cmd rc err])) /\
  (err = "" ->
   run_command shlex_split Popen cmd true
   = (Ret "", [run_record cmd; exit_record cmd rc out])).
Proof.
  intros Hsplit Hpopen Hrc Hout Herr.
  apply Z.eqb_neq in Hrc.
  unfold run_command. rewrite Hsplit, Hpopen.
  cbn [wait5 read_stderr read_stdout stderr stdout fst]. rewrite Hrc.
  cbn [negb]. unfold decode_utf8. rewrite Herr. split.
  - intros Hne.
    destruct (String.length err =? 0) eqn:El;
      [apply length_zero_empty in El; contradiction|].
    cbn [stdout fst]. by rewrite Hout.
  - intros ->. cbn [String.length Nat.eqb]. rewrite Hout.
    cbn [stdout fst]. reflexivity.
Qed.

End RunCommandFacts.

Lemma run_command_nonzero_exit_witness :
  run_command demo_split demo_Popen "tool" true
  = (Ret "partial", [run_record "tool"; exit_record "tool" 1 "boom"]) /\
  run_command demo_split quiet_Popen "tool" true
  = (Ret "", [run_record "tool"; exit_record "tool" 2 "usage"]).
Proof.
  split.
  - apply (run_command_nonzero_exit demo_split demo_Popen "tool" ["tool"] 1
             "partial" "boom"); try reflexivity; discriminate.
  - apply (run_command_nonzero_exit demo_split quiet_Popen "tool" ["tool"] 2
             "usage" ""); try reflexivity; discriminate.
Defined.

(** C8 as the specification words it fails: a tool that writes to both
    streams and exits with status 1 hands its standard output to the
    caller, not the empty string. *)
Lemma run_command_output_counterexample :
  fst (run_command demo_split demo_Popen "tool" true) = Ret "partial" /\
  fst (run_command demo_split demo_Popen "tool" true) <> Ret "".
Proof. split; [reflexivity|]. vm_compute. discriminate. Qed.

(** ** __init__.py: the registry in unique-display mode *)

Lemma map_size_1_singleton (m : gmap string XControl) :
  size m = 1 -> exists i x, m = {[i := x]}.
Proof.
  intros H. rewrite <- length_map_to_list in H.
  destruct (map_to_list m) as [|[i x] [|? ?]] eqn:E; try discriminate.
  exists i, x. rewrite <- (list_to_map_to_list m), E. cbn.
  by rewrite insert_empty.
Qed.

Lemma config_inv (unique : bool) (r : registry) :
  unique_display_inv r -> unique_display_inv (snd (config unique r)).
Proof.
  unfold unique_display_inv, config. intros Hinv.
  destruct unique; cbn [andb].
  - destruct (size (instances r) <=? 1) eqn:E; cbn [negb snd].
    + cbn [uniqueDisplay instances]. intros _. by apply Nat.leb_le.
    + exact Hinv.
  - cbn [snd uniqueDisplay]. discriminate.
Qed.

Lemma get_instance_inv (id : option string) (w h : option Z) (r : registry) :
  unique_display_inv r -> unique_display_inv (snd (get_instance id w h r)).
Proof.
  unfold unique_display_inv, get_instance. intros Hinv.
  destruct id as [i|].
  - destruct (instances r !! i) as [x|] eqn:Ei; [exact Hinv|].
    destruct ((size (instances r) =? 0) || negb (uniqueDisplay r)) eqn:E;
      [|exact Hinv].
    destruct (XControl_init i w h); [|exact Hinv].
    cbn [snd uniqueDisplay instances]. intros Hu.
    rewrite Hu in E. cbn [negb] in E. rewrite orb_false_r in E.
    apply Nat.eqb_eq in E. rewrite map_size_insert_None by done. lia.
  - destruct (uniqueDisplay r && (size (instances r) =? 1)); [|exact Hinv].
    destruct ((map_to_list (instances r)).*2); exact Hinv.
Qed.

Lemma run_calls_inv (cs : list registry_call) (r : registry) :
  unique_display_inv r -> unique_display_inv (run_calls cs r).
Proof.
  revert r. induction cs as [|c cs IH]; intros r Hinv; [exact Hinv|].
  cbn [run_calls fold_left]. apply IH.
  destruct c; [by apply config_inv|by apply get_instance_inv].
Qed.

(** C9. After any sequence of [config] and [get_instance] calls from the
    initial registry, unique-display mode implies that the registry holds
    at most one handle; in that mode, with one handle registered, a
    [get_instance] for a display identifier that is not registered fails
    and leaves the registry as it was. A [get_instance] without an
    identifier succeeds exactly when unique-display mode is set and exactly
    one handle exists, and then returns that handle and leaves the registry
    as it was. *)
Theorem registry_unique_display (cs : list registry_call) (w h : option Z) :
  let r := run_calls cs initial_registry in
  (uniqueDisplay r = true -> size (instances r) <= 1) /\
  (forall i,
      uniqueDisplay r = true -> size (instances r) = 1 ->
      instances r !! i = None ->
      exists msg, get_instance (Some i) w h r = (Raise (AssertionError msg), r)) /\
  ((exists x, fst (get_instance None w h r) = Ret x)
   <-> uniqueDisplay r = true /\ size (instances r) = 1) /\
  (forall x,
      fst (get_instance None w h r) = Ret x ->
      snd (get_instance None w h r) = r /\
      exists i, instances r = {[i := x]}).
Proof.
  intros r. split; [|split; [|split]].
  - apply run_calls_inv. unfold unique_display_inv. discriminate.
  - intros i Hu Hs Hi. unfold get_instance. rewrite Hi, Hu, Hs.
    cbn. by eexists.
  - unfold get_instance.
    destruct (uniqueDisplay r) eqn:Eu; cbn [andb].
    + destruct (size (instances r) =? 1) eqn:Es.
      * apply Nat.eqb_eq in Es.
        destruct (map_size_1_singleton _ Es) as (i & x & Hm).
        rewrite Hm, map_to_list_singleton. cbn. split.
        -- intros _. split; [done|apply map_size_singleton].
        -- intros _. by exists x.
      * apply Nat.eqb_neq in Es. cbn [fst]. split.
        -- intros [x Hx]. discriminate.
        -- intros [_ Hs]. contradiction.
    + cbn [fst]. split.
      * intros [x Hx]. discriminate.
      * intros [Hf _]. discriminate.
  - intros x. unfold get_instance.
    destruct (uniqueDisplay r && (size (instances r) =? 1)) eqn:E;
      [|cbn; discriminate].
    apply andb_true_iff in E as [_ Es]. apply Nat.eqb_eq in Es.
    destruct (map_size_1_singleton _ Es) as (i & y & Hm).
    rewrite Hm, map_to_list_singleton. cbn. intros [= ->].
    split; [reflexivity|]. by exists i.
Qed.

(** ** ocr.py: the resolution step *)

Lemma filter_seq_head (P : nat -> bool) (s n a : nat) :
  head (List.filter P (seq s n)) = Some a ->
  P a = true /\ s <= a < s + n /\ forall i, s <= i < a -> P i = false.
Proof.
  revert s. induction n as [|n IH]; intros s H; [discriminate|].
  cbn [seq List.filter] in H. destruct (P s) eqn:E.
  - cbn in H. injection H as <-.
    split; [assumption|]. split; [lia|]. intros i Hi. lia.
  - apply IH in H as (Ha & Hr & Hmin).
    split; [assumption|]. split; [lia|]. intros i Hi.
    destruct (decide (i = s)) as [->|Hne]; [assumption|]. apply Hmin. lia.
Qed.

Lemma filter_seq_last (P : nat -> bool) (s n b : nat) :
  last (List.filter P (seq s n)) = Some b ->
  P b = true /\ s <= b < s + n /\ forall i, b < i < s + n -> P i = false.
Proof.
  induction n as [|n IH]; intros H; [discriminate|].
  rewrite seq_S, List.filter_app in H. cbn [List.filter] in H.
  destruct (P (s + n)) eqn:E.
  - rewrite last_snoc in H. injection H as <-.
    split; [assumption|]. split; [lia|]. intros i Hi. lia.
  - rewrite app_nil_r in H. apply IH in H as (Hb & Hr & Hmax).
    split; [assumption|]. split; [lia|]. intros i Hi.
    destruct (decide (i = s + n)) as [->|Hne]; [assumption|]. apply Hmax. lia.
Qed.

Lemma filter_seq_nil (P : nat -> bool) (s n : nat) :
  List.filter P (seq s n) = [] <-> forall i, s <= i < s + n -> P i = false.
Proof.
  split.
  - intros H i Hi. destruct (P i) eqn:E; [|reflexivity].
    assert (In i (List.filter P (seq s n))) as Hin
      by (apply filter_In; split; [apply in_seq; lia|assumption]).
    rewrite H in Hin. destruct Hin.
  - intros H. destruct (List.filter P (seq s n)) as [|a l] eqn:E; [reflexivity|].
    assert (In a (List.filter P (seq s n))) as Hin by (rewrite E; by left).
    apply filter_In in Hin as [Hin Ha]. apply in_seq in Hin.
    rewrite H in Ha by lia. discriminate.
Qed.

Lemma where_false_head (m : list bool) (a : nat) :
  head (where_false m) = Some a ->
  is_false_at m a = true /\ forall i, i < a -> is_false_at m i = false.
Proof.
  intros H. apply filter_seq_head in H as (Ha & _ & Hmin).
  split; [exact Ha|]. intros i Hi. apply Hmin. lia.
Qed.

Lemma where_false_last (m : list bool) (b : nat) :
  last (where_false m) = Some b ->
  is_false_at m b = true /\ b < length m /\
  forall i, b < i -> is_false_at m i = false.
Proof.
  intros H. apply filter_seq_last in H as (Hb & Hr & Hmax).
  split; [exact Hb|]. split; [lia|]. intros i Hi.
  destruct (decide (i < length m)) as [Hlt|Hge]; [apply Hmax; lia|].
  unfold is_false_at. rewrite lookup_ge_None_2 by lia. reflexivity.
Qed.

Lemma where_false_nil (m : list bool) :
  where_false m = [] <-> forall i, is_false_at m i = false.
Proof.
  unfold where_false. rewrite filter_seq_nil. split; intros H i.
  - destruct (decide (i < length m)) as [Hlt|Hge]; [apply H; lia|].
    unfold is_false_at. by rewrite lookup_ge_None_2 by lia.
  - intros _. apply H.
Qed.

Lemma forallb_false {A : Type} (f : A -> bool) (l : list A) :
  forallb f l = false <-> exists j x, l !! j = Some x /\ f x = false.
Proof.
  induction l as [|a l IH]; cbn [forallb].
  - split; [discriminate|]. intros (j & x & H & _). destruct j; discriminate.
  - rewrite andb_false_iff, IH. split.
    + intros [Ha|(j & x & Hj & Hx)]; [by exists 0, a|by exists (Datatypes.S j), x].
    + intros ([|j] & x & Hj & Hx); cbn in Hj; [left; congruence|right; eauto].
Qed.

Lemma lookup_map {A B : Type} (f : A -> B) (l : list A) (i : nat) :
  map f l !! i = f <$> l !! i.
Proof. exact (list_lookup_fmap f l i). Qed.

Lemma row_not_white (px : list (list Z)) (i : nat) :
  is_false_at (all_white_rows px) i = true <-> exists j, nonwhite px i j.
Proof.
  unfold is_false_at, all_white_rows, nonwhite, pixel. rewrite lookup_map.
  destruct (px !! i) as [row|]; cbn.
  - destruct (forallb _ row) eqn:E.
    + split; [discriminate|]. intros (j & x & Hj & Hx). exfalso.
      assert (forallb (fun x => (x =? 255)%Z) row = false) as E'.
      { apply forallb_false. exists j, x. split; [assumption|].
        by apply Z.eqb_neq. }
      congruence.
    + split; [|reflexivity]. intros _.
      apply forallb_false in E as (j & x & Hj & Hx).
      exists j, x. split; [assumption|]. by apply Z.eqb_neq.
  - split; [discriminate|]. intros (j & x & Hj & _). discriminate.
Qed.

Lemma col_not_white (w : nat) (px : list (list Z)) (j : nat) :
  is_false_at (all_white_cols w px) j = true
  <-> j < w /\ exists i, nonwhite px i j.
Proof.
  unfold is_false_at, all_white_cols, nonwhite, pixel. rewrite lookup_map.
  destruct (decide (j < w)) as [Hlt|Hge].
  - rewrite lookup_seq_lt by assumption. cbn.
    destruct (forallb _ px) eqn:E.
    + split; [discriminate|]. intros (_ & i & x & Hi & Hx). exfalso.
      destruct (px !! i) as [row|] eqn:Er; [|discriminate].
      assert (forallb (fun row => match row !! j with
                                  | Some x => (x =? 255)%Z
                                  | None => true
                                  end) px = false) as E'.
      { apply forallb_false. exists i, row. split; [assumption|].
        rewrite Hi. by apply Z.eqb_neq. }
      congruence.
    + split; [|reflexivity]. intros _. split; [assumption|].
      apply forallb_false in E as (i & row & Hi & Hx).
      exists i. rewrite Hi. destruct (row !! j) as [x|]; [|discriminate].
      exists x. split; [reflexivity|]. by apply Z.eqb_neq.
  - rewrite lookup_seq_ge by lia. cbn. split; [discriminate|].
    intros [Hlt _]. lia.
Qed.

Lemma nonwhite_in_range (h w : nat) (px : list (list Z)) (i j : nat) :
  wf_gray h w px -> nonwhite px i j -> i < h /\ j < w.
Proof.
  intros [Hh Hw] (x & Hp & _). unfold pixel in Hp.
  destruct (px !! i) as [row|] eqn:Er; [|discriminate].
  split.
  - rewrite <- Hh. by eapply lookup_lt_Some.
  - rewrite Forall_forall in Hw.
    rewrite <- (Hw row) by (by eapply list_elem_of_lookup_2).
    by eapply lookup_lt_Some.
Qed.

(** The block of rows [r0..r1] and columns [c0..c1]. *)
Lemma block_pixels (h w : nat) (px : list (list Z)) (r0 r1 c0 c1 : nat) :
  wf_gray h w px -> r0 <= r1 < h -> c0 <= c1 < w ->
  let block := map (fun row => take (c1 + 1 - c0) (drop c0 row))
                   (take (r1 + 1 - r0) (drop r0 px)) in
  wf_gray (r1 + 1 - r0) (c1 + 1 - c0) block /\
  forall i j, i < r1 + 1 - r0 -> j < c1 + 1 - c0 ->
              pixel block i j = pixel px (r0 + i) (c0 + j).
Proof.
  intros [Hh Hw] Hr Hc block. subst block. split; [split|].
  - rewrite length_map, length_take, length_drop. lia.
  - apply List.Forall_map. apply Forall_take, Forall_drop.
    apply (Forall_impl _ _ _ Hw). intros row Hrow.
    rewrite length_take, length_drop. lia.
  - intros i j Hi Hj. unfold pixel.
    rewrite lookup_map, lookup_take_lt, lookup_drop by assumption.
    destruct (px !! (r0 + i)) as [row|]; cbn; [|reflexivity].
    by rewrite lookup_take_lt, lookup_drop.
Qed.

Lemma crop_all_white (h w : nat) (px : list (list Z)) :
  (forall i j, ~ nonwhite px i j) ->
  crop_white_border (Gray h w px) = Gray h w px.
Proof.
  intros Hwhite. unfold crop_white_border.
  assert (where_false (all_white_rows px) = []) as ->.
  { apply where_false_nil. intros i.
    destruct (is_false_at (all_white_rows px) i) eqn:E; [|reflexivity].
    apply row_not_white in E as [j Hj]. by destruct (Hwhite i j). }
  assert (where_false (all_white_cols w px) = []) as ->.
  { apply where_false_nil. intros j.
    destruct (is_false_at (all_white_cols w px) j) eqn:E; [|reflexivity].
    apply col_not_white in E as [_ [i Hi]]. by destruct (Hwhite i j). }
  reflexivity.
Qed.

Lemma crop_bounding_box (h w : nat) (px : list (list Z)) (i0 j0 : nat) :
  wf_gray h w px -> nonwhite px i0 j0 ->
  exists r0 r1 c0 c1,
    bounding_box px r0 r1 c0 c1 /\ r0 <= r1 < h /\ c0 <= c1 < w /\
    crop_white_border (Gray h w px)
    = Gray (r1 + 1 - r0) (c1 + 1 - c0)
           (map (fun row => take (c1 + 1 - c0) (drop c0 row))
                (take (r1 + 1 - r0) (drop r0 px))).
Proof.
  intros Hwf H0. pose proof (nonwhite_in_range _ _ _ _ _ Hwf H0) as [Hi0 Hj0].
  assert (is_false_at (all_white_rows px) i0 = true) as Hrow
    by (apply row_not_white; by exists j0).
  assert (is_false_at (all_white_cols w px) j0 = true) as Hcol
    by (apply col_not_white; split; [assumption|by exists i0]).
  destruct (head (where_false (all_white_rows px))) as [r0|] eqn:Er0;
    [|apply head_None in Er0; rewrite (proj1 (where_false_nil _) Er0) in Hrow;
      discriminate].
  destruct (last (where_false (all_white_rows px))) as [r1|] eqn:Er1;
    [|apply last_None in Er1; rewrite (proj1 (where_false_nil _) Er1) in Hrow;
      discriminate].
  destruct (head (where_false (all_white_cols w px))) as [c0|] eqn:Ec0;
    [|apply head_None in Ec0; rewrite (proj1 (where_false_nil _) Ec0) in Hcol;
      discriminate].
  destruct (last (where_false (all_white_cols w px))) as [c1|] eqn:Ec1;
    [|apply last_None in Ec1; rewrite (proj1 (where_false_nil _) Ec1) in Hcol;
      discriminate].
  pose proof (where_false_head _ _ Er0) as [Hr0 Hr0min].
  pose proof (where_false_last _ _ Er1) as (Hr1 & _ & Hr1max).
  pose proof (where_false_head _ _ Ec0) as [Hc0 Hc0min].
  pose proof (where_false_last _ _ Ec1) as (Hc1 & _ & Hc1max).
  assert (forall i j, nonwhite px i j -> r0 <= i <= r1 /\ c0 <= j <= c1) as Hbox.
  { intros i j Hij.
    pose proof (nonwhite_in_range _ _ _ _ _ Hwf Hij) as [Hi Hj].
    assert (is_false_at (all_white_rows px) i = true) as Hri
      by (apply row_not_white; by exists j).
    assert (is_false_at (all_white_cols w px) j = true) as Hcj
      by (apply col_not_white; split; [assumption|by exists i]).
    repeat split; apply Nat.nlt_ge; intros Hlt.
    - rewrite Hr0min in Hri by assumption. discriminate.
    - rewrite Hr1max in Hri by assumption. discriminate.
    - rewrite Hc0min in Hcj by assumption. discriminate.
    - rewrite Hc1max in Hcj by assumption. discriminate. }
  apply row_not_white in Hr0 as [jr0 Hr0], Hr1 as [jr1 Hr1].
  apply col_not_white in Hc0 as [_ [ic0 Hc0]], Hc1 as [_ [ic1 Hc1]].
  exists r0, r1, c0, c1. split; [|split; [|split]].
  - split; [exact Hbox|]. eauto 10.
  - pose proof (nonwhite_in_range _ _ _ _ _ Hwf Hr1) as [? _].
    pose proof (Hbox _ _ Hr0). lia.
  - pose proof (nonwhite_in_range _ _ _ _ _ Hwf Hc1) as [_ ?].
    pose proof (Hbox _ _ Hc0). lia.
  - unfold crop_white_border. rewrite Er0, Er1, Ec0, Ec1.
    cbn [slice_rows slice_cols]. reflexivity.
Qed.

Lemma pad_pixels (n : nat) (v : Z) (h w : nat) (px : list (list Z)) :
  wf_gray h w px ->
  let padded :=
    replicate n (replicate (n + w + n) v)
    ++ map (fun row => replicate n v ++ row ++ replicate n v) px
    ++ replicate n (replicate (n + w + n) v) in
  np_pad n v (Gray h w px) = Gray (n + h + n) (n + w + n) padded /\
  wf_gray (n + h + n) (n + w + n) padded /\
  forall i j, i < n + h + n -> j < n + w + n ->
    pixel padded i j
    = if decide (n <= i < n + h /\ n <= j < n + w)
      then pixel px (i - n) (j - n) else Some v.
Proof.
  intros [Hh Hw] padded. subst padded. split; [reflexivity|]. split; [split|].
  - rewrite !length_app, !length_replicate, length_map. lia.
  - rewrite !Forall_app. repeat split.
    + apply Forall_replicate, length_replicate.
    + apply List.Forall_map. apply (Forall_impl _ _ _ Hw). intros row Hrow.
      rewrite !length_app, !length_replicate. lia.
    + apply Forall_replicate, length_replicate.
  - intros i j Hi Hj. unfold pixel.
    destruct (decide (i < n)) as [Htop|Hntop].
    { rewrite lookup_app_l by (rewrite length_replicate; lia).
      rewrite lookup_replicate_2 by assumption.
      rewrite lookup_replicate_2 by assumption.
      destruct (decide _) as [[? ?]|]; [lia|reflexivity]. }
    rewrite lookup_app_r by (rewrite length_replicate; lia).
    rewrite length_replicate.
    destruct (decide (i - n < h)) as [Hmid|Hbot].
    + rewrite lookup_app_l by (rewrite length_map; lia).
      rewrite lookup_map.
      destruct (px !! (i - n)) as [row|] eqn:Er;
        [|apply lookup_ge_None in Er; lia].
      cbn. assert (length row = w) as Hrow.
      { rewrite Forall_forall in Hw. apply Hw.
        by eapply list_elem_of_lookup_2. }
      destruct (decide (j < n)) as [Hleft|Hnleft].
      { rewrite lookup_app_l by (rewrite length_replicate; lia).
        rewrite lookup_replicate_2 by assumption.
        destruct (decide _) as [[? ?]|]; [lia|reflexivity]. }
      rewrite lookup_app_r by (rewrite length_replicate; lia).
      rewrite length_replicate.
      destruct (decide (j - n < w)) as [Hin|Hright].
      * rewrite lookup_app_l by lia.
        destruct (decide _) as [|Hno]; [reflexivity|lia].
      * rewrite lookup_app_r by lia.
        rewrite lookup_replicate_2 by lia.
        destruct (decide _) as [[? ?]|]; [lia|reflexivity].
    + rewrite lookup_app_r by (rewrite length_map; lia).
      rewrite length_map.
      rewrite lookup_replicate_2 by lia.
      rewrite lookup_replicate_2 by lia.
      destruct (decide _) as [[? ?]|]; [lia|reflexivity].
Qed.

Lemma rows_untouched (w : nat) (px : list (list Z)) :
  Forall (fun row => length row = w) px ->
  map (fun row => take (w - 1 + 1 - 0) (drop 0 row)) px = px.
Proof.
  intros Hw. rewrite <- (map_id px) at 2. apply map_ext_Forall.
  apply (Forall_impl _ _ _ Hw). intros row Hrow.
  rewrite drop_0. apply take_ge. lia.
Qed.

(** The size [cv2.resize] gives a side scaled by 5/2: exactly 5/2 of an
    even side; for an odd side the even one of the two integers next to
    5/2 of it. *)
Lemma resized_half (n : nat) :
  (Nat.Even n -> 2 * resized n (5 # 2) = 5 * n) /\
  (Nat.Odd n ->
   Nat.Even (resized n (5 # 2)) /\
   (2 * resized n (5 # 2) = 5 * n + 1 \/ 2 * resized n (5 # 2) + 1 = 5 * n)).
Proof.
  unfold resized, cvRound.
  change (Qnum (inject_Z (Z.of_nat n) * (5 # 2))) with (Z.of_nat n * 5)%Z.
  change (Z.pos (Qden (inject_Z (Z.of_nat n) * (5 # 2)))) with 2%Z.
  set (m := (Z.of_nat n * 5)%Z).
  pose proof (Z.div_mod m 2 ltac:(lia)) as Hdm.
  pose proof (Z.mod_pos_bound m 2 ltac:(lia)) as Hr.
  split.
  - intros [k Hk].
    assert (m mod 2 = 0)%Z as H0 by lia. rewrite H0.
    change (2 * 0 <? 2)%Z with true. cbv iota. lia.
  - intros [k Hk].
    assert (m mod 2 = 1)%Z as H1 by lia. rewrite H1.
    change (2 * 1 <? 2)%Z with false. change (2 <? 2 * 1)%Z with false.
    cbv iota. destruct (Z.even (m / 2)) eqn:E.
    + apply Z.even_spec in E as [j Hj]. split; [|lia].
      exists (Z.to_nat j). lia.
    + assert (Z.odd (m / 2) = true) as Ho
        by (rewrite <- Z.negb_even, E; reflexivity).
      apply Z.odd_spec in Ho as [j Hj]. split; [|lia].
      exists (Z.to_nat (j + 1)). lia.
Qed.

Lemma resized_pos (n : nat) : 0 < n -> 0 < resized n (5 # 2).
Proof.
  intros Hn. destruct (Nat.Even_or_Odd n) as [He|Ho].
  - apply resized_half in He. lia.
  - apply resized_half in Ho as [_ Ho]. lia.
Qed.

Section ResolutionFacts.
Variable resize_px : ndarray -> Q -> Q -> interpolation -> list (list Z).

Lemma resize_padded (h w : nat) (px : list (list Z)) :
  cv2_resize resize_px (Gray (15 + h + 15) (15 + w + 15) px)
    (5 # 2)%Q (5 # 2)%Q INTER_LINEAR
  = Ret (Gray (resized (15 + h + 15) (5 # 2)) (resized (15 + w + 15) (5 # 2))
           (resize_px (Gray (15 + h + 15) (15 + w + 15) px)
              (5 # 2)%Q (5 # 2)%Q INTER_LINEAR)).
Proof.
  unfold cv2_resize.
  rewrite (empty_image_false (15 + h + 15) (15 + w + 15)) by lia.
  rewrite empty_image_false; [reflexivity| |]; apply resized_pos; lia.
Qed.

(** C2, as amended. On an array of shape [(h, w)] the resolution step
    crops to an array [cropped] of shape [(h', w')], pads it and resizes
    the padded array. The crop leaves an entirely white image as it is,
    leaves an image as it is when its first and last row and its first and
    last column each hold a pixel that is not white, and otherwise keeps
    exactly the rows and columns of the bounding box of the pixels that
    are not white. The padded array has 15 more rows and columns on every
    side, all 255, around the cropped pixels. The result of the step is
    what [cv2.resize] computes from the padded array with both factors 5/2
    and linear interpolation: its sides are the padded sides times 5/2
    rounded to the nearest integer, a tie going to the even one. An even
    side is scaled by exactly 5/2; an odd side is not: it becomes the even
    one of the two integers next to 5/2 of it, as 31 becomes 78 and 33
    becomes 82. *)
Theorem improve_resolution_spec (h w : nat) (px : list (list Z)) :
  wf_gray h w px ->
  exists h' w' cropped padded,
    crop_white_border (Gray h w px) = Gray h' w' cropped /\
    wf_gray h' w' cropped /\
    ((forall i j, ~ nonwhite px i j) -> h' = h /\ w' = w /\ cropped = px) /\
    ((exists j, nonwhite px 0 j) -> (exists j, nonwhite px (h - 1) j) ->
     (exists i, nonwhite px i 0) -> (exists i, nonwhite px i (w - 1)) ->
     h' = h /\ w' = w /\ cropped = px) /\
    ((exists i j, nonwhite px i j) ->
     exists r0 r1 c0 c1,
       bounding_box px r0 r1 c0 c1 /\
       h' = r1 + 1 - r0 /\ w' = c1 + 1 - c0 /\
       forall i j, i < h' -> j < w' ->
                   pixel cropped i j = pixel px (r0 + i) (c0 + j)) /\
    np_pad padding 255 (Gray h' w' cropped)
    = Gray (15 + h' + 15) (15 + w' + 15) padded /\
    wf_gray (15 + h' + 15) (15 + w' + 15) padded /\
    (forall i j, i < 15 + h' + 15 -> j < 15 + w' + 15 ->
       pixel padded i j
       = if decide (15 <= i < 15 + h' /\ 15 <= j < 15 + w')
         then pixel cropped (i - 15) (j - 15) else Some 255%Z) /\
    improve_resolution resize_px (Gray h w px)
    = Ret (Gray (resized (15 + h' + 15) (5 # 2)) (resized (15 + w' + 15) (5 # 2))
             (resize_px (Gray (15 + h' + 15) (15 + w' + 15) padded)
                (5 # 2)%Q (5 # 2)%Q INTER_LINEAR)) /\
    (forall n,
        (Nat.Even n -> scaled_exactly n (resized n (5 # 2))) /\
        (Nat.Odd n ->
         ~ scaled_exactly n (resized n (5 # 2)) /\
         Nat.Even (resized n (5 # 2)) /\
         (2 * resized n (5 # 2) = 5 * n + 1 \/
          2 * resized n (5 # 2) + 1 = 5 * n))) /\
    resized 31 (5 # 2) = 78 /\ resized 33 (5 # 2) = 82.
Proof.
  intros Hwf.
  assert (forall n,
             (Nat.Even n -> scaled_exactly n (resized n (5 # 2))) /\
             (Nat.Odd n ->
              ~ scaled_exactly n (resized n (5 # 2)) /\
              Nat.Even (resized n (5 # 2)) /\
              (2 * resized n (5 # 2) = 5 * n + 1 \/
               2 * resized n (5 # 2) + 1 = 5 * n))) as Hscale.
  { intros n. unfold scaled_exactly. split.
    - intros He. by apply resized_half.
    - intros Ho. apply resized_half in Ho as [He Hn].
      split; [lia|]. by split. }
  assert ((forall i j, ~ nonwhite px i j) \/ exists i j, nonwhite px i j)
    as [Hwhite|(i0 & j0 & H0)].
  { destruct (where_false (all_white_rows px)) as [|r rs] eqn:E.
    - left. intros i j Hij.
      assert (is_false_at (all_white_rows px) i = true) as Hi
        by (apply row_not_white; by exists j).
      rewrite (proj1 (where_false_nil _) E) in Hi. discriminate.
    - right. assert (head (where_false (all_white_rows px)) = Some r) as Hh
        by (by rewrite E).
      apply where_false_head in Hh as [Hr _].
      apply row_not_white in Hr as [j Hj]. by exists r, j. }
  - pose proof (pad_pixels 15 255 h w px Hwf) as (Hpad & Hpwf & Hpix).
    eexists h, w, px, _.
    split; [by apply crop_all_white|]. split; [assumption|].
    split; [done|].
    split; [intros [j Hj]; by destruct (Hwhite 0 j)|].
    split; [intros (i & j & Hij); by destruct (Hwhite i j)|].
    split; [exact Hpad|]. split; [exact Hpwf|]. split; [exact Hpix|].
    split; [|split; [exact Hscale|split; reflexivity]].
    unfold improve_resolution. cbn [ndim shape length Nat.eqb negb].
    rewrite (crop_all_white h w px Hwhite). unfold padding in *.
    rewrite Hpad. apply resize_padded.
  - destruct (crop_bounding_box h w px i0 j0 Hwf H0)
      as (r0 & r1 & c0 & c1 & Hbox & Hr & Hc & Hcrop).
    pose proof (block_pixels h w px r0 r1 c0 c1 Hwf Hr Hc) as [Hbwf Hbpix].
    cbv zeta in Hbwf, Hbpix.
    pose proof (pad_pixels 15 255 _ _ _ Hbwf) as (Hpad & Hpwf & Hpix).
    eexists (r1 + 1 - r0), (c1 + 1 - c0), _, _.
    split; [exact Hcrop|]. split; [exact Hbwf|].
    split; [intros Hwhite; by destruct (Hwhite i0 j0)|].
    split; [|split; [|split; [exact Hpad|split; [exact Hpwf|split;
      [exact Hpix|split; [|split; [exact Hscale|split; reflexivity]]]]]]].
    + intros [ja Ha] [jb Hb] [ic Hc'] [id Hd].
      destruct Hbox as (Hin & _).
      pose proof (Hin _ _ Ha) as [? _]. pose proof (Hin _ _ Hb) as [? _].
      pose proof (Hin _ _ Hc') as [_ ?]. pose proof (Hin _ _ Hd) as [_ ?].
      assert (r0 = 0) as -> by lia. assert (c0 = 0) as -> by lia.
      assert (r1 = h - 1) as -> by lia. assert (c1 = w - 1) as -> by lia.
      destruct Hwf as [Hh Hw].
      split; [lia|]. split; [lia|].
      rewrite drop_0, take_ge by lia. by apply rows_untouched.
    + intros _. exists r0, r1, c0, c1. done.
    + unfold improve_resolution. cbn [ndim shape length Nat.eqb negb].
      rewrite Hcrop. unfold padding in *. rewrite Hpad. apply resize_padded.
Qed.

End ResolutionFacts.

Lemma improve_resolution_spec_witness :
  wf_gray 3 4 framed_px /\
  crop_white_border (Gray 3 4 framed_px) = Gray 1 2 [[0; 7]]%Z /\
  improve_resolution demo_resize (Gray 3 4 framed_px)
  = Ret (Gray 78 80 (replicate 78 (replicate 80 255%Z))).
Proof.
  assert (wf_gray 3 4 framed_px) as Hwf
    by (split; [reflexivity|repeat constructor]).
  split; [exact Hwf|].
  destruct (improve_resolution_spec demo_resize 3 4 framed_px Hwf)
    as (h' & w' & cropped & padded & Hcrop & Hcwf & _ & _ & _ & _ & _ & _
        & Hres & _).
  split; [reflexivity|].
  vm_compute in Hcrop. inversion Hcrop; subst h' w' cropped.
  rewrite Hres. vm_compute. reflexivity.
Defined.

(** C2 as the specification words it fails: a single black pixel is padded
    to 31 by 31 and resized to 78 by 78, which is not 2.5 times 31. *)
Lemma improve_resolution_scale_counterexample :
  crop_white_border (Gray 1 1 black_pixel) = Gray 1 1 black_pixel /\
  improve_resolution demo_resize (Gray 1 1 black_pixel)
  = Ret (Gray 78 78 (replicate 78 (replicate 78 255%Z))) /\
  ~ scaled_exactly (padding + 1 + padding) 78 /\
  ~ resize_scales_exactly.
Proof.
  assert (improve_resolution demo_resize (Gray 1 1 black_pixel)
          = Ret (Gray 78 78 (replicate 78 (replicate 78 255%Z)))) as Hrun
    by (vm_compute; reflexivity).
  split; [reflexivity|]. split; [exact Hrun|].
  split; [unfold scaled_exactly, padding; lia|].
  intros Hclaim.
  destruct (Hclaim demo_resize 1 1 black_pixel _
              ltac:(split; [reflexivity|repeat constructor]) Hrun)
    as (h' & w' & cropped & H & W & Hcrop & Hshape & Hh & _).
  vm_compute in Hcrop. inversion Hcrop; subst h' w' cropped.
  cbn [shape] in Hshape. inversion Hshape; subst H W.
  unfold scaled_exactly, padding in Hh. lia.
Qed.

Lemma registry_unique_display_witness :
  let r := run_calls demo_calls initial_registry in
  size (instances r) <= 1 /\
  (exists msg, get_instance (Some ":2") (Some 800%Z) (Some 600%Z) r
               = (Raise (AssertionError msg), r)) /\
  (exists x, fst (get_instance None (Some 800%Z) (Some 600%Z) r) = Ret x) /\
  (exists x i, snd (get_instance None (Some 800%Z) (Some 600%Z) r) = r /\
               instances r = {[i := x]}).
Proof.
  intros r.
  destruct (registry_unique_display demo_calls (Some 800%Z) (Some 600%Z))
    as (H1 & H2 & H3 & H4). fold r in H1, H2, H3, H4.
  assert (uniqueDisplay r = true) as Hu by (vm_compute; reflexivity).
  assert (size (instances r) = 1) as Hs by (vm_compute; reflexivity).
  assert (instances r !! ":2" = None) as Hi by (vm_compute; reflexivity).
  split; [exact (H1 Hu)|]. split; [exact (H2 ":2" Hu Hs Hi)|].
  destruct (proj2 H3 (conj Hu Hs)) as [x Hx].
  split; [by exists x|].
  destruct (H4 x Hx) as [Hr [i Hm]]. by exists x, i.
Defined.

(** * Properties of the rest of the code *)

(** ** geometry.py *)

Lemma Point_init_Ret (x y : Z) (p : Point) :
  Point_init x y = Ret p <-> (0 <= x)%Z /\ (0 <= y)%Z /\ p = mkPoint x y.
Proof.
  unfold Point_init. destruct (0 <=? x)%Z eqn:Ex; destruct (0 <=? y)%Z eqn:Ey;
    cbn [andb]; try apply Z.leb_le in Ex; try apply Z.leb_le in Ey;
    try apply Z.leb_gt in Ex; try apply Z.leb_gt in Ey;
    (split; [intros H; inversion H; subst; auto; try lia
            |intros (? & ? & ->); try lia; auto]);
    try discriminate.
Qed.

Lemma Point_init_Raise (x y : Z) (e : exn) :
  Point_init x y = Raise e -> ((x < 0)%Z \/ (y < 0)%Z) /\ e = AssertionError "".
Proof.
  unfold Point_init. destruct (0 <=? x)%Z eqn:Ex; destruct (0 <=? y)%Z eqn:Ey;
    cbn [andb]; try apply Z.leb_gt in Ex; try apply Z.leb_gt in Ey;
    intros H; inversion H; subst; auto.
Qed.

(** X1. Adding an offset to a point and then the opposite offset gives the
    point back: when [p + o] is a point (no coordinate negative), so is
    [(p + o) + (-o)], and it is [p]. When a coordinate of the sum would be
    negative the addition raises [AssertionError]. *)
Theorem Point_add_opposite (p : Point) (o : Offset) :
  valid_point p ->
  (forall q, Point_add p o = Ret q -> Point_add q (opposite o) = Ret p) /\
  ((X p + offX o < 0)%Z \/ (Y p + offY o < 0)%Z ->
   Point_add p o = Raise (AssertionError "")).
Proof.
  intros [Hx Hy]. split.
  - intros q Hq. unfold Point_add in *.
    apply Point_init_Ret in Hq as (Hqx & Hqy & ->). cbn [X Y opposite offX offY].
    apply Point_init_Ret. destruct p as [px py]. cbn in *.
    split; [lia|]. split; [lia|]. f_equal; lia.
  - intros Hneg. unfold Point_add, Point_init.
    destruct Hneg as [H|H]; apply Z.leb_gt in H; rewrite H;
      [reflexivity|by rewrite andb_false_r].
Qed.

Lemma Point_add_opposite_witness :
  Point_add (mkPoint 10 20) (mkOffset (-3) 5) = Ret (mkPoint 7 25) /\
  Point_add (mkPoint 7 25) (opposite (mkOffset (-3) 5)) = Ret (mkPoint 10 20) /\
  Point_add (mkPoint 2 2) (mkOffset (-3) 0) = Raise (AssertionError "").
Proof.
  assert (valid_point (mkPoint 10 20)) as H1 by (split; cbn; lia).
  assert (valid_point (mkPoint 2 2)) as H2 by (split; cbn; lia).
  split; [reflexivity|]. split.
  - apply (proj1 (Point_add_opposite (mkPoint 10 20) (mkOffset (-3) 5) H1)).
    reflexivity.
  - apply (proj2 (Point_add_opposite (mkPoint 2 2) (mkOffset (-3) 0) H2)).
    left. cbn. lia.
Defined.

(** X2. For a frame whose corner is a point and whose width and height are
    not negative, the centre and the bottom-right corner exist, the centre
    lies between the top-left and the bottom-right corner on both axes, and
    it is the midpoint rounded down: twice its distance to the top-left
    corner is the size or one less. *)
Theorem Frame_center_between (f : Frame) :
  valid_point (corner f) -> (0 <= width f)%Z -> (0 <= height f)%Z ->
  exists c br,
    get_center f = Ret c /\ get_bottom_right f = Ret br /\
    (X (get_top_left f) <= X c <= X br)%Z /\
    (Y (get_top_left f) <= Y c <= Y br)%Z /\
    (width f - 1 <= 2 * (X c - X (get_top_left f)) <= width f)%Z /\
    (height f - 1 <= 2 * (Y c - Y (get_top_left f)) <= height f)%Z /\
    X br = (X (get_top_left f) + width f)%Z /\
    Y br = (Y (get_top_left f) + height f)%Z.
Proof.
  intros [Hx Hy] Hw Hh. destruct f as [[cx cy] w h]. cbn in *.
  unfold get_center, get_bottom_right, get_top_left, Point_add.
  cbn [corner width height X Y offX offY].
  pose proof (Z.div_mod w 2 ltac:(lia)). pose proof (Z.mod_pos_bound w 2 ltac:(lia)).
  pose proof (Z.div_mod h 2 ltac:(lia)). pose proof (Z.mod_pos_bound h 2 ltac:(lia)).
  rewrite !Point_init_nonneg by lia.
  eexists _, _. split; [reflexivity|]. split; [reflexivity|]. cbn. lia.
Qed.

Lemma Frame_center_between_witness :
  exists c br,
    get_center (mkFrame (mkPoint 10 20) 7 4) = Ret c /\
    get_bottom_right (mkFrame (mkPoint 10 20) 7 4) = Ret br /\
    c = mkPoint 13 22 /\ br = mkPoint 17 24.
Proof.
  destruct (Frame_center_between (mkFrame (mkPoint 10 20) 7 4))
    as (c & br & Hc & Hbr & _); [split; cbn; lia|cbn; lia|cbn; lia|].
  exists c, br. split; [exact Hc|]. split; [exact Hbr|].
  vm_compute in Hc, Hbr. split; congruence.
Defined.

(** X3. A relative frame turns into a frame exactly when the reference
    point moved by the offset has no negative coordinate; the frame then
    has that point as its top-left corner and the width and height of the
    relative frame. Otherwise the conversion raises [AssertionError]. *)
Theorem to_frame_spec (rf : RelativeFrame) (reference : Point) :
  ((0 <= X reference + offX (offset rf))%Z /\
   (0 <= Y reference + offY (offset rf))%Z ->
   to_frame rf reference
   = Ret (mkFrame (mkPoint (X reference + offX (offset rf))
                           (Y reference + offY (offset rf)))
                  (rel_width rf) (rel_height rf))) /\
  ((X reference + offX (offset rf) < 0)%Z \/
   (Y reference + offY (offset rf) < 0)%Z ->
   to_frame rf reference = Raise (AssertionError "")) /\
  (forall f, to_frame rf reference = Ret f ->
             valid_point (get_top_left f) /\
             width f = rel_width rf /\ height f = rel_height rf).
Proof.
  unfold to_frame, Point_add. split; [|split].
  - intros [Hx Hy]. by rewrite Point_init_nonneg.
  - intros Hneg. unfold Point_init.
    destruct Hneg as [H|H]; apply Z.leb_gt in H; rewrite H;
      [reflexivity|by rewrite andb_false_r].
  - intros f Hf.
    destruct (Point_init _ _) as [p|e] eqn:Ep; [|discriminate].
    apply Point_init_Ret in Ep as (Hx & Hy & ->). inversion Hf; subst.
    cbn. repeat split; assumption.
Qed.

Lemma to_frame_spec_witness :
  to_frame (mkRelativeFrame (mkOffset (-5) 10) 100 40) (mkPoint 30 30)
  = Ret (mkFrame (mkPoint 25 40) 100 40) /\
  to_frame (mkRelativeFrame (mkOffset (-50) 10) 100 40) (mkPoint 30 30)
  = Raise (AssertionError "").
Proof.
  split.
  - apply (proj1 (to_frame_spec (mkRelativeFrame (mkOffset (-5) 10) 100 40)
                                (mkPoint 30 30))).
    cbn. lia.
  - apply (proj1 (proj2 (to_frame_spec
                           (mkRelativeFrame (mkOffset (-50) 10) 100 40)
                           (mkPoint 30 30)))).
    left. cbn. lia.
Defined.

(** ** ocr.py: building a specification *)

Lemma PSM_getitem_name (m : PSM) : PSM_getitem (PSM_name m) = Some m.
Proof. by destruct m. Qed.

Lemma PSM_getitem_Some (s : string) (m : PSM) :
  PSM_getitem s = Some m -> s = PSM_name m.
Proof.
  unfold PSM_getitem. intros H. apply find_some in H as [_ H].
  symmetry. by apply String.eqb_eq.
Qed.

Lemma PSM_from_string_name (m : PSM) : PSM_from_string (PSM_name m) = Ret m.
Proof. by destruct m. Qed.

Lemma PSM_from_string_Ret (s : string) (m : PSM) :
  PSM_from_string s = Ret m -> s = PSM_name m.
Proof.
  intros H. unfold PSM_from_string in H.
  destruct (bool_decide _); [|discriminate].
  destruct (PSM_getitem s) as [m'|] eqn:E; [|discriminate].
  inversion H; subst. by apply PSM_getitem_Some.
Qed.

Lemma PSM_from_string_unknown (s : string) :
  (forall m, s <> PSM_name m) ->
  PSM_from_string s = Raise (ValueError ("Unknown type " +:+ s)).
Proof.
  intros Hs. unfold PSM_from_string.
  destruct (bool_decide _); [|reflexivity].
  destruct (PSM_getitem s) as [m|] eqn:E; [|reflexivity].
  apply PSM_getitem_Some in E. by destruct (Hs m).
Qed.

(** X4. [PSM.from_string] is the inverse of the member names: it maps the
    name of every mode to that mode, a string it accepts is the name of the
    mode it returns, and every other string raises [ValueError] with the
    string in the message. *)
Theorem PSM_from_string_spec :
  (forall m, PSM_from_string (PSM_name m) = Ret m) /\
  (forall s m, PSM_from_string s = Ret m -> s = PSM_name m) /\
  (forall s, (forall m, s <> PSM_name m) ->
             PSM_from_string s = Raise (ValueError ("Unknown type " +:+ s))).
Proof.
  split; [exact PSM_from_string_name|].
  split; [exact PSM_from_string_Ret|exact PSM_from_string_unknown].
Qed.

Lemma PSM_from_string_spec_witness :
  PSM_from_string "SINGLE_LINE" = Ret SINGLE_LINE /\
  PSM_from_string "single_line" = Raise (ValueError "Unknown type single_line").
Proof.
  destruct PSM_from_string_spec as (H1 & _ & H3). split.
  - exact (H1 SINGLE_LINE).
  - apply H3. intros m. destruct m; discriminate.
Defined.

Lemma spec_to_dict_dom (s : OCR_SPEC) : dom (spec_to_dict s) = spec_keys.
Proof.
  unfold spec_to_dict, spec_keys. rewrite !dom_insert_L, dom_singleton_L.
  set_solver.
Qed.

(** X5. [OCR_SPEC.from_dict] reads back the dictionary of a specification
    whose bounds have three components. A dictionary whose key set is not
    exactly psm, lowerBound, upperBound raises [AssertionError], and with
    the right keys an unknown mode raises [ValueError] whatever the bounds
    are. *)
Theorem OCR_SPEC_from_dict_spec :
  (forall s, length (lowerBound s) = 3 -> length (upperBound s) = 3 ->
             OCR_SPEC_from_dict (spec_to_dict s) = Ret s) /\
  (forall d, dom d <> spec_keys ->
             OCR_SPEC_from_dict d = Raise (AssertionError "")) /\
  (forall d name,
      dom d = spec_keys -> d !! "psm" = Some (PyStr name) ->
      (forall m, name <> PSM_name m) ->
      OCR_SPEC_from_dict d = Raise (ValueError ("Unknown type " +:+ name))) /\
  (forall d s, OCR_SPEC_from_dict d = Ret s ->
               d !! "psm" = Some (PyStr (PSM_name (type s))) /\
               d !! "lowerBound" = Some (PyList (lowerBound s)) /\
               d !! "upperBound" = Some (PyList (upperBound s)) /\
               length (lowerBound s) = 3 /\ length (upperBound s) = 3).
Proof.
  split; [|split; [|split]].
  - intros [t lo hi] Hlo Hhi. cbn in Hlo, Hhi. unfold OCR_SPEC_from_dict.
    rewrite bool_decide_eq_true_2 by apply spec_to_dict_dom.
    unfold spec_to_dict. cbn [negb type lowerBound upperBound].
    rewrite lookup_insert_eq.
    rewrite lookup_insert_ne, lookup_insert_eq by done.
    rewrite lookup_insert_ne, lookup_insert_ne, lookup_singleton_eq by done.
    rewrite PSM_from_string_name. unfold as_bound, OCR_SPEC_init.
    rewrite Hlo, Hhi. cbn. by rewrite Hlo, Hhi.
  - intros d Hd. unfold OCR_SPEC_from_dict.
    by rewrite bool_decide_eq_false_2.
  - intros d name Hd Hpsm Hname. unfold OCR_SPEC_from_dict.
    rewrite bool_decide_eq_true_2 by done. cbn [negb]. rewrite Hpsm.
    assert (is_Some (d !! "lowerBound")) as [lo ->]
      by (apply elem_of_dom; rewrite Hd; set_solver).
    assert (is_Some (d !! "upperBound")) as [hi ->]
      by (apply elem_of_dom; rewrite Hd; set_solver).
    by rewrite (PSM_from_string_unknown name Hname).
  - intros d s H. unfold OCR_SPEC_from_dict in H.
    destruct (bool_decide _); [|discriminate]. cbn [negb] in H.
    destruct (d !! "psm") as [[name| | |]|]; try discriminate;
      destruct (d !! "lowerBound") as [lo|]; try discriminate;
      destruct (d !! "upperBound") as [hi|]; try discriminate.
    destruct (PSM_from_string name) as [m|] eqn:Em; [|discriminate].
    apply PSM_from_string_Ret in Em as ->.
    destruct lo as [|lo| |]; cbn [as_bound] in H; try discriminate.
    destruct (length lo =? 3) eqn:El; [|discriminate].
    destruct hi as [|hi| |]; cbn [as_bound] in H; try discriminate.
    destruct (length hi =? 3) eqn:Eh; [|discriminate].
    unfold OCR_SPEC_init in H. rewrite El, Eh in H. inversion H; subst.
    apply Nat.eqb_eq in El, Eh. by cbn.
Qed.

Lemma OCR_SPEC_from_dict_spec_witness :
  OCR_SPEC_from_dict (spec_to_dict any_color_spec) = Ret any_color_spec /\
  OCR_SPEC_from_dict {[ "psm" := PyStr "NUMBER" ]} = Raise (AssertionError "") /\
  OCR_SPEC_from_dict {[ "psm" := PyStr "digits"; "lowerBound" := PyNone;
                        "upperBound" := PyNone ]}
  = Raise (ValueError "Unknown type digits").
Proof.
  destruct OCR_SPEC_from_dict_spec as (H1 & H2 & H3 & _).
  split; [by apply H1|]. split.
  - apply H2. rewrite dom_singleton_L. unfold spec_keys.
    intros H. assert ("lowerBound" ∈ ({["psm"]} : gset string)) as Hin
      by (rewrite H; set_solver).
    apply elem_of_singleton in Hin. discriminate.
  - apply H3.
    + rewrite !dom_insert_L, dom_singleton_L. unfold spec_keys. set_solver.
    + by rewrite lookup_insert_eq.
    + intros m. destruct m; discriminate.
Defined.

(** ** utils.py: what the polling loops do and never do *)

Lemma sleeps_app {R : Type} (l l' : list (event R)) :
  sleeps (l ++ l') = sleeps l + sleeps l'.
Proof. unfold sleeps. by rewrite List.filter_app, length_app. Qed.

Lemma clock_reads_app {R : Type} (l l' : list (event R)) :
  clock_reads (l ++ l') = clock_reads l + clock_reads l'.
Proof. unfold clock_reads. by rewrite List.filter_app, length_app. Qed.

Lemma wait_for_rounds_counts (interval : Q) (ts : list Q) :
  let evs := flat_map (wait_for_round interval) ts in
  evaluations evs = length ts /\ sleeps evs = length ts /\
  clock_reads evs = length ts /\ sleeps_last interval evs.
Proof.
  induction ts as [|t ts (He & Hs & Hc & Hl)]; cbn zeta.
  - repeat split. intros d Hd. by apply elem_of_nil in Hd.
  - cbn [flat_map wait_for_round].
    change ([EvCall (Ret false); EvTime t; EvSleep interval]
              ++ flat_map (wait_for_round interval) ts)
      with ([@EvCall bool (Ret false); EvTime t; EvSleep interval]
              ++ flat_map (wait_for_round interval) ts).
    rewrite evaluations_app, sleeps_app, clock_reads_app.
    cbn zeta in He, Hs, Hc, Hl. rewrite He, Hs, Hc. cbn [length].
    repeat split. intros d Hd.
    apply elem_of_app in Hd as [Hd|Hd]; [|by apply Hl].
    repeat (apply elem_of_cons in Hd as [Hd|Hd]; [congruence|]).
    by apply elem_of_nil in Hd.
Qed.

Lemma set_rounds_counts {V : Type} (interval : Q) (ts : list Q) :
  let evs := flat_map (@set_round V interval) ts in
  evaluations evs = length ts /\ sleeps evs = length ts /\
  clock_reads evs = length ts /\ sleeps_last interval evs.
Proof.
  induction ts as [|t ts (He & Hs & Hc & Hl)]; cbn zeta.
  - repeat split. intros d Hd. by apply elem_of_nil in Hd.
  - cbn [flat_map set_round].
    rewrite evaluations_app, sleeps_app, clock_reads_app.
    cbn zeta in He, Hs, Hc, Hl. rewrite He, Hs, Hc. cbn [length].
    repeat split. intros d Hd.
    apply elem_of_app in Hd as [Hd|Hd]; [|by apply Hl].
    repeat (apply elem_of_cons in Hd as [Hd|Hd]; [congruence|]).
    by apply elem_of_nil in Hd.
Qed.

Lemma sleeps_last_app {R : Type} (interval : Q) (l l' : list (event R)) :
  sleeps_last interval l -> sleeps_last interval l' ->
  sleeps_last interval (l ++ l').
Proof.
  intros H H' d Hd. apply elem_of_app in Hd as [Hd|Hd]; [by apply H|by apply H'].
Qed.

Lemma sleeps_last_short {R : Type} (interval : Q) (l : list (event R)) :
  Forall (fun e => match e with EvSleep d => d = interval | _ => True end) l ->
  sleeps_last interval l.
Proof.
  intros H d Hd. rewrite Forall_forall in H. exact (H _ Hd).
Qed.

Lemma without_clock_app {R : Type} (l l' : list (event R)) :
  without_clock (l ++ l') = without_clock l ++ without_clock l'.
Proof. unfold without_clock. by rewrite List.filter_app. Qed.

Lemma interleaved_step {R : Type} (d : Q) (r : outcome R)
    (rs : list (outcome R)) :
  rs <> [] -> interleaved d (r :: rs) = EvCall r :: EvSleep d :: interleaved d rs.
Proof. destruct rs; [done|reflexivity]. Qed.

Lemma wait_for_rounds_interleaved (interval : Q) (ts : list Q) (b : bool)
    (tail : list (event bool)) :
  without_clock tail = [EvCall (Ret b)] ->
  without_clock (flat_map (wait_for_round interval) ts ++ tail)
  = interleaved interval (replicate (length ts) (Ret false) ++ [Ret b]).
Proof.
  intros Htail. induction ts as [|t ts IH]; [exact Htail|].
  cbn [flat_map wait_for_round length replicate].
  rewrite <- app_assoc, without_clock_app, IH.
  change ((Ret false :: replicate (length ts) (Ret false)) ++ [Ret b])
    with (@Ret bool false :: (replicate (length ts) (Ret false) ++ [Ret b])).
  rewrite interleaved_step by (by destruct (replicate _ _)).
  reflexivity.
Qed.

Lemma set_rounds_interleaved {V : Type} (interval : Q) (ts : list Q)
    (rs : list (outcome (option V))) (tail : list (event (option V))) :
  without_clock tail = flat_map (fun r => [EvSleep interval; EvCall r]) rs ->
  without_clock (EvCall (Ret None) :: flat_map (set_round interval) ts ++ tail)
  = interleaved interval (replicate (Datatypes.S (length ts)) (Ret None) ++ rs).
Proof.
  intros Htail.
  assert (forall (r : outcome (option V)) l,
             interleaved interval (r :: l)
             = EvCall r :: flat_map (fun r' => [EvSleep interval; EvCall r']) l)
    as Hflat.
  { intros r l. revert r. induction l as [|a l IH]; intros r; [reflexivity|].
    rewrite interleaved_step by done. by rewrite IH. }
  cbn [replicate app]. rewrite Hflat.
  change (without_clock (EvCall (Ret None)
                           :: flat_map (set_round interval) ts ++ tail))
    with (@EvCall (option V) (Ret None)
            :: without_clock (flat_map (set_round interval) ts ++ tail)).
  f_equal. rewrite without_clock_app, Htail, flat_map_app. f_equal.
  induction ts as [|t ts IH]; [reflexivity|].
  cbn [flat_map set_round length replicate].
  rewrite without_clock_app, IH. reflexivity.
Qed.

(** X6. A run of [wait_for] that returns sleeps exactly once between two
    consecutive evaluations and never before the first or after the last:
    without its clock readings, its trace is the evaluations, all false
    but the last when that is true, with one sleep of [interval] between
    each two. So it makes one evaluation more than it sleeps, every sleep
    lasts [interval], and it reads the clock once per evaluation when it
    returns true and once more when it returns false. *)
Theorem wait_for_counts {S : Type} (clock : nat -> Q)
    (condition : S -> outcome bool * S) (fuel : nat) (timeout interval : Q)
    (st st' : pstate S bool) (b : bool) :
  wait_for clock condition fuel timeout interval st = Some (Ret b, st') ->
  exists evs,
    trace st' = trace st ++ evs /\
    without_clock evs
    = interleaved interval (replicate (sleeps evs) (Ret false) ++ [Ret b]) /\
    evaluations evs = Datatypes.S (sleeps evs) /\
    sleeps_last interval evs /\
    clock_reads evs = (if b then evaluations evs
                       else Datatypes.S (evaluations evs)).
Proof.
  intros H. apply wait_for_trace in H as (ts & tail & _ & Htr & Hend).
  cbv zeta in Htr, Hend.
  destruct (wait_for_rounds_counts interval ts) as (He & Hs & Hc & Hl).
  cbv zeta in He, Hs, Hc, Hl.
  eexists. split; [exact Htr|].
  change (EvTime (clock (reads st)) :: flat_map (wait_for_round interval) ts ++ tail)
    with ([@EvTime bool (clock (reads st))]
            ++ flat_map (wait_for_round interval) ts ++ tail).
  rewrite (without_clock_app [EvTime (clock (reads st))]).
  change (without_clock [@EvTime bool (clock (reads st))]) with (@nil (event bool)).
  rewrite app_nil_l.
  rewrite !evaluations_app, !sleeps_app, !clock_reads_app, He, Hs, Hc.
  destruct b; cbn [wait_for_end] in Hend.
  - subst tail. split.
    { rewrite (wait_for_rounds_interleaved interval ts true) by reflexivity.
      match goal with
      | |- _ = interleaved _ (replicate ?n _ ++ _) =>
        replace n with (length ts) by (cbn; lia)
      end.
      reflexivity. }
    split; [cbn; lia|]. split; [|cbn; lia].
    apply sleeps_last_app; [apply sleeps_last_short; repeat constructor|].
    apply sleeps_last_app; [exact Hl|].
    apply sleeps_last_short; repeat constructor.
  - destruct Hend as (t & _ & ->). split.
    { rewrite (wait_for_rounds_interleaved interval ts false) by reflexivity.
      match goal with
      | |- _ = interleaved _ (replicate ?n _ ++ _) =>
        replace n with (length ts) by (cbn; lia)
      end.
      reflexivity. }
    split; [cbn; lia|]. split; [|cbn; lia].
    apply sleeps_last_app; [apply sleeps_last_short; repeat constructor|].
    apply sleeps_last_app; [exact Hl|].
    apply sleeps_last_short; repeat constructor.
Qed.

Lemma wait_for_counts_witness :
  exists st' evs,
    wait_for (tick_clock (1 # 2)) (scripted false []) 9 1 (1 # 10) fresh
    = Some (Ret false, st') /\
    trace st' = [] ++ evs /\
    without_clock evs
    = interleaved (1 # 10) (replicate (sleeps evs) (Ret false) ++ [Ret false]) /\
    evaluations evs = Datatypes.S (sleeps evs) /\
    clock_reads evs = Datatypes.S (evaluations evs).
Proof.
  eexists. 
  edestruct (wait_for_counts (tick_clock (1 # 2)) (scripted false []) 9 1
               (1 # 10) fresh) as (evs & Htr & Hi & He & _ & Hc);
    [vm_compute; reflexivity|].
  exists evs. split; [reflexivity|]. split; [exact Htr|].
  split; [exact Hi|]. split; assumption.
Defined.

(** X7. A run of [wait_to_be_set] that returns sleeps exactly once
    between two consecutive evaluations and never before the first or
    after the last: without its clock readings, its trace is the
    evaluations, all absent but the last when that is a value, with one
    sleep of [interval] between each two. So it makes one evaluation more
    than it sleeps, every sleep lasts [interval], and it reads the clock
    once per evaluation when it returns a value and once more when it
    returns absent. *)
Theorem wait_to_be_set_counts {S V : Type} (clock : nat -> Q)
    (condition : S -> outcome (option V) * S) (fuel : nat)
    (timeout interval : Q) (st st' : pstate S (option V)) (r : option V) :
  wait_to_be_set clock condition fuel timeout interval st = Some (Ret r, st') ->
  exists evs,
    trace st' = trace st ++ evs /\
    without_clock evs
    = interleaved interval (replicate (sleeps evs) (Ret None) ++ [Ret r]) /\
    evaluations evs = Datatypes.S (sleeps evs) /\
    sleeps_last interval evs /\
    clock_reads evs = match r with
                      | Some _ => evaluations evs
                      | None => Datatypes.S (evaluations evs)
                      end.
Proof.
  intros H.
  apply wait_to_be_set_trace in H
    as [(e & He & _)|[(v & Hv & Htr)|(ts & tail & _ & Htr & Hend)]];
    [discriminate| |].
  - inversion Hv; subst r. eexists. split; [exact Htr|].
    split; [reflexivity|].
    split; [reflexivity|]. split; [|reflexivity].
    apply sleeps_last_short; repeat constructor.
  - cbv zeta in Htr, Hend.
    destruct (@set_rounds_counts V interval ts) as (He & Hs & Hc & Hl).
    cbv zeta in He, Hs, Hc, Hl.
    eexists. split; [exact Htr|].
    split.
    { change (without_clock
                (EvCall (Ret None) :: EvTime (clock (reads st))
                   :: flat_map (set_round interval) ts ++ tail))
        with (without_clock
                (@EvCall (option V) (Ret None)
                   :: flat_map (set_round interval) ts ++ tail)).
      change (EvCall (Ret None) :: EvTime (clock (reads st))
                :: flat_map (set_round interval) ts ++ tail)
        with ([@EvCall (option V) (Ret None); EvTime (clock (reads st))]
                ++ flat_map (set_round interval) ts ++ tail).
      rewrite !sleeps_app, Hs.
      destruct r as [v|]; cbn [wait_to_be_set_end] in Hend;
        destruct Hend as (t & _ & ->).
      - rewrite (set_rounds_interleaved interval ts [Ret (Some v)])
          by reflexivity.
        replace (sleeps [@EvCall (option V) (Ret None); EvTime (clock (reads st))]
                 + (length ts
                    + sleeps [@EvTime (option V) t; EvSleep interval;
                              EvCall (Ret (Some v))]))
          with (Datatypes.S (length ts)) by (cbn; lia).
        reflexivity.
      - rewrite (set_rounds_interleaved interval ts []) by reflexivity.
        replace (sleeps [@EvCall (option V) (Ret None); EvTime (clock (reads st))]
                 + (length ts + sleeps [@EvTime (option V) t]))
          with (length ts) by (cbn; lia).
        rewrite app_nil_r. f_equal.
        change (Datatypes.S (length ts)) with (1 + length ts).
        rewrite Nat.add_comm. by rewrite replicate_add. }
    change (EvCall (Ret None) :: EvTime (clock (reads st))
              :: flat_map (set_round interval) ts ++ tail)
      with ([@EvCall (option V) (Ret None); EvTime (clock (reads st))]
              ++ flat_map (set_round interval) ts ++ tail).
    rewrite !evaluations_app, !sleeps_app, !clock_reads_app, He, Hs, Hc.
    destruct r as [v|]; cbn [wait_to_be_set_end] in Hend;
      destruct Hend as (t & _ & ->);
      (split; [cbn; lia|]); (split; [|cbn; lia]);
      (apply sleeps_last_app; [apply sleeps_last_short; repeat constructor|]);
      (apply sleeps_last_app; [exact Hl|]);
      apply sleeps_last_short; repeat constructor.
Qed.

Lemma wait_to_be_set_counts_witness :
  exists st' evs,
    wait_to_be_set (tick_clock (1 # 10))
      (scripted None [None; None; Some 7%Z]) 9 1 (1 # 10) fresh
    = Some (Ret (Some 7%Z), st') /\
    trace st' = [] ++ evs /\
    without_clock evs
    = interleaved (1 # 10)
        (replicate (sleeps evs) (Ret None) ++ [Ret (Some 7%Z)]) /\
    evaluations evs = Datatypes.S (sleeps evs) /\
    clock_reads evs = evaluations evs.
Proof.
  eexists.
  edestruct (wait_to_be_set_counts (tick_clock (1 # 10))
               (scripted None [None; None; Some 7%Z]) 9 1 (1 # 10) fresh)
    as (evs & Htr & Hi & He & _ & Hc); [vm_compute; reflexivity|].
  exists evs. split; [reflexivity|]. split; [exact Htr|].
  split; [exact Hi|]. split; assumption.
Defined.

(** X8. A [wait_for] whose budget is already spent at the first check (a
    negative timeout with a clock that does not run backwards, or any
    timeout the clock has passed by then) still evaluates the predicate
    once: it returns what that evaluation says, after exactly one
    evaluation and without sleeping. *)
Theorem wait_for_spent_budget {S : Type} (clock : nat -> Q)
    (condition : S -> outcome bool * S) (fuel : nat) (timeout interval : Q)
    (st : pstate S bool) (b : bool) (u : S) :
  0 < fuel ->
  condition (user st) = (Ret b, u) ->
  (timeout < 0)%Q /\ (clock (reads st) <= clock (Datatypes.S (reads st)))%Q \/
  (timeout < clock (Datatypes.S (reads st)) - clock (reads st))%Q ->
  exists st',
    wait_for clock condition fuel timeout interval st = Some (Ret b, st') /\
    user st' = u /\
    evaluations (trace st') = evaluations (trace st) + 1 /\
    sleeps (trace st') = sleeps (trace st).
Proof.
  intros Hf Hc Hspent.
  assert (timeout < clock (Datatypes.S (reads st)) - clock (reads st))%Q as Hex.
  { destruct Hspent as [[Hneg Hmono]|H]; [|exact H].
    eapply Qlt_le_trans; [exact Hneg|].
    apply (Qplus_le_l _ _ (clock (reads st))). ring_simplify. exact Hmono. }
  apply Qgtb_true in Hex.
  destruct fuel as [|fuel]; [lia|].
  unfold wait_for. cbn [time_time wait_for_loop]. unfold call.
  cbn [user reads trace]. rewrite Hc. destruct b.
  - eexists. split; [reflexivity|]. cbn [user trace].
    rewrite !evaluations_app, !sleeps_app. cbn. split; [reflexivity|]. lia.
  - cbn [time_time reads user trace]. rewrite Hex.
    eexists. split; [reflexivity|]. cbn [user trace].
    rewrite !evaluations_app, !sleeps_app. cbn. split; [reflexivity|]. lia.
Qed.

Lemma wait_for_spent_budget_witness :
  exists st',
    wait_for (tick_clock (1 # 10)) (scripted false []) 5 (-1) (1 # 10) fresh
    = Some (Ret false, st') /\
    user st' = 1 /\
    evaluations (trace st') = evaluations (@nil (event bool)) + 1 /\
    sleeps (trace st') = sleeps (@nil (event bool)).
Proof.
  apply (wait_for_spent_budget (tick_clock (1 # 10)) (scripted false []) 5
           (-1) (1 # 10) fresh false 1); [lia|reflexivity|].
  left. split; vm_compute; congruence.
Defined.

Section PollingInvariants.
Context {S : Type}.
Variable clock : nat -> Q.
Variable I : S -> Prop.

Lemma wait_for_loop_invariant (condition : S -> outcome bool * S)
    (Hstep : forall s, I s -> I (snd (condition s)))
    fuel start timeout interval :
  forall (st st' : pstate S bool) o,
    I (user st) ->
    wait_for_loop clock condition fuel start timeout interval st = Some (o, st') ->
    I (user st').
Proof.
  induction fuel as [|fuel IH]; intros st st' o Hi H; [discriminate|].
  cbn [wait_for_loop] in H. unfold call in H.
  pose proof (Hstep _ Hi) as Hu.
  destruct (condition (user st)) as [[[|]|e] u] eqn:Ec; cbn [snd] in Hu.
  - by inversion H; subst.
  - cbn [time_time reads user trace] in H.
    destruct (Qgtb _ _); [by inversion H; subst|].
    unfold time_sleep in H. destruct (Qgtb 0 interval);
      [by inversion H; subst|].
    by apply IH in H.
  - by inversion H; subst.
Qed.



End PollingInvariants.


(** ** screen.py: errors and first-try success of the image waits *)

Section WaitImageErrors.
Variable capture : nat -> option Frame -> outcome ndarray.
Variable imread : string -> option ndarray.
Variable Corr : Type.
Variable matchTemplate : ndarray -> ndarray -> outcome Corr.
Variable minMaxLoc : Corr -> Q * (nat * nat).
Variable str_of_num : Q -> string.
Variable clock : nat -> Q.

Local Abbreviation locate :=
  (locate_on_screen capture imread Corr matchTemplate minMaxLoc).
Local Abbreviation appear :=
  (wait_for_image capture imread Corr matchTemplate minMaxLoc str_of_num clock).
Local Abbreviation disappear :=
  (wait_for_image_to_disappear capture imread Corr matchTemplate minMaxLoc
     str_of_num clock).

(** X10. The errors of the locator come out of both image waits at the
    first evaluation and are never turned into a [TimeoutError]: a
    confidence outside [0, 1] raises [AssertionError] with nothing
    captured and no sleep; with a valid confidence, an exception of the
    capture comes out as it is, after that one capture request, with no
    image loaded and no sleep; and when the capture returns a frame, an
    unreadable reference image raises [FileNotFoundError] after exactly
    one capture and no sleep. *)
Theorem wait_for_image_errors (fuel : nat) (imagePath : string)
    (frame : option Frame) (confidence timeout : Q)
    (st : pstate screen_state (option Point)) (sb : pstate screen_state bool) :
  0 < fuel ->
  (~ ((0 <= confidence)%Q /\ (confidence <= 1)%Q) ->
   (exists st',
       appear fuel imagePath frame confidence timeout st
       = Some (Raise (AssertionError ""), st') /\
       user st' = user st /\ sleeps (trace st') = sleeps (trace st)) /\
   (exists sb',
       disappear fuel imagePath frame confidence timeout sb
       = Some (Raise (AssertionError ""), sb') /\
       user sb' = user sb /\ sleeps (trace sb') = sleeps (trace sb))) /\
  ((0 <= confidence)%Q /\ (confidence <= 1)%Q -> imread imagePath = None ->
   (forall shot, capture (shots (user st)) frame = Ret shot ->
    exists st',
       appear fuel imagePath frame confidence timeout st
       = Some (Raise (FileNotFoundError imagePath), st') /\
       shots (user st') = Datatypes.S (shots (user st)) /\
       sleeps (trace st') = sleeps (trace st)) /\
   (forall shot, capture (shots (user sb)) frame = Ret shot ->
    exists sb',
       disappear fuel imagePath frame confidence timeout sb
       = Some (Raise (FileNotFoundError imagePath), sb') /\
       shots (user sb') = Datatypes.S (shots (user sb)) /\
       sleeps (trace sb') = sleeps (trace sb))) /\
  ((0 <= confidence)%Q /\ (confidence <= 1)%Q ->
   (forall e, capture (shots (user st)) frame = Raise e ->
    exists st',
       appear fuel imagePath frame confidence timeout st
       = Some (Raise e, st') /\
       shots (user st') = Datatypes.S (shots (user st)) /\
       screen_log (user st') = screen_log (user st) ++ [EvScreenshot frame] /\
       sleeps (trace st') = sleeps (trace st)) /\
   (forall e, capture (shots (user sb)) frame = Raise e ->
    exists sb',
       disappear fuel imagePath frame confidence timeout sb
       = Some (Raise e, sb') /\
       shots (user sb') = Datatypes.S (shots (user sb)) /\
       screen_log (user sb') = screen_log (user sb) ++ [EvScreenshot frame] /\
       sleeps (trace sb') = sleeps (trace sb))).
Proof.
  intros Hfuel. destruct fuel as [|fuel]; [lia|]. split; [|split].
  - intros Hbad.
    assert (valid_confidence confidence = false) as Hv.
    { destruct (valid_confidence confidence) eqn:E; [|reflexivity].
      apply valid_confidence_iff in E. contradiction. }
    split.
    + unfold wait_for_image, wait_to_be_set, call, locate_on_screen.
      rewrite Hv. cbn [negb]. eexists. split; [reflexivity|].
      cbn [user trace]. rewrite sleeps_app. cbn. split; [reflexivity|lia].
    + unfold wait_for_image_to_disappear, wait_for.
      cbn [time_time wait_for_loop]. unfold call, not_located, locate_on_screen.
      cbn [user reads trace]. rewrite Hv. cbn [negb]. eexists.
      split; [reflexivity|]. cbn [user trace]. rewrite !sleeps_app. cbn.
      split; [reflexivity|lia].
  - intros Hok Hread. apply valid_confidence_iff in Hok. split.
    + intros shot Hshot.
      unfold wait_for_image, wait_to_be_set, call, locate_on_screen, screenshot.
      rewrite Hok, Hshot, Hread. cbn [negb]. eexists. split; [reflexivity|].
      cbn [user trace record_event shots]. rewrite sleeps_app. cbn.
      split; [reflexivity|lia].
    + intros shot Hshot.
      unfold wait_for_image_to_disappear, wait_for.
      cbn [time_time wait_for_loop].
      unfold call, not_located, locate_on_screen, screenshot.
      cbn [user reads trace]. rewrite Hok, Hshot, Hread. cbn [negb]. eexists.
      split; [reflexivity|]. cbn [user trace record_event shots].
      rewrite !sleeps_app. cbn. split; [reflexivity|lia].
  - intros Hok. apply valid_confidence_iff in Hok. split.
    + intros e He.
      unfold wait_for_image, wait_to_be_set, call, locate_on_screen, screenshot.
      rewrite Hok, He. cbn [negb]. eexists. split; [reflexivity|].
      cbn [user trace shots screen_log]. rewrite sleeps_app. cbn.
      split; [reflexivity|]. split; [reflexivity|lia].
    + intros e He.
      unfold wait_for_image_to_disappear, wait_for.
      cbn [time_time wait_for_loop].
      unfold call, not_located, locate_on_screen, screenshot.
      cbn [user reads trace]. rewrite Hok, He. cbn [negb]. eexists.
      split; [reflexivity|]. cbn [user trace shots screen_log].
      rewrite !sleeps_app. cbn. split; [reflexivity|].
      split; [reflexivity|lia].
Qed.

(** X11. When the first capture returns a frame, the reference image is
    readable and the frame matches it with a correlation above the
    confidence, [wait_for_image]
    returns the centre of the match after one capture and one evaluation,
    without sleeping, whatever the timeout and the budget of the loop. *)
Theorem wait_for_image_first_try (fuel : nat) (imagePath : string)
    (frame : option Frame) (confidence timeout : Q)
    (st : pstate screen_state (option Point))
    (shot template : ndarray) (h w c : nat) (m : Corr) (max_val : Q)
    (x y : nat) :
  (0 <= confidence)%Q -> (confidence <= 1)%Q ->
  capture (shots (user st)) frame = Ret shot ->
  imread imagePath = Some template ->
  shape template = [h; w; c] ->
  matchTemplate shot template = Ret m ->
  minMaxLoc m = (max_val, (x, y)) ->
  (confidence < max_val)%Q ->
  exists st',
    appear fuel imagePath frame confidence timeout st
    = Some (Ret (mkPoint (Z.of_nat x + Z.of_nat w / 2)
                         (Z.of_nat y + Z.of_nat h / 2)), st') /\
    shots (user st') = Datatypes.S (shots (user st)) /\
    evaluations (trace st') = evaluations (trace st) + 1 /\
    sleeps (trace st') = sleeps (trace st).
Proof.
  intros H0 H1 Hshot Hread Hshape Hm Hmax Hgt.
  assert (valid_confidence confidence = true) as Hv
    by (by apply valid_confidence_iff).
  apply Qgtb_true in Hgt.
  unfold wait_for_image, wait_to_be_set, call, locate_on_screen, screenshot.
  rewrite Hv. cbn [negb]. rewrite Hshot, Hread, Hm, Hmax, Hgt, Hshape.
  cbn [removelast fst snd]. rewrite Point_init_nonneg.
  - cbn [time_time reads user trace]. rewrite wait_to_be_set_loop_Some.
    eexists. split; [reflexivity|]. cbn [user trace record_event shots].
    rewrite !evaluations_app, !sleeps_app. cbn. repeat split; lia.
  - pose proof (Z.div_pos (Z.of_nat w) 2). lia.
  - pose proof (Z.div_pos (Z.of_nat h) 2). lia.
Qed.

End WaitImageErrors.

Lemma wait_for_image_errors_witness :
  let st := mkPState blank_screen 0 [] in
  (exists st',
      wait_for_image demo_capture demo_imread _ demo_matchTemplate
        demo_minMaxLoc demo_str_of_num (tick_clock (1 # 2)) 3
        "ref.png" None (101 # 100)%Q 5%Q st
      = Some (Raise (AssertionError ""), st') /\
      user st' = blank_screen /\ sleeps (trace st') = 0) /\
  (exists st',
      wait_for_image demo_capture demo_imread _ demo_matchTemplate
        demo_minMaxLoc demo_str_of_num (tick_clock (1 # 2)) 3
        "missing.png" None (7 # 10)%Q 5%Q st
      = Some (Raise (FileNotFoundError "missing.png"), st') /\
      shots (user st') = 1 /\ sleeps (trace st') = 0) /\
  (exists sb',
      wait_for_image_to_disappear short_capture demo_imread _ demo_matchTemplate
        demo_minMaxLoc demo_str_of_num (tick_clock (1 # 2)) 3
        "ref.png" None (7 # 10)%Q 5%Q (mkPState blank_screen 0 [])
      = Some (Raise (ValueError "not enough image data"), sb') /\
      shots (user sb') = 1 /\
      screen_log (user sb') = [] ++ [EvScreenshot None] /\
      sleeps (trace sb') = 0).
Proof.
  intros st.
  pose proof (wait_for_image_errors demo_capture demo_imread _
                demo_matchTemplate demo_minMaxLoc demo_str_of_num
                (tick_clock (1 # 2)) 3 "ref.png" None (101 # 100)%Q 5%Q st
                (mkPState blank_screen 0 []) ltac:(lia)) as [H1 _].
  pose proof (wait_for_image_errors demo_capture demo_imread _
                demo_matchTemplate demo_minMaxLoc demo_str_of_num
                (tick_clock (1 # 2)) 3 "missing.png" None (7 # 10)%Q 5%Q st
                (mkPState blank_screen 0 []) ltac:(lia)) as (_ & H2 & _).
  pose proof (wait_for_image_errors short_capture demo_imread _
                demo_matchTemplate demo_minMaxLoc demo_str_of_num
                (tick_clock (1 # 2)) 3 "ref.png" None (7 # 10)%Q 5%Q st
                (mkPState blank_screen 0 []) ltac:(lia)) as (_ & _ & H3).
  split; [|split].
  - apply H1. intros [_ H]. vm_compute in H. congruence.
  - apply (proj1 (H2 ltac:(split; vm_compute; congruence) eq_refl)
             (Color 100 200 3 [])). reflexivity.
  - apply (proj2 (H3 ltac:(split; vm_compute; congruence))). reflexivity.
Defined.

Lemma wait_for_image_first_try_witness :
  exists st',
    wait_for_image demo_capture demo_imread _ demo_matchTemplate
      demo_minMaxLoc demo_str_of_num (tick_clock (1 # 2)) 0
      "ref.png" None (99 # 100)%Q 5%Q (mkPState blank_screen 0 [])
    = Some (Ret (mkPoint (10 + 6 / 2) (20 + 4 / 2)), st') /\
    shots (user st') = 1 /\
    evaluations (trace st') = evaluations (@nil (event (option Point))) + 1 /\
    sleeps (trace st') = sleeps (@nil (event (option Point))).
Proof.
  apply (wait_for_image_first_try demo_capture demo_imread _ demo_matchTemplate
           demo_minMaxLoc demo_str_of_num (tick_clock (1 # 2)) 0 "ref.png"
           None (99 # 100)%Q 5%Q (mkPState blank_screen 0 [])
           (Color 100 200 3 []) (Color 4 6 3 []) 4 6 3
           ((995 # 1000)%Q, (10, 20)) (995 # 1000)%Q 10 20);
    try reflexivity; vm_compute; congruence.
Defined.

(** ** ocr.py: what binarization returns, and the steps together *)

Lemma binarized_is_binary {A : Type} (r : A -> bool) (px : list (list A)) :
  binary_image (map (map (fun p => if r p then 0%Z else 255%Z)) px).
Proof.
  intros row x Hrow Hx.
  apply list_elem_of_In, in_map_iff in Hrow as (row' & <- & _).
  apply list_elem_of_In, in_map_iff in Hx as (p & <- & _).
  destruct (r p); auto.
Qed.

Section BinarizeMore.
Variable gray_of : list Z -> Z.

Lemma as_uint8_Ret (l l' : list Z) : as_uint8 l = Ret l' -> l' = l.
Proof. unfold as_uint8. destruct (forallb _ _); congruence. Qed.

Lemma convert_to_bw_Ret (img out : ndarray) (spec : OCR_SPEC) :
  convert_to_bw gray_of img spec = Ret out ->
  exists h w c px,
    img = Color h w c px /\
    out = Gray h w
            (map (map (fun p => if in_range p (lowerBound spec)
                                              (upperBound spec)
                                then 0%Z else 255%Z)) px).
Proof.
  unfold convert_to_bw. intros H.
  destruct (ndim img =? 3) eqn:En; [|discriminate]. cbn [negb] in H.
  destruct (as_uint8 (lowerBound spec)) as [lo|] eqn:El; [|discriminate].
  destruct (as_uint8 (upperBound spec)) as [hi|] eqn:Eu; [|discriminate].
  apply as_uint8_Ret in El, Eu. subst lo hi.
  destruct img as [h w px|h w c px|s];
    cbn [cv2_inRange cv2_cvtColor_BGR2GRAY] in H; try discriminate.
  destruct (empty_image h w); [discriminate|].
  destruct ((length _ =? c) && (length _ =? c))%bool; [|discriminate].
  destruct ((c =? 3) || (c =? 4))%bool; [|discriminate].
  rewrite binarize_masks in H. inversion H; subst.
  by exists h, w, c, px.
Qed.

(** The exceptions of the library calls of the binarization are not
    [AssertionError]. *)
Lemma convert_to_bw_library_errors (img : ndarray) (lo hi : list Z) (e : exn) :
  as_uint8 lo = Raise e \/ cv2_inRange img lo hi = Raise e \/
  cv2_cvtColor_BGR2GRAY gray_of img = Raise e ->
  is_precondition_violation e = false.
Proof.
  intros [H|[H|H]].
  - unfold as_uint8 in H. destruct (forallb _ _); [discriminate|].
    by inversion H.
  - unfold cv2_inRange in H. destruct img as [| h w c px |]; try by inversion H.
    destruct (empty_image h w); [by inversion H|].
    destruct ((length _ =? c) && (length _ =? c))%bool; [discriminate|].
    by inversion H.
  - unfold cv2_cvtColor_BGR2GRAY in H.
    destruct img as [| h w c px |]; try by inversion H.
    destruct (empty_image h w); [by inversion H|].
    destruct ((c =? 3) || (c =? 4))%bool; [discriminate|]. by inversion H.
Qed.

(** X12. Whatever the image and the specification, a binarization that
    returns gives a single-channel image with the height, the width and the
    number of rows of its input in which every pixel is 0 or 255; and it
    raises [AssertionError] exactly on arrays that do not have three
    dimensions. *)
Theorem convert_to_bw_binary (img : ndarray) (spec : OCR_SPEC) :
  (forall out, convert_to_bw gray_of img spec = Ret out ->
     exists h w c px px',
       img = Color h w c px /\ out = Gray h w px' /\
       length px' = length px /\ binary_image px') /\
  ((exists msg, convert_to_bw gray_of img spec = Raise (AssertionError msg))
   <-> ndim img <> 3).
Proof.
  split.
  - intros out H. apply convert_to_bw_Ret in H as (h & w & c & px & -> & ->).
    eexists h, w, c, px, _. split; [reflexivity|]. split; [reflexivity|].
    split; [by rewrite length_map|apply binarized_is_binary].
  - unfold convert_to_bw. destruct (ndim img =? 3) eqn:En; cbn [negb].
    + apply Nat.eqb_eq in En. split; [|congruence]. intros [msg H]. exfalso.
      destruct (as_uint8 (lowerBound spec)) as [lo|e] eqn:El.
      2:{ inversion H; subst.
          pose proof (convert_to_bw_library_errors img _ [] _ (or_introl El)).
          discriminate. }
      destruct (as_uint8 (upperBound spec)) as [hi|e] eqn:Eu.
      2:{ inversion H; subst.
          pose proof (convert_to_bw_library_errors img _ [] _ (or_introl Eu)).
          discriminate. }
      destruct (cv2_inRange img lo hi) as [[? ? mask|? ? ? ?|?]|e] eqn:Ei;
        try discriminate.
      * destruct (cv2_cvtColor_BGR2GRAY gray_of img) as [[? ? g|? ? ? ?|?]|e]
          eqn:Ec; try discriminate.
        inversion H; subst.
        pose proof (convert_to_bw_library_errors img [] [] _
                      (or_intror (or_intror Ec))).
        discriminate.
      * inversion H; subst.
        pose proof (convert_to_bw_library_errors img lo hi _
                      (or_intror (or_introl Ei))).
        discriminate.
    + apply Nat.eqb_neq in En. split; [done|]. intros _. by eexists.
Qed.

End BinarizeMore.

Lemma convert_to_bw_binary_witness :
  exists px',
    convert_to_bw demo_gray_of
      (Color 1 2 3 [[[0; 0; 0]; [200; 200; 200]]]%Z)
      (mkSpec SINGLE_WORD [0; 0; 0]%Z [50; 50; 50]%Z) = Ret (Gray 1 2 px') /\
    length px' = 1 /\ binary_image px'.
Proof.
  destruct (proj1 (convert_to_bw_binary demo_gray_of
                     (Color 1 2 3 [[[0; 0; 0]; [200; 200; 200]]]%Z)
                     (mkSpec SINGLE_WORD [0; 0; 0]%Z [50; 50; 50]%Z))
              (Gray 1 2 [[0; 255]]%Z) eq_refl)
    as (h & w & c & px & px' & Himg & Hout & Hlen & Hbin).
  exists px'. inversion Himg; subst. inversion Hout; subst.
  split; [reflexivity|]. split; assumption.
Defined.

Section PipelineFacts.
Variable gray_of : list Z -> Z.
Variable resize_px : ndarray -> Q -> Q -> interpolation -> list (list Z).
Variable cv2_erode cv2_dilate : ndarray -> ndarray -> nat -> ndarray.
Variable cv2_GaussianBlur : ndarray -> nat * nat -> Q -> ndarray.
Variable image_to_string : ndarray -> string -> string.
Variable re_sub : string -> string -> string -> string.
Variable str_strip : string -> string.





End PipelineFacts.


(** ** ocr.py: cropping and padding undo each other *)

Lemma bounding_box_unique (px : list (list Z)) (a b c d a' b' c' d' : nat) :
  bounding_box px a b c d -> bounding_box px a' b' c' d' ->
  a = a' /\ b = b' /\ c = c' /\ d = d'.
Proof.
  intros (Hin & [ja Ha] & [jb Hb] & [ic Hc] & [id Hd])
         (Hin' & [ja' Ha'] & [jb' Hb'] & [ic' Hc'] & [id' Hd']).
  pose proof (Hin _ _ Ha'). pose proof (Hin _ _ Hb').
  pose proof (Hin _ _ Hc'). pose proof (Hin _ _ Hd').
  pose proof (Hin' _ _ Ha). pose proof (Hin' _ _ Hb).
  pose proof (Hin' _ _ Hc). pose proof (Hin' _ _ Hd). lia.
Qed.

Lemma crop_by_box (h w : nat) (px : list (list Z)) (r0 r1 c0 c1 : nat) :
  wf_gray h w px -> bounding_box px r0 r1 c0 c1 ->
  r0 <= r1 < h /\ c0 <= c1 < w /\
  crop_white_border (Gray h w px)
  = Gray (r1 + 1 - r0) (c1 + 1 - c0) (block px r0 r1 c0 c1).
Proof.
  intros Hwf Hbox. pose proof Hbox as (_ & [j0 H0] & _).
  destruct (crop_bounding_box h w px r0 j0 Hwf H0)
    as (a & b & c & d & Hbox' & Hr & Hc & Hcrop).
  destruct (bounding_box_unique _ _ _ _ _ _ _ _ _ Hbox Hbox')
    as (-> & -> & -> & ->).
  by repeat split; try lia.
Qed.

Lemma gray_ext (h w : nat) (px px' : list (list Z)) :
  wf_gray h w px -> wf_gray h w px' ->
  (forall i j, i < h -> j < w -> pixel px i j = pixel px' i j) ->
  px = px'.
Proof.
  intros [Hh Hw] [Hh' Hw'] Hpix. apply list_eq. intros i.
  destruct (decide (i < h)) as [Hi|Hi].
  - destruct (lookup_lt_is_Some_2 px i ltac:(lia)) as [row Hrow].
    destruct (lookup_lt_is_Some_2 px' i ltac:(lia)) as [row' Hrow'].
    rewrite Hrow, Hrow'. f_equal.
    rewrite Forall_forall in Hw, Hw'.
    pose proof (Hw row (list_elem_of_lookup_2 _ _ _ Hrow)) as Hl.
    pose proof (Hw' row' (list_elem_of_lookup_2 _ _ _ Hrow')) as Hl'.
    apply list_eq. intros j. destruct (decide (j < w)) as [Hj|Hj].
    + specialize (Hpix i j Hi Hj). unfold pixel in Hpix.
      by rewrite Hrow, Hrow' in Hpix.
    + by rewrite !lookup_ge_None_2 by lia.
  - by rewrite !lookup_ge_None_2 by lia.
Qed.

Lemma crop_tight (h w : nat) (px : list (list Z)) :
  wf_gray h w px ->
  (exists j, nonwhite px 0 j) -> (exists j, nonwhite px (h - 1) j) ->
  (exists i, nonwhite px i 0) -> (exists i, nonwhite px i (w - 1)) ->
  crop_white_border (Gray h w px) = Gray h w px.
Proof.
  intros Hwf [ja Ha] [jb Hb] [ic Hc] [id Hd].
  destruct (crop_bounding_box h w px 0 ja Hwf Ha)
    as (r0 & r1 & c0 & c1 & (Hin & _) & Hr & Hcc & Hcrop).
  pose proof (Hin _ _ Ha) as [? _]. pose proof (Hin _ _ Hb) as [? _].
  pose proof (Hin _ _ Hc) as [_ ?]. pose proof (Hin _ _ Hd) as [_ ?].
  assert (r0 = 0) as -> by lia. assert (c0 = 0) as -> by lia.
  assert (r1 = h - 1) as -> by lia. assert (c1 = w - 1) as -> by lia.
  rewrite Hcrop. destruct Hwf as [Hh Hw].
  replace (h - 1 + 1 - 0) with h by lia.
  replace (w - 1 + 1 - 0) with w at 1 by lia.
  f_equal. rewrite drop_0, take_ge by lia. by apply rows_untouched.
Qed.

Lemma crop_twice (h w : nat) (px : list (list Z)) :
  wf_gray h w px ->
  crop_white_border (crop_white_border (Gray h w px))
  = crop_white_border (Gray h w px).
Proof.
  intros Hwf.
  assert ((forall i j, ~ nonwhite px i j) \/ exists i j, nonwhite px i j)
    as [Hwhite|(i0 & j0 & H0)].
  { destruct (where_false (all_white_rows px)) as [|r rs] eqn:E.
    - left. intros i j Hij.
      assert (is_false_at (all_white_rows px) i = true) as Hi
        by (apply row_not_white; by exists j).
      rewrite (proj1 (where_false_nil _) E) in Hi. discriminate.
    - right. assert (head (where_false (all_white_rows px)) = Some r) as Hh
        by (by rewrite E).
      apply where_false_head in Hh as [Hr _].
      apply row_not_white in Hr as [j Hj]. by exists r, j. }
  - by rewrite !(crop_all_white h w px Hwhite).
  - destruct (crop_bounding_box h w px i0 j0 Hwf H0)
      as (r0 & r1 & c0 & c1 & Hbox & Hr & Hc & Hcrop).
    pose proof (block_pixels h w px r0 r1 c0 c1 Hwf Hr Hc) as [Hbwf Hbpix].
    cbv zeta in Hbwf, Hbpix. rewrite Hcrop.
    destruct Hbox as (Hin & [ja Ha] & [jb Hb] & [ic Hci] & [id Hd]).
    pose proof (Hin _ _ Ha) as [_ ?]. pose proof (Hin _ _ Hb) as [_ ?].
    pose proof (Hin _ _ Hci) as [? _]. pose proof (Hin _ _ Hd) as [? _].
    apply crop_tight; [exact Hbwf| | | |].
    + exists (ja - c0). destruct Ha as (x & Hx & Hne). exists x.
      split; [|exact Hne]. rewrite Hbpix by lia.
      by replace (r0 + 0) with r0 by lia; replace (c0 + (ja - c0)) with ja by lia.
    + exists (jb - c0). destruct Hb as (x & Hx & Hne). exists x.
      split; [|exact Hne]. rewrite Hbpix by lia.
      by replace (r0 + (r1 + 1 - r0 - 1)) with r1 by lia;
         replace (c0 + (jb - c0)) with jb by lia.
    + exists (ic - r0). destruct Hci as (x & Hx & Hne). exists x.
      split; [|exact Hne]. rewrite Hbpix by lia.
      by replace (r0 + (ic - r0)) with ic by lia; replace (c0 + 0) with c0 by lia.
    + exists (id - r0). destruct Hd as (x & Hx & Hne). exists x.
      split; [|exact Hne]. rewrite Hbpix by lia.
      by replace (r0 + (id - r0)) with id by lia;
         replace (c0 + (c1 + 1 - c0 - 1)) with c1 by lia.
Qed.

(** X14. Cropping is idempotent: on an array of shape [(h, w)], cropping
    the cropped image changes nothing. *)
Theorem crop_white_border_idempotent (h w : nat) (px : list (list Z)) :
  wf_gray h w px ->
  crop_white_border (crop_white_border (Gray h w px))
  = crop_white_border (Gray h w px).
Proof. apply crop_twice. Qed.

Lemma crop_white_border_idempotent_witness :
  crop_white_border (crop_white_border (Gray 3 4 framed_px))
  = crop_white_border (Gray 3 4 framed_px).
Proof.
  apply crop_white_border_idempotent. split; [reflexivity|repeat constructor].
Defined.

Lemma nonwhite_padded (n h w : nat) (px padded : list (list Z)) :
  wf_gray h w px ->
  (forall i j, i < n + h + n -> j < n + w + n ->
     pixel padded i j
     = if decide (n <= i < n + h /\ n <= j < n + w)
       then pixel px (i - n) (j - n) else Some 255%Z) ->
  wf_gray (n + h + n) (n + w + n) padded ->
  forall i j, nonwhite padded i j
              <-> n <= i /\ n <= j /\ nonwhite px (i - n) (j - n).
Proof.
  intros Hwf Hpix Hpwf i j. split.
  - intros Hnw. pose proof (nonwhite_in_range _ _ _ _ _ Hpwf Hnw) as [Hi Hj].
    destruct Hnw as (x & Hx & Hne). rewrite Hpix in Hx by assumption.
    destruct (decide _) as [[? ?]|]; [|congruence].
    split; [lia|]. split; [lia|]. by exists x.
  - intros (Hi & Hj & Hnw).
    pose proof (nonwhite_in_range _ _ _ _ _ Hwf Hnw) as [? ?].
    destruct Hnw as (x & Hx & Hne). exists x. split; [|exact Hne].
    rewrite Hpix by lia. destruct (decide _) as [|Hno]; [exact Hx|lia].
Qed.

(** X15. Cropping removes what padding adds: on an array of shape [(h, w)]
    that holds a pixel that is not white, cropping the array padded with
    white on every side gives the same image as cropping the array itself.
    So the crop-and-pad part of the resolution step, applied to its own
    result, leaves it unchanged. *)
Theorem crop_undoes_pad (n h w : nat) (px : list (list Z)) (i0 j0 : nat) :
  wf_gray h w px -> nonwhite px i0 j0 ->
  crop_white_border (np_pad n 255 (Gray h w px))
  = crop_white_border (Gray h w px) /\
  np_pad n 255
    (crop_white_border (np_pad n 255 (crop_white_border (Gray h w px))))
  = np_pad n 255 (crop_white_border (Gray h w px)).
Proof.
  assert (forall h w px i0 j0,
             wf_gray h w px -> nonwhite px i0 j0 ->
             crop_white_border (np_pad n 255 (Gray h w px))
             = crop_white_border (Gray h w px)) as Hmain.
  { clear. intros h w px i0 j0 Hwf H0.
    destruct (crop_bounding_box h w px i0 j0 Hwf H0)
      as (r0 & r1 & c0 & c1 & Hbox & Hr & Hc & Hcrop).
    destruct (pad_pixels n 255 h w px Hwf) as (Hpad & Hpwf & Hppix).
    cbv zeta in Hpad, Hpwf, Hppix. rewrite Hpad. clear Hpad.
    set (padded := replicate n (replicate (n + w + n) 255%Z) ++ _) in *.
    pose proof (nonwhite_padded n h w px padded Hwf Hppix Hpwf) as Hnw.
    assert (bounding_box padded (n + r0) (n + r1) (n + c0) (n + c1)) as Hpbox.
    { destruct Hbox as (Hin & [ja Ha] & [jb Hb] & [ic Hci] & [id Hd]).
      split; [|split; [|split; [|split]]].
      - intros i j Hij. apply Hnw in Hij as (Hi & Hj & Hij).
        apply Hin in Hij. lia.
      - exists (n + ja). apply Hnw. split; [lia|]. split; [lia|].
        by replace (n + r0 - n) with r0 by lia;
           replace (n + ja - n) with ja by lia.
      - exists (n + jb). apply Hnw. split; [lia|]. split; [lia|].
        by replace (n + r1 - n) with r1 by lia;
           replace (n + jb - n) with jb by lia.
      - exists (n + ic). apply Hnw. split; [lia|]. split; [lia|].
        by replace (n + ic - n) with ic by lia;
           replace (n + c0 - n) with c0 by lia.
      - exists (n + id). apply Hnw. split; [lia|]. split; [lia|].
        by replace (n + id - n) with id by lia;
           replace (n + c1 - n) with c1 by lia. }
    destruct (crop_by_box _ _ _ _ _ _ _ Hpwf Hpbox) as (Hpr & Hpc & ->).
    rewrite Hcrop.
    replace (n + r1 + 1 - (n + r0)) with (r1 + 1 - r0) by lia.
    replace (n + c1 + 1 - (n + c0)) with (c1 + 1 - c0) by lia.
    f_equal.
    pose proof (block_pixels _ _ padded _ _ _ _ Hpwf Hpr Hpc) as [Hb1 Hp1].
    pose proof (block_pixels h w px r0 r1 c0 c1 Hwf Hr Hc) as [Hb2 Hp2].
    cbv zeta in Hb1, Hp1, Hb2, Hp2. fold (block padded (n + r0) (n + r1) (n + c0) (n + c1)) in Hb1, Hp1.
    replace (n + r1 + 1 - (n + r0)) with (r1 + 1 - r0) in Hb1, Hp1 by lia.
    replace (n + c1 + 1 - (n + c0)) with (c1 + 1 - c0) in Hb1, Hp1 by lia.
    eapply gray_ext; [exact Hb1|exact Hb2|].
    intros i j Hi Hj. rewrite Hp1, Hp2 by assumption.
    rewrite Hppix by lia. destruct (decide _) as [|Hno]; [|lia].
    f_equal; lia. }
  intros Hwf H0. split; [by eapply Hmain|].
  destruct (crop_bounding_box h w px i0 j0 Hwf H0)
    as (r0 & r1 & c0 & c1 & Hbox & Hr & Hc & Hcrop).
  pose proof (block_pixels h w px r0 r1 c0 c1 Hwf Hr Hc) as [Hbwf Hbpix].
  cbv zeta in Hbwf, Hbpix. rewrite Hcrop.
  destruct Hbox as (Hin & [ja Ha] & _).
  assert (nonwhite (map (fun row => take (c1 + 1 - c0) (drop c0 row))
                      (take (r1 + 1 - r0) (drop r0 px))) 0 (ja - c0)) as Hnw.
  { pose proof (Hin _ _ Ha) as [_ ?].
    destruct Ha as (x & Hx & Hne). exists x. split; [|exact Hne].
    rewrite Hbpix by lia.
    by replace (r0 + 0) with r0 by lia; replace (c0 + (ja - c0)) with ja by lia. }
  rewrite (Hmain _ _ _ _ _ Hbwf Hnw).
  rewrite <- Hcrop. by rewrite crop_twice.
Qed.

Lemma crop_undoes_pad_witness :
  crop_white_border (np_pad 15 255 (Gray 3 4 framed_px))
  = crop_white_border (Gray 3 4 framed_px) /\
  np_pad 15 255
    (crop_white_border (np_pad 15 255 (crop_white_border (Gray 3 4 framed_px))))
  = np_pad 15 255 (crop_white_border (Gray 3 4 framed_px)).
Proof.
  apply (crop_undoes_pad 15 3 4 framed_px 1 1).
  - split; [reflexivity|repeat constructor].
  - exists 0%Z. split; [reflexivity|discriminate].
Defined.

(** ** __init__.py: what the registry keeps *)

Lemma XControl_init_Ret (i : string) (w h : option Z) (x : XControl) :
  XControl_init i w h = Ret x -> handle_ok i x.
Proof.
  unfold XControl_init, Display_init. intros H.
  destruct w as [w|], h as [h|]; try discriminate.
  destruct (String.prefix ":" i) eqn:Ep; [|discriminate].
  destruct (0 <? w)%Z eqn:Ew; [|discriminate].
  destruct (0 <? h)%Z eqn:Eh; [|discriminate].
  cbn in H. inversion H; subst. cbn.
  apply Z.ltb_lt in Ew, Eh. by repeat split.
Qed.

Lemma get_instance_lookup (i : string) (w h : option Z) (r r' : registry)
    (x : XControl) :
  get_instance (Some i) w h r = (Ret x, r') -> instances r' !! i = Some x.
Proof.
  unfold get_instance. intros H.
  destruct (instances r !! i) as [y|] eqn:Ei.
  - inversion H; subst. exact Ei.
  - destruct (_ || _)%bool; [|discriminate].
    destruct (XControl_init i w h); [|discriminate].
    inversion H; subst. cbn. apply lookup_insert_eq.
Qed.

(** X16. Asking twice for the same display gives the same handle: once
    [get_instance] has returned a handle for an identifier, every later
    [get_instance] for that identifier returns that handle and leaves the
    registry as it is, whatever width and height it is given, also in
    unique-display mode. *)
Theorem get_instance_same_handle (i : string) (w h w' h' : option Z)
    (r r' : registry) (x : XControl) :
  get_instance (Some i) w h r = (Ret x, r') ->
  instances r' !! i = Some x /\
  get_instance (Some i) w' h' r' = (Ret x, r').
Proof.
  intros H. apply get_instance_lookup in H. split; [exact H|].
  unfold get_instance. by rewrite H.
Qed.

Lemma get_instance_same_handle_witness :
  let r := run_calls demo_calls initial_registry in
  exists x,
    get_instance (Some ":1") (Some 800%Z) (Some 600%Z) r = (Ret x, r) /\
    instances r !! ":1" = Some x /\
    get_instance (Some ":1") None (Some (-5)%Z) r = (Ret x, r).
Proof.
  intros r.
  destruct (get_instance (Some ":1") (Some 800%Z) (Some 600%Z) r)
    as [[x|e] r'] eqn:E; [|vm_compute in E; discriminate].
  assert (r' = r) as ->.
  { unfold get_instance in E.
    destruct (instances r !! ":1") eqn:El; [by inversion E|].
    vm_compute in El. discriminate. }
  exists x. split; [reflexivity|].
  exact (get_instance_same_handle ":1" _ _ None (Some (-5)%Z) r r x E).
Defined.

(** X17. A call that raises changes nothing: when [config] or
    [get_instance] ends with an exception, the registry and the mode are
    what they were before the call. *)
Theorem registry_call_atomic (r : registry) :
  (forall unique e r', config unique r = (Raise e, r') -> r' = r) /\
  (forall id w h e r', get_instance id w h r = (Raise e, r') -> r' = r).
Proof.
  split.
  - intros unique e r' H. unfold config in H.
    destruct (_ && _)%bool; by inversion H.
  - intros id w h e r' H. unfold get_instance in H.
    destruct id as [i|].
    + destruct (instances r !! i); [discriminate|].
      destruct (_ || _)%bool; [|by inversion H].
      destruct (XControl_init i w h); [discriminate|by inversion H].
    + destruct (_ && _)%bool; [|by inversion H].
      destruct ((map_to_list (instances r)).*2); by inversion H.
Qed.

Lemma registry_call_atomic_witness :
  let r := run_calls demo_calls initial_registry in
  snd (get_instance (Some ":2") (Some 800%Z) (Some 600%Z) r) = r /\
  snd (config true (run_calls two_displays initial_registry))
  = run_calls two_displays initial_registry.
Proof.
  intros r. split.
  - destruct (get_instance (Some ":2") (Some 800%Z) (Some 600%Z) r)
      as [[x|e] r'] eqn:E; [vm_compute in E; discriminate|].
    exact (proj2 (registry_call_atomic r) _ _ _ _ _ E).
  - destruct (config true (run_calls two_displays initial_registry))
      as [[u|e] r'] eqn:E; [vm_compute in E; discriminate|].
    exact (proj1 (registry_call_atomic _) _ _ _ E).
Defined.

Lemma run_call_grows (c : registry_call) (r : registry) (i : string)
    (x : XControl) :
  instances r !! i = Some x -> instances (run_call c r) !! i = Some x.
Proof.
  intros Hi. destruct c as [u|id w h]; cbn [run_call].
  - unfold config. by destruct (_ && _)%bool.
  - unfold get_instance. destruct id as [j|].
    + destruct (instances r !! j) as [y|] eqn:Ej; [exact Hi|].
      destruct (_ || _)%bool; [|exact Hi].
      destruct (XControl_init j w h); [|exact Hi].
      cbn. rewrite lookup_insert_ne; [exact Hi|congruence].
    + destruct (_ && _)%bool; [|exact Hi].
      by destruct ((map_to_list (instances r)).*2).
Qed.

Lemma run_call_handles_ok (c : registry_call) (r : registry) :
  handles_ok r -> handles_ok (run_call c r).
Proof.
  intros Hok. destruct c as [u|id w h]; cbn [run_call].
  - unfold config. by destruct (_ && _)%bool.
  - unfold get_instance. destruct id as [j|].
    + destruct (instances r !! j) as [y|] eqn:Ej; [exact Hok|].
      destruct (_ || _)%bool; [|exact Hok].
      destruct (XControl_init j w h) as [x|e] eqn:Ex; [|exact Hok].
      unfold handles_ok. cbn [snd instances]. intros i z Hz.
      destruct (decide (j = i)) as [->|Hne].
      * rewrite lookup_insert_eq in Hz. inversion Hz; subst.
        by apply XControl_init_Ret in Ex.
      * rewrite lookup_insert_ne in Hz by done. by apply Hok.
    + destruct (_ && _)%bool; [|exact Hok].
      by destruct ((map_to_list (instances r)).*2).
Qed.

(** X18. The registry only grows: through any sequence of [config] and
    [get_instance] calls a registered handle stays registered under its
    identifier and is never replaced, and the number of handles never
    goes down. *)
Theorem registry_only_grows (cs : list registry_call) (r : registry) :
  (forall i x, instances r !! i = Some x ->
               instances (run_calls cs r) !! i = Some x) /\
  size (instances r) <= size (instances (run_calls cs r)).
Proof.
  assert (forall i x, instances r !! i = Some x ->
                      instances (run_calls cs r) !! i = Some x) as Hkeep.
  { revert r. induction cs as [|c cs IH]; intros r i x Hi; [exact Hi|].
    cbn [run_calls fold_left]. apply IH. by apply run_call_grows. }
  split; [exact Hkeep|].
  rewrite <- !size_dom. apply subseteq_size.
  intros i Hi. apply elem_of_dom in Hi as [x Hx]. apply elem_of_dom.
  exists x. by apply Hkeep.
Qed.

Lemma registry_only_grows_witness :
  let r := run_calls demo_calls initial_registry in
  exists x, instances r !! ":1" = Some x /\
            instances (run_calls two_displays r) !! ":1" = Some x.
Proof.
  intros r.
  destruct (instances r !! ":1") as [x|] eqn:E; [|vm_compute in E; discriminate].
  exists x. split; [reflexivity|].
  exact (proj1 (registry_only_grows two_displays r) ":1" x E).
Defined.

(** X19. After any sequence of [config] and [get_instance] calls from the
    initial registry, every handle is registered under the identifier of
    its own display, that identifier starts with a colon, and the width
    and the height of the display are positive. *)
Theorem registry_handles_ok (cs : list registry_call) :
  handles_ok (run_calls cs initial_registry).
Proof.
  assert (forall r, handles_ok r -> handles_ok (run_calls cs r)) as H.
  { induction cs as [|c cs IH]; intros r Hr; [exact Hr|].
    cbn [run_calls fold_left]. apply IH. by apply run_call_handles_ok. }
  apply H. intros i x Hi. cbn in Hi. by rewrite lookup_empty in Hi.
Qed.

Lemma registry_handles_ok_witness :
  exists x, instances (run_calls demo_calls initial_registry) !! ":1" = Some x /\
            handle_ok ":1" x.
Proof.
  destruct (instances (run_calls demo_calls initial_registry) !! ":1")
    as [x|] eqn:E; [|vm_compute in E; discriminate].
  exists x. split; [reflexivity|].
  exact (registry_handles_ok demo_calls ":1" x E).
Defined.

(** ** display.py: where the lenient policy of [run_command] ends *)

Section RunCommandRaises.
Variable shlex_split : string -> outcome (list string).
Variable Popen : list string -> outcome Process.

Lemma decode_utf8_cases (b : string) :
  (valid_utf8 b = true /\ decode_utf8 b = Ret b) \/
  (valid_utf8 b = false /\ decode_utf8 b = Raise UnicodeDecodeError).
Proof. unfold decode_utf8. destruct (valid_utf8 b); auto. Qed.

Lemma run_command_exited (cmd : string) (argv : list string) (rc : Z)
    (out err : string) :
  shlex_split cmd = Ret argv ->
  Popen argv = Ret (mkProcess (Some rc) out err) ->
  fst (run_command shlex_split Popen cmd true)
  = if (valid_utf8 out && ((rc =? 0)%Z || valid_utf8 err))%bool
    then Ret (if ((rc =? 0)%Z || negb (String.length err =? 0))%bool
              then out else "")
    else Raise UnicodeDecodeError.
Proof.
  intros Hs Hp. unfold run_command. rewrite Hs, Hp.
  cbn [wait5 read_stderr read_stdout stdout stderr fst].
  unfold decode_utf8.
  destruct (rc =? 0)%Z; cbn [negb orb].
  - destruct (valid_utf8 out); reflexivity.
  - destruct (valid_utf8 err); cbn [andb].
    + destruct (String.length err =? 0); cbn [negb stdout fst].
      * destruct (valid_utf8 out); reflexivity.
      * destruct (valid_utf8 out); reflexivity.
    + by rewrite andb_false_r.
Qed.

(** X20. [run_command] raises in three cases only: the command line cannot
    be split, the process cannot be spawned (the exception of [shlex.split]
    or [Popen] comes out as it is, whether the caller waits or not), or
    the caller waits, the process exits and a stream that is decoded is not
    UTF-8: the standard output, or the error output after a non-zero
    status. A failing or timed-out wait never raises. *)
Theorem run_command_raises_iff (cmd : string) (waitFor : bool) (e : exn) :
  fst (run_command shlex_split Popen cmd waitFor) = Raise e <->
  shlex_split cmd = Raise e \/
  (exists argv, shlex_split cmd = Ret argv /\ Popen argv = Raise e) \/
  (exists argv rc out err,
      shlex_split cmd = Ret argv /\
      Popen argv = Ret (mkProcess (Some rc) out err) /\
      waitFor = true /\ e = UnicodeDecodeError /\
      (valid_utf8 out = false \/ (rc <> 0%Z /\ valid_utf8 err = false))).
Proof.
  destruct (shlex_split cmd) as [argv|e1] eqn:Es.
  2:{ unfold run_command. rewrite Es. cbn [fst]. split.
      - intros H. left. by inversion H.
      - intros [H|[(a & H & _)|(a & rc & o & er & H & _)]];
          [by inversion H|discriminate H|discriminate H]. }
  destruct (Popen argv) as [[w5 out err]|e2] eqn:Ep.
  2:{ unfold run_command. rewrite Es, Ep. cbn [fst]. split.
      - intros H. right; left. exists argv. split; [reflexivity|].
        inversion H; subst e. exact Ep.
      - intros [H|[(a & Ha & Hb)|(a & rc & o & er & Ha & Hb & _)]];
          [discriminate H| |].
        + inversion Ha; subst a. rewrite Ep in Hb. by inversion Hb.
        + inversion Ha; subst a. rewrite Ep in Hb. discriminate Hb. }
  destruct waitFor.
  2:{ unfold run_command. rewrite Es, Ep. cbn [fst]. split.
      - intros H. discriminate H.
      - intros [H|[(a & Ha & Hb)|(a & rc & o & er & _ & _ & Hc & _)]];
          [discriminate H| |discriminate Hc].
        inversion Ha; subst a. rewrite Ep in Hb. discriminate Hb. }
  destruct w5 as [rc|].
  2:{ unfold run_command. rewrite Es, Ep. cbn [fst wait5]. split.
      - intros H. discriminate H.
      - intros [H|[(a & Ha & Hb)|(a & rc & o & er & Ha & Hb & _)]];
          [discriminate H| |].
        + inversion Ha; subst a. rewrite Ep in Hb. discriminate Hb.
        + inversion Ha; subst a. rewrite Ep in Hb. discriminate Hb. }
  rewrite (run_command_exited cmd argv rc out err Es Ep). split.
  - intros H. right; right. exists argv, rc, out, err.
    split; [reflexivity|]. split; [exact Ep|]. split; [reflexivity|].
    destruct (valid_utf8 out) eqn:Ho; cbn [andb] in H.
    + destruct (rc =? 0)%Z eqn:Erc; cbn [orb] in H; [discriminate H|].
      destruct (valid_utf8 err) eqn:He; [discriminate H|].
      inversion H; subst e. split; [reflexivity|]. right.
      split; [|reflexivity]. by apply Z.eqb_neq.
    + inversion H; subst e. split; [reflexivity|]. by left.
  - intros [H|[(a & Ha & Hb)|(a & rc' & o & er & Ha & Hb & _ & He & Hv)]];
      [discriminate H| |].
    + inversion Ha; subst a. rewrite Ep in Hb. discriminate Hb.
    + inversion Ha; subst a. rewrite Ep in Hb. inversion Hb; subst rc' o er.
      subst e. destruct Hv as [Ho|[Hrc Her]].
      * by rewrite Ho.
      * apply Z.eqb_neq in Hrc. rewrite Hrc, Her. cbn [orb].
        by rewrite andb_false_r.
Qed.

End RunCommandRaises.

Lemma run_command_raises_iff_witness :
  fst (run_command demo_split missing_Popen "xdotool key a" false)
  = Raise (FileNotFoundError "xdotool").
Proof.
  apply (proj2 (run_command_raises_iff demo_split missing_Popen
                  "xdotool key a" false (FileNotFoundError "xdotool"))).
  right; left. exists ["xdotool key a"]. split; reflexivity.
Defined.

(** ** display.py: the environment of a launch *)

Section LaunchFacts.
Variable shlex_split : string -> outcome (list string).
Variable spawn : nat -> option (gmap string string) -> list string
                 -> outcome Process.
Variable wait_forever : Process -> option Z.






(** [Display.__init__] sets the display in the environment. *)
Lemma Display_start_pinned (environ : gmap string string) (id : string)
    (w h : option Z) (rt : display_rt) :
  Display_start environ id w h = Ret rt -> display_pinned rt.
Proof.
  unfold Display_start, Display_init. intros H.
  destruct w as [w|], h as [h|]; try discriminate.
  destruct (_ && _ && _)%bool; [|discriminate].
  inversion H; subst. unfold display_pinned. cbn. apply lookup_insert_eq.
Qed.

End LaunchFacts.


(** ** display.py: the channel order of a screenshot *)




Section CaptureFacts.
Variable get_image : Z -> Z -> Z -> Z -> outcome (list Z).
Variable timestamp : string.
Variable path_join : string -> string -> string.
Variable imwrite : string -> ndarray -> bool.
Variable repr_frame : Frame -> string.




End CaptureFacts.


(** ** __init__.py: a frame of the screen always passes the guard *)

Section FacadeFacts.
Variable get_image : Z -> Z -> Z -> Z -> outcome (list Z).
Variable timestamp : string.
Variable path_join : string -> string -> string.
Variable imwrite : string -> ndarray -> bool.
Variable repr_frame : Frame -> string.
Variable gray_of : list Z -> Z.
Variable resize_px : ndarray -> Q -> Q -> interpolation -> list (list Z).
Variable cv2_erode cv2_dilate : ndarray -> ndarray -> nat -> ndarray.
Variable cv2_GaussianBlur : ndarray -> nat * nat -> Q -> ndarray.
Variable image_to_string : ndarray -> string -> string.
Variable re_sub : string -> string -> string -> string.
Variable str_strip : string -> string.


End FacadeFacts.


(** ** screen.py: reading the position of the mouse *)

Lemma py_split_nonempty (sep : Ascii.ascii) (s : string) : py_split sep s <> [].
Proof.
  destruct s as [|c s]; cbn; [discriminate|].
  destruct (Ascii.eqb c sep); [discriminate|].
  destruct (py_split sep s); discriminate.
Qed.

Lemma py_split_plain (sep : Ascii.ascii) (a : string) :
  sep ∉ chars a -> py_split sep a = [a].
Proof.
  induction a as [|c a IH]; intros Hno; [reflexivity|].
  cbn [py_split]. cbn in Hno. apply not_elem_of_cons in Hno as [Hc Ha].
  destruct (Ascii.eqb c sep) eqn:E; [apply Ascii.eqb_eq in E; congruence|].
  by rewrite (IH Ha).
Qed.

Lemma py_split_app (sep : Ascii.ascii) (a rest : string) :
  sep ∉ chars a ->
  py_split sep (a +:+ String sep rest) = a :: py_split sep rest.
Proof.
  induction a as [|c a IH]; intros Hno.
  - simpl. by rewrite Ascii.eqb_refl.
  - simpl. cbn in Hno.
    apply not_elem_of_cons in Hno as [Hc Ha].
    destruct (Ascii.eqb c sep) eqn:E; [apply Ascii.eqb_eq in E; congruence|].
    by rewrite (IH Ha).
Qed.

Lemma py_split_head_chars (sep c : Ascii.ascii) (s token : string) :
  head (py_split sep s) = Some token -> c ∈ chars token -> c ∈ chars s.
Proof.
  revert token. induction s as [|d s IH]; intros token Hh Hc.
  - cbn in Hh. inversion Hh; subst. exact Hc.
  - cbn [py_split] in Hh. destruct (Ascii.eqb d sep).
    + cbn in Hh. inversion Hh; subst. cbn in Hc. by apply elem_of_nil in Hc.
    + destruct (py_split sep s) as [|piece pieces] eqn:E.
      * by destruct (py_split_nonempty sep s).
      * cbn in Hh. inversion Hh; subst. cbn in Hc |- *.
        apply elem_of_cons in Hc as [->|Hc]; [apply list_elem_of_here|].
        apply list_elem_of_further. by apply (IH piece).
Qed.

Section MouseFacts.
Variable shlex_split : string -> outcome (list string).
Variable spawn : nat -> option (gmap string string) -> list string
                 -> outcome Process.
Variable py_int : string -> outcome Z.
Variable clock : nat -> Q.

Lemma keyed_not_elem (sep : Ascii.ascii) (key v : string) :
  sep ∉ chars key -> sep ∉ chars v -> sep ∉ chars (key +:+ v).
Proof.
  induction key as [|c key IH]; intros Hk Hv; [exact Hv|].
  simpl in *. apply not_elem_of_cons in Hk as [Hc Hk].
  apply not_elem_of_cons. split; [exact Hc|]. by apply IH.
Qed.

Lemma py_split_keyed (sep : Ascii.ascii) (key v : string) :
  sep ∉ chars key -> sep ∉ chars v ->
  py_split sep (key +:+ String sep v) = [key; v].
Proof.
  intros Hk Hv. by rewrite (py_split_app sep key v Hk), (py_split_plain sep v Hv).
Qed.

Lemma parse_location_fields (a b rest : string) :
  plain a -> plain b ->
  location_field 0 ("x:" +:+ a +:+ " y:" +:+ b +:+ " " +:+ rest) = Ret a /\
  location_field 1 ("x:" +:+ a +:+ " y:" +:+ b +:+ " " +:+ rest) = Ret b.
Proof.
  intros [Has Hac] [Hbs Hbc].
  assert ((space ∉ chars "x:") /\ (space ∉ chars "y:") /\
          (colon ∉ chars "x") /\ (colon ∉ chars "y"))
    as (Hx & Hy & Hcx & Hcy).
  { repeat split; intros H; simpl in H;
      repeat (apply elem_of_cons in H as [H|H]; [discriminate H|]);
      by apply elem_of_nil in H. }
  assert (py_split space ("x:" +:+ a +:+ " y:" +:+ b +:+ " " +:+ rest)
          = ("x:" +:+ a) :: ("y:" +:+ b) :: py_split space rest) as Hsp.
  { replace ("x:" +:+ a +:+ " y:" +:+ b +:+ " " +:+ rest)
      with (("x:" +:+ a) +:+ String space
              (("y:" +:+ b) +:+ String space rest)) by reflexivity.
    rewrite (py_split_app space ("x:" +:+ a)) by (by apply keyed_not_elem).
    by rewrite (py_split_app space ("y:" +:+ b)) by (by apply keyed_not_elem). }
  unfold location_field. rewrite Hsp. cbn [lookup list_lookup].
  replace ("x:" +:+ a) with ("x" +:+ String colon a) by reflexivity.
  replace ("y:" +:+ b) with ("y" +:+ String colon b) by reflexivity.
  rewrite (py_split_keyed colon "x" a Hcx Hac).
  rewrite (py_split_keyed colon "y" b Hcy Hbc).
  by split.
Qed.

Lemma parse_location_no_colon (out : string) :
  colon ∉ chars out ->
  parse_location py_int out = Raise (IndexError "list index out of range").
Proof.
  intros Hno. unfold parse_location, location_field.
  destruct (py_split space out) as [|token tokens] eqn:E;
    [by destruct (py_split_nonempty space out)|].
  cbn [lookup list_lookup].
  assert (colon ∉ chars token) as Htok.
  { intros Hc. apply Hno. apply (py_split_head_chars space colon out token);
      [by rewrite E|exact Hc]. }
  by rewrite (py_split_plain colon token Htok).
Qed.

(** X24. [get_mouse_position] reads the text between "x:" and the first
    space and the text between "y:" and the next space of the output of
    xdotool, converts the first and then the second with [int], and builds
    the point. An output without a colon, such as the empty output that a
    failed command leaves, raises [IndexError]. *)
Theorem parse_location_spec :
  (forall a b rest, plain a -> plain b ->
     parse_location py_int ("x:" +:+ a +:+ " y:" +:+ b +:+ " " +:+ rest)
     = match py_int a with
       | Raise e => Raise e
       | Ret x => match py_int b with
                  | Raise e => Raise e
                  | Ret y => Point_init x y
                  end
       end) /\
  (forall out, colon ∉ chars out ->
     parse_location py_int out = Raise (IndexError "list index out of range")).
Proof.
  split; [|exact parse_location_no_colon].
  intros a b rest Ha Hb. unfold parse_location.
  destruct (parse_location_fields a b rest Ha Hb) as [-> ->].
  reflexivity.
Qed.

End MouseFacts.

Lemma parse_location_spec_witness :
  parse_location demo_int "x:12 y:34 screen:0 window:99" = Ret (mkPoint 12 34)
  /\ parse_location demo_int ""
     = Raise (IndexError "list index out of range").
Proof.
  assert (forall c s, c ∉ chars s <->
            forallb (fun d => negb (Ascii.eqb d c)) (chars s) = true) as Hdec.
  { intros c s. induction (chars s) as [|d l IH]; cbn [forallb].
    - split; [reflexivity|]. intros _ H. by apply elem_of_nil in H.
    - rewrite not_elem_of_cons, andb_true_iff, IH, negb_true_iff,
        Ascii.eqb_neq. split; intros [H1 H2]; split; auto. }
  destruct (parse_location_spec demo_int) as [H1 H2]. split.
  - apply (H1 "12" "34" "screen:0 window:99");
      split; apply Hdec; reflexivity.
  - apply H2. apply Hdec. reflexivity.
Defined.

(** ** screen.py: moving and dragging the mouse *)

Lemma commands_snoc (evs : list display_event) (cmd : string) (w : bool)
    (m : gmap string string) (log : list log_record) :
  commands (evs ++ [EvRun cmd w m log]) = commands evs ++ [cmd].
Proof. unfold commands. by rewrite omap_app. Qed.

Section MouseMoves.
Variable shlex_split : string -> outcome (list string).
Variable spawn : nat -> option (gmap string string) -> list string
                 -> outcome Process.
Variable py_int : string -> outcome Z.
Variable clock : nat -> Q.

Lemma run_command_in_eq (rt : display_rt) (cmd : string) (w : bool)
    (wd : display_world) :
  exists log,
    run_command_in shlex_split spawn rt cmd w wd
    = (fst (run_command shlex_split (spawn (spawned wd) (Some (env rt))) cmd w),
       mkWorld (Datatypes.S (spawned wd))
               (history wd ++ [EvRun cmd w (env rt) log])).
Proof.
  unfold run_command_in. destruct (run_command _ _ _ _) as [o log].
  by exists log.
Qed.

(** X25. The first poll decides a [mouse_move] when it can. After the
    window is activated and the move command has run, an xdotool report
    that parses to the target makes [mouse_move] return at once; a report
    that does not parse makes it raise the exception of the parser, so a
    report without a colon (the empty string that the lenient
    [run_command] returns after a failed xdotool, say) comes out as
    [IndexError] and not as the [TimeoutError] of the wait. In these cases
    exactly three commands have run, in the order activate, move, get the
    location, and nothing has slept. *)
Theorem mouse_move_first_poll (rt : display_rt) (point : Point)
    (click : option Click) (fuel : nat) (ps : pstate display_world bool)
    (s1 s2 out : string) :
  let n := spawned (user ps) in
  let activate := "xdotool search --name " +:+ title (rt_display rt)
                    +:+ " windowactivate" in
  let move := "xdotool mousemove " +:+ str_of_int (X point) +:+ " "
                +:+ str_of_int (Y point) +:+ " " in
  let cmd := match click with
             | Some c => move +:+ "click --delay 50 "
                           +:+ str_of_int (Click_value c) +:+ " "
             | None => move
             end in
  let run k c := fst (run_command shlex_split (spawn k (Some (env rt))) c true) in
  let decided o :=
    exists ps',
      mouse_move shlex_split spawn py_int clock rt point click fuel ps
      = Some (o, ps') /\
      commands (history (user ps'))
      = commands (history (user ps))
          ++ [activate; cmd; "xdotool getmouselocation"] /\
      sleeps (trace ps') = sleeps (trace ps) in
  0 < fuel ->
  run n activate = Ret s1 ->
  run (Datatypes.S n) cmd = Ret s2 ->
  run (Datatypes.S (Datatypes.S n)) "xdotool getmouselocation" = Ret out ->
  (forall p, parse_location py_int out = Ret p -> Point_eq p point = true ->
             decided (Ret tt)) /\
  (forall e, parse_location py_int out = Raise e -> decided (Raise e)) /\
  (colon ∉ chars out ->
   decided (Raise (IndexError "list index out of range"))).
Proof.
  intros n activate move cmd run decided Hfuel Hact Hmove Hloc.
  assert (forall o,
            match parse_location py_int out with
            | Ret p => Point_eq p point = true /\ o = Ret tt
            | Raise e => o = Raise e
            end -> decided o) as Hdec.
  { intros o Ho. unfold decided.
    destruct fuel as [|fuel]; [lia|].
    unfold mouse_move. fold move. fold cmd.
    unfold send_and_wait, activate_window. fold activate.
    destruct (run_command_in_eq rt activate true (user ps)) as [log1 ->].
    fold n. fold (run n activate). rewrite Hact.
    destruct (run_command_in_eq rt cmd true
                (mkWorld (Datatypes.S n)
                   (history (user ps) ++ [EvRun activate true (env rt) log1])))
      as [log2 ->].
    cbn [spawned history]. fold (run (Datatypes.S n) cmd). rewrite Hmove.
    unfold wait_for. cbn [time_time wait_for_loop]. unfold call.
    cbn [user reads trace]. unfold mouse_at, get_mouse_position.
    match goal with
    | |- context [run_command_in _ _ rt "xdotool getmouselocation" true ?w] =>
      destruct (run_command_in_eq rt "xdotool getmouselocation" true w)
        as [log3 ->]
    end.
    cbn [spawned history].
    fold (run (Datatypes.S (Datatypes.S n)) "xdotool getmouselocation").
    rewrite Hloc.
    destruct (parse_location py_int out) as [p|e].
    - destruct Ho as [-> ->]. eexists. split; [reflexivity|].
      cbn [user trace history]. split.
      + rewrite !commands_snoc, <- !app_assoc. reflexivity.
      + rewrite !sleeps_app. cbn. lia.
    - subst o. eexists. split; [reflexivity|].
      cbn [user trace history]. split.
      + rewrite !commands_snoc, <- !app_assoc. reflexivity.
      + rewrite !sleeps_app. cbn. lia. }
  split; [|split].
  - intros p Hp Heq. apply Hdec. rewrite Hp. by split.
  - intros e He. apply Hdec. by rewrite He.
  - intros Hno. apply Hdec. by rewrite parse_location_no_colon.
Qed.

(** What one command and its wait add: only the activation, the command
    itself and location queries go through [run_command], and a normal
    return comes after a poll that found the mouse at the point. *)
Lemma send_and_wait_effect (rt : display_rt) (cmd : string) (point : Point)
    (fuel : nat) (ps ps' : pstate display_world bool) (o : outcome unit) :
  let activate := "xdotool search --name " +:+ title (rt_display rt)
                    +:+ " windowactivate" in
  send_and_wait shlex_split spawn py_int clock rt cmd point fuel ps
  = Some (o, ps') ->
  exists new tr,
    commands (history (user ps')) = commands (history (user ps)) ++ new /\
    trace ps' = trace ps ++ tr /\
    Forall (fun c => c ∈ [activate; cmd; "xdotool getmouselocation"]) new /\
    (o = Ret tt -> EvCall (Ret true) ∈ tr /\ cmd ∈ new).
Proof.
  intros activate H. unfold send_and_wait, activate_window in H.
  fold activate in H.
  destruct (run_command_in_eq rt activate true (user ps)) as [log1 E1].
  rewrite E1 in H. clear E1.
  destruct (fst (run_command _ _ activate true)) as [s1|e1].
  2:{ inversion H; subst; clear H. exists [activate], [].
      cbn [user trace history]. rewrite commands_snoc, app_nil_r.
      split; [reflexivity|]. split; [reflexivity|].
      split; [|discriminate]. repeat constructor. }
  match type of H with
  | context [run_command_in _ _ rt cmd true ?w] =>
    destruct (run_command_in_eq rt cmd true w) as [log2 E2];
      rewrite E2 in H; clear E2
  end.
  cbn [spawned history] in H.
  destruct (fst (run_command _ _ cmd true)) as [s2|e2].
  2:{ inversion H; subst; clear H. exists [activate; cmd], [].
      cbn [user trace history]. rewrite !commands_snoc, app_nil_r, <- app_assoc.
      split; [reflexivity|]. split; [reflexivity|].
      split; [|discriminate].
      repeat first [apply Forall_cons; split | apply Forall_nil];
        set_solver. }
  match type of H with
  | context [wait_for clock ?c fuel 1 default_interval ?st] =>
    destruct (wait_for clock c fuel 1 default_interval st)
      as [[r ps'']|] eqn:Hw; [|discriminate];
      set (st2 := st) in *
  end.
  assert (o = match r with
              | Ret true => Ret tt
              | Ret false =>
                Raise (TimeoutError ("Mouse did not move to "
                                       +:+ Point_repr point +:+ " in 1 second"))
              | Raise e => Raise e
              end /\ ps'' = ps') as [Ho ->].
  { destruct r as [[|]|e]; by inversion H. }
  clear H.
  pose proof (wait_for_trace clock _ _ _ _ _ _ _ Hw) as (ts & tail & _ & Htr & Hend).
  unfold wait_for in Hw. cbn [time_time] in Hw.
  pose (I := fun wd : display_world =>
    exists more,
      commands (history wd)
      = commands (history (user ps)) ++ [activate; cmd] ++ more /\
      Forall (fun c => c = "xdotool getmouselocation") more).
  assert (I (user ps')) as (more & Hmore & Hall).
  { apply (wait_for_loop_invariant clock I
             (mouse_at shlex_split spawn py_int rt point)) in Hw.
    - exact Hw.
    - intros wd (more & Hm & Hf). unfold mouse_at, get_mouse_position.
      destruct (run_command_in_eq rt "xdotool getmouselocation" true wd)
        as [log3 ->].
      exists (more ++ ["xdotool getmouselocation"]).
      destruct (fst (run_command _ _ "xdotool getmouselocation" true)) as [out|e];
        [destruct (parse_location py_int out)|];
        cbn [snd history]; rewrite commands_snoc, Hm, <- !app_assoc;
        (split; [reflexivity|]);
        (apply Forall_app; split; [exact Hf|by repeat constructor]).
    - exists []. cbn [user history st2]. rewrite !commands_snoc, <- app_assoc.
      split; [reflexivity|constructor]. }
  exists ([activate; cmd] ++ more), (EvTime (clock (reads st2))
            :: flat_map (wait_for_round default_interval) ts ++ tail).
  split; [exact Hmore|]. split; [exact Htr|]. split.
  - apply Forall_app. split.
    + repeat first [apply Forall_cons; split | apply Forall_nil]; set_solver.
    + eapply Forall_impl; [exact Hall|]. intros c ->. set_solver.
  - intros ->. destruct r as [[|]|e]; try discriminate.
    cbn in Hend. subst tail. split; set_solver.
Qed.

(** X26. A [mouse_drag] releases the button only after a poll that found
    the mouse at the start point. Whatever the outcome, the commands it
    sends are the activation, the press, the release and location queries;
    the release command is among them only when a poll has returned true
    and the press has been sent; and a drag that returns normally has sent
    both. So a drag that fails in its first half (a timeout at the start
    point, or an exception of a command or of the parser) leaves the button
    pressed: no release is ever sent. *)
Theorem mouse_drag_release (rt : display_rt) (start end_ : Point)
    (click : Click) (fuel : nat) (ps ps' : pstate display_world bool)
    (o : outcome unit) :
  let activate := "xdotool search --name " +:+ title (rt_display rt)
                    +:+ " windowactivate" in
  let down := "xdotool mousedown " +:+ str_of_int (X start) +:+ " "
                +:+ str_of_int (Y start) +:+ " "
                +:+ str_of_int (Click_value click) +:+ " " in
  let up := "xdotool mouseup " +:+ str_of_int (X end_) +:+ " "
              +:+ str_of_int (Y end_) +:+ " "
              +:+ str_of_int (Click_value click) +:+ " " in
  mouse_drag shlex_split spawn py_int clock rt start end_ click fuel ps
  = Some (o, ps') ->
  exists new tr,
    commands (history (user ps')) = commands (history (user ps)) ++ new /\
    trace ps' = trace ps ++ tr /\
    Forall (fun c => c ∈ [activate; down; up; "xdotool getmouselocation"]) new /\
    (up ∈ new -> EvCall (Ret true) ∈ tr /\ down ∈ new) /\
    (o = Ret tt -> up ∈ new).
Proof.
  intros activate down up H. unfold mouse_drag in H.
  fold down in H. fold up in H.
  assert (up ∉ [activate; down; "xdotool getmouselocation"]) as Hup.
  { rewrite !not_elem_of_cons. subst up down activate.
    repeat split; try (cbn; discriminate). apply not_elem_of_nil. }
  destruct (send_and_wait _ _ _ _ rt down start fuel ps)
    as [[[u|e] ps1]|] eqn:H1; [| |discriminate].
  - destruct u.
    apply send_and_wait_effect in H1 as (new1 & tr1 & Hc1 & Ht1 & Hf1 & Hr1).
    destruct (Hr1 eq_refl) as [Htrue Hdown].
    apply send_and_wait_effect in H as (new2 & tr2 & Hc2 & Ht2 & Hf2 & Hr2).
    exists (new1 ++ new2), (tr1 ++ tr2).
    rewrite Hc2, Hc1, Ht2, Ht1, <- !app_assoc.
    split; [reflexivity|]. split; [reflexivity|]. split; [|split].
    + apply Forall_app. split;
        (eapply Forall_impl; [eassumption|]); cbn beta; intros c;
        fold activate; rewrite !elem_of_cons, elem_of_nil; tauto.
    + intros _. split; apply elem_of_app; by left.
    + intros Ho. destruct (Hr2 Ho) as [_ Hin]. apply elem_of_app. by right.
  - inversion H; subst; clear H.
    apply send_and_wait_effect in H1 as (new1 & tr1 & Hc1 & Ht1 & Hf1 & _).
    exists new1, tr1. split; [exact Hc1|]. split; [exact Ht1|].
    fold activate in Hf1. split; [|split].
    + eapply Forall_impl; [exact Hf1|]. cbn beta. intros c.
      rewrite !elem_of_cons, elem_of_nil. tauto.
    + intros Hin. exfalso. apply Hup.
      rewrite Forall_forall in Hf1. by apply Hf1.
    + discriminate.
Qed.

End MouseMoves.

Lemma mouse_move_first_poll_witness :
  (exists ps',
     mouse_move demo_split mouse_spawn demo_int (tick_clock 1) demo_rt
       (mkPoint 12 34) (Some LEFT) 1 start_state = Some (Ret tt, ps')) /\
  (exists ps',
     mouse_move demo_split silent_spawn demo_int (tick_clock 1) demo_rt
       (mkPoint 12 34) None 1 start_state
     = Some (Raise (IndexError "list index out of range"), ps')).
Proof.
  split.
  - destruct (mouse_move_first_poll demo_split mouse_spawn demo_int
                (tick_clock 1) demo_rt (mkPoint 12 34) (Some LEFT) 1 start_state
                "x:12 y:34 screen:0 window:99" "x:12 y:34 screen:0 window:99"
                "x:12 y:34 screen:0 window:99")
      as (Hat & _ & _);
      [lia|vm_compute; reflexivity|vm_compute; reflexivity
       |vm_compute; reflexivity|].
    destruct (Hat (mkPoint 12 34)) as (ps' & Hm & _);
      [vm_compute; reflexivity|vm_compute; reflexivity|].
    by exists ps'.
  - destruct (mouse_move_first_poll demo_split silent_spawn demo_int
                (tick_clock 1) demo_rt (mkPoint 12 34) None 1 start_state
                "" "" "")
      as (_ & _ & Hno);
      [lia|vm_compute; reflexivity|vm_compute; reflexivity
       |vm_compute; reflexivity|].
    destruct Hno as (ps' & Hm & _).
    + cbn. apply not_elem_of_nil.
    + by exists ps'.
Defined.

Lemma mouse_drag_release_witness :
  exists o ps' new tr,
    mouse_drag demo_split mouse_spawn demo_int (tick_clock 1) demo_rt
      (mkPoint 12 34) (mkPoint 12 34) LEFT 1 start_state = Some (o, ps') /\
    commands (history (user ps')) = commands (history (user start_state)) ++ new /\
    trace ps' = trace start_state ++ tr /\
    "xdotool mouseup 12 34 1 " ∈ new /\
    EvCall (Ret true) ∈ tr.
Proof.
  destruct (mouse_drag demo_split mouse_spawn demo_int (tick_clock 1) demo_rt
              (mkPoint 12 34) (mkPoint 12 34) LEFT 1 start_state)
    as [[o ps']|] eqn:E; [|vm_compute in E; discriminate].
  assert (o = Ret tt) as Ho.
  { vm_compute in E. by inversion E. }
  destruct (mouse_drag_release demo_split mouse_spawn demo_int (tick_clock 1)
              demo_rt (mkPoint 12 34) (mkPoint 12 34) LEFT 1 start_state ps' o E)
    as (new & tr & Hc & Ht & _ & Hup & Hret).
  exists o, ps', new, tr. split; [reflexivity|]. split; [exact Hc|].
  split; [exact Ht|]. split; [exact (Hret Ho)|]. exact (proj1 (Hup (Hret Ho))).
Defined.
